(** * ARIMA / LLM stock forecasting pipeline: the numeric core

    A shallow embedding of the numeric core of the repository
    (data_preparation.py, arima_modeling.py, main.py, fix_forecasts.py,
    and the date loop of visualization.py) together with the properties
    its specification states about it.

    Conventions of the embedding
    - float64 payloads (prices, scores, thresholds, p-values) are exact
      rationals [Q]; rounding and overflow are not modelled.  A statement
      about a sum, a difference or a mean names the value that the
      binary64 operations of the source approximate; nothing below rests
      on an exact cancellation or on a bound that rounding can break.
      Where the source itself
      manipulates non-finite floats ([float('inf')] in [fit_arima], the
      [nan] that [np.average] gives on an empty selection) the type
      [float] below is used, with the IEEE comparison tables.
    - Python exceptions and [print] output are threaded through the
      monad [M]: a computation maps the output written so far to an
      outcome (a value, a raised exception, or a [while] loop that used up
      its iteration budget) plus the extended output.
    - statsmodels ([ARIMA(...).fit()], [adfuller]) is an oracle passed as
      a Section variable; pandas' business-day offset and US federal
      holiday calendar are modelled from their documented rules. *)

From Stdlib Require Import String ZArith QArith List Bool Lia Lqa.
Import ListNotations.
Open Scope Z_scope.

(* ================================================================== *)
(** ** Floats with the non-finite values the source produces *)

Module Float.

Inductive float : Type :=
| NaN
| NInf
| Fin (x : Q)
| PInf.

Definition is_nan (a : float) : bool :=
  match a with NaN => true | _ => false end.

(** [a < b] on floats: false as soon as one side is [nan]. *)
Definition flt (a b : float) : bool :=
  match a, b with
  | NaN, _ | _, NaN => false
  | NInf, NInf => false
  | NInf, _ => true
  | Fin _, NInf => false
  | Fin x, Fin y => match Qcompare x y with Lt => true | _ => false end
  | Fin _, PInf => true
  | PInf, _ => false
  end.

(** [a == b] on floats. *)
Definition feq (a b : float) : bool :=
  match a, b with
  | NInf, NInf | PInf, PInf => true
  | Fin x, Fin y => Qeq_bool x y
  | _, _ => false
  end.

(** [a <= b] on floats. *)
Definition fle (a b : float) : bool := flt a b || feq a b.

End Float.

Import Float.

(* ================================================================== *)
(** ** Python effects: exceptions and printed output *)

Module Py.

Inductive exn : Type :=
| AttributeError (attr : string)
| IndexError
| KeyError (key : string)
| ValueError
| LinAlgError.

(** An ARIMA order [(p, d, q)]. *)
Definition order : Type := (nat * nat * nat)%type.

(** Observable effects, in program order: every [print] of the modelled
    functions (one constructor per message, carrying the values
    interpolated into it) and every call into the ARIMA fitting oracle. *)
Inductive event : Type :=
| Call_ARIMA_fit (o : order)
| Print_best_parameters (o : option order)
| Print_aic (a : float)
| Print_could_not_find
| Print_error_fitting (e : exn)
| Print_preparing (ticker : string)
| Print_adf_p_value (diff_order : nat) (p_value : Q)
| Print_stationary_after (diff_order : nat)
| Print_applying_difference (diff_order : nat)
| Print_warning_not_stationary (ticker : string) (diff_order : nat)
| Print_warning_no_paths (threshold : Q)
| Print_no_simulated_paths
| Print_no_analysis_data
| Print_recalculated (n_threshold : nat) (new_threshold : Q) (n_chatgpt : nat)
| Print_error_recalculating (e : exn).

Inductive outcome (A : Type) : Type :=
| Returned (a : A)
| Raised (e : exn)
| OutOfFuel.

Arguments Returned {A} a.
Arguments Raised {A} e.
Arguments OutOfFuel {A}.

Definition M (A : Type) : Type := list event -> outcome A * list event.

Definition ret {A} (a : A) : M A := fun out => (Returned a, out).

Definition bind {A B} (m : M A) (k : A -> M B) : M B :=
  fun out =>
    match m out with
    | (Returned a, out') => k a out'
    | (Raised e, out') => (Raised e, out')
    | (OutOfFuel, out') => (OutOfFuel, out')
    end.

Definition raise {A} (e : exn) : M A := fun out => (Raised e, out).

Definition emit (ev : event) : M unit := fun out => (Returned tt, out ++ [ev]).

(** The result of a library call that either raises or returns. *)
Definition lift {A} (r : exn + A) : M A :=
  match r with
  | inl e => raise e
  | inr a => ret a
  end.

(** [try: m  except: h], for a bare [except] and for [except Exception]:
    every modelled exception is caught. *)
Definition try_except {A} (m : M A) (h : exn -> M A) : M A :=
  fun out =>
    match m out with
    | (Raised e, out') => h e out'
    | r => r
    end.

(** [for x in xs: st = body x st]. *)
Fixpoint for_each {X S} (xs : list X) (body : X -> S -> M S) (st : S) : M S :=
  match xs with
  | [] => ret st
  | x :: xs' => bind (body x st) (for_each xs' body)
  end.

(** [while cond st: st = body st], cut off after [fuel] iterations. *)
Fixpoint while_loop {S} (fuel : nat) (cond : S -> bool) (body : S -> M S)
    (st : S) : M S :=
  if cond st then
    match fuel with
    | O => fun out => (OutOfFuel, out)
    | S fuel' => bind (body st) (while_loop fuel' cond body)
    end
  else ret st.

End Py.

Import Py.

Notation "x <- m ;; k" := (bind m (fun x => k))
  (at level 61, m at next level, right associativity).
Notation "m ;;; k" := (bind m (fun _ => k))
  (at level 61, right associativity).

(* ================================================================== *)
(** ** numpy array operations used by the core *)

Module Np.

Fixpoint sum (l : list Q) : Q :=
  match l with
  | [] => 0%Q
  | x :: l' => (x + sum l')%Q
  end.

(** [np.cumsum] over a 1-d array, as a running total. *)
Fixpoint cumsum_from (acc : Q) (l : list Q) : list Q :=
  match l with
  | [] => []
  | x :: l' => (acc + x)%Q :: cumsum_from (acc + x)%Q l'
  end.

Definition cumsum (l : list Q) : list Q := cumsum_from 0%Q l.

(** [a + c] for an array [a] and a scalar [c]. *)
Definition add_scalar (l : list Q) (c : Q) : list Q :=
  map (fun x => (x + c)%Q) l.

(** [np.diff] over a 1-d array: [out[i] = a[i+1] - a[i]]. *)
Fixpoint diff (l : list Q) : list Q :=
  match l with
  | a :: (b :: _) as l' => (b - a)%Q :: diff l'
  | _ => []
  end.

(** A 2-d array of shape [(length rows, ncols)]. *)
Record ndarray2 : Type := mkArray2 {
  rows : list (list Q);
  ncols : nat
}.

Definition well_shaped (a : ndarray2) : Prop :=
  Forall (fun r => length r = ncols a) (rows a).

Definition cumsum_axis1 (a : ndarray2) : ndarray2 :=
  {| rows := map cumsum (rows a); ncols := ncols a |}.

Definition add_scalar2 (a : ndarray2) (c : Q) : ndarray2 :=
  {| rows := map (fun r => add_scalar r c) (rows a); ncols := ncols a |}.

(** The rows of [a[mask]] for a boolean mask along axis 0. *)
Fixpoint select (rs : list (list Q)) (mask : list bool) : list (list Q) :=
  match rs, mask with
  | r :: rs', b :: mask' => if b then r :: select rs' mask' else select rs' mask'
  | _, _ => []
  end.

(** [a[mask]]: numpy checks the length of a boolean mask against the
    axis only when the mask is not empty; a mask of size 0 is accepted
    for every array and selects no row. *)
Definition boolean_index (a : ndarray2) (mask : list bool) : M ndarray2 :=
  if Nat.eqb (length mask) 0 || Nat.eqb (length mask) (length (rows a))
  then ret {| rows := select (rows a) mask; ncols := ncols a |}
  else raise IndexError.

Definition column (rs : list (list Q)) (j : nat) : list Q :=
  map (fun r => nth j r 0%Q) rs.

(** One entry of [np.average(a, axis=0)]: the column sum over the row
    count, and [nan] (0/0) when there is no row. *)
Definition column_mean (rs : list (list Q)) (j : nat) : float :=
  match rs with
  | [] => NaN
  | _ => Fin (sum (column rs j) / inject_Z (Z.of_nat (length rs)))%Q
  end.

Definition average_axis0 (a : ndarray2) : list float :=
  map (column_mean (rows a)) (seq 0 (ncols a)).

End Np.

Import Np.

(* ================================================================== *)
(** ** arima_modeling.py: [fit_arima] *)

Module ArimaSelector.

Section FitArima.

(** The series handed to statsmodels and the fitted-results object are
    opaque to the selector; it only reads [model_fit.aic]. *)
Variable series : Type.
Variable model_fit : Type.
Variable aic : model_fit -> float.

(** [ARIMA(series, order=o).fit()]: raises or returns a results object.
    A raised exception is the only failure of a candidate the selector
    can observe: statsmodels also returns a results object when the
    optimizer did not converge (it warns, and warnings are ignored), and
    the selector does not read the convergence flag of the object. *)
Variable ARIMA_fit : series -> order -> exn + model_fit.

Definition p_range : list nat := seq 0 6.
Definition q_range : list nat := seq 0 6.

(** The pairs [(p, q)] in the order the two nested loops visit them. *)
Definition scan_order : list (nat * nat) := list_prod p_range q_range.

(** What the output shows of one visit: the call of the fitting oracle. *)
Definition call_of (pq : nat * nat) : event :=
  Call_ARIMA_fit (fst pq, 0%nat, snd pq).

(** The three locals [best_aic], [best_order], [best_model]. *)
Record search : Type := mkSearch {
  best_aic : float;
  best_order : option order;
  best_model : option model_fit
}.

Definition search_init : search :=
  {| best_aic := PInf; best_order := None; best_model := None |}.

(** Body of the inner loop, lines 29-41: the [try] block and its bare
    [except: continue]. *)
Definition fit_candidate (s : series) (p q : nat) (st : search) : M search :=
  try_except
    (emit (Call_ARIMA_fit (p, 0%nat, q)) ;;;
     fitted <- lift (ARIMA_fit s (p, 0%nat, q)) ;;
     if flt (aic fitted) (best_aic st)
     then ret {| best_aic := aic fitted;
                 best_order := Some (p, 0%nat, q);
                 best_model := Some fitted |}
     else ret st)
    (fun _ => ret st).

(** The Python triple [(best_model, best_order, best_model_fit)]; the
    source returns [best_model] in the first and in the third place. *)
Definition fit_result : Type :=
  (option model_fit * option order * option model_fit)%type.

Definition fit_arima (s : series) : M fit_result :=
  try_except
    (st <- for_each p_range
             (fun p st => for_each q_range (fun q st => fit_candidate s p q st) st)
             search_init ;;
     match best_model st with
     | None =>
         emit Print_could_not_find ;;;
         ret (None, None, None)
     | Some _ =>
         emit (Print_best_parameters (best_order st)) ;;;
         emit (Print_aic (best_aic st)) ;;;
         ret (best_model st, best_order st, best_model st)
     end)
    (fun e => emit (Print_error_fitting e) ;;; ret (None, None, None)).

End FitArima.

Arguments best_aic {model_fit} _.
Arguments best_order {model_fit} _.
Arguments best_model {model_fit} _.
Arguments search_init {model_fit}.
Arguments fit_candidate {series model_fit} aic ARIMA_fit s p q st _.
Arguments fit_arima {series model_fit} aic ARIMA_fit s _.

End ArimaSelector.

(* ================================================================== *)
(** ** data_preparation.py *)

Module DataPreparation.

(** The two container types the function moves between: the downloaded
    closing prices are a [pd.Series]; [np.diff] returns an [np.ndarray]
    whatever it is given.  Only the values are kept, not the date index. *)
Inductive array_like : Type :=
| Series (values : list Q)
| Ndarray (values : list Q).

Definition values (a : array_like) : list Q :=
  match a with
  | Series v => v
  | Ndarray v => v
  end.

Definition np_diff (a : array_like) : array_like := Ndarray (diff (values a)).

(** The literal [0.05]. *)
Definition alpha : Q := 5 # 100.

Definition Qltb (x y : Q) : bool :=
  match Qcompare x y with Lt => true | _ => false end.

(** A Python dict with string keys, in insertion order. *)
Definition dict (V : Type) : Type := list (string * V).

Fixpoint dict_get {V} (d : dict V) (k : string) : option V :=
  match d with
  | [] => None
  | (k', v) :: d' => if String.eqb k k' then Some v else dict_get d' k
  end.

Fixpoint dict_set {V} (d : dict V) (k : string) (v : V) : dict V :=
  match d with
  | [] => [(k, v)]
  | (k', v') :: d' =>
      if String.eqb k k' then (k', v) :: d' else (k', v') :: dict_set d' k v
  end.

(** [d[k]], raising [KeyError] for a missing key. *)
Definition dict_item {V} (d : dict V) (k : string) : M V :=
  match dict_get d k with
  | Some v => ret v
  | None => raise (KeyError k)
  end.

Section Stationarity.

(** [adfuller(x)[1]]: the p-value of the Augmented Dickey-Fuller test, or
    the exception statsmodels raises (a sample that is too short, ...). *)
Variable adfuller : list Q -> exn + Q.

Definition check_stationarity (series : array_like) : M (bool * Q) :=
  p_value <- lift (adfuller (values series)) ;;
  ret (Qle_bool p_value alpha, p_value).

(** [series.diff().dropna()]: a method of [pd.Series]; an [np.ndarray]
    has no attribute [diff]. *)
Definition difference_series (series : array_like) : M array_like :=
  match series with
  | Series v => ret (Series (diff v))
  | Ndarray _ => raise (AttributeError "diff")
  end.

(** The locals of the [while] loop, lines 64-77. *)
Record loop_state : Type := mkLoop {
  current_data : array_like;
  is_stationary : bool;
  diff_order : nat
}.

Definition loop_cond (st : loop_state) : bool :=
  negb (is_stationary st) && Nat.ltb (diff_order st) 3.

Definition loop_body (st : loop_state) : M loop_state :=
  p_value <- lift (adfuller (values (current_data st))) ;;
  emit (Print_adf_p_value (diff_order st) p_value) ;;;
  if Qltb p_value alpha
  then
    emit (Print_stationary_after (diff_order st)) ;;;
    ret {| current_data := current_data st;
           is_stationary := true;
           diff_order := diff_order st |}
  else
    emit (Print_applying_difference (S (diff_order st))) ;;;
    ret {| current_data := np_diff (current_data st);
           is_stationary := is_stationary st;
           diff_order := S (diff_order st) |}.

(** The loop started from the freshly initialised locals. *)
Definition differencing_loop (series : array_like) : M loop_state :=
  while_loop 3 loop_cond loop_body
    {| current_data := series; is_stationary := false; diff_order := 0 |}.

(** The body of the [for ticker in tickers.keys()] loop. *)
Definition prepare_ticker (data : dict array_like) (ticker : string)
    (stationary_data : dict array_like) : M (dict array_like) :=
  emit (Print_preparing ticker) ;;;
  series <- dict_item data ticker ;;
  st <- differencing_loop series ;;
  current <-
    (if negb (is_stationary st)
     then
       emit (Print_warning_not_stationary ticker (diff_order st)) ;;;
       difference_series (current_data st)
     else ret (current_data st)) ;;
  ret (dict_set stationary_data ticker current).

(** [tickers] is the list of keys of the [tickers] dict, in its order. *)
Definition prepare_stationary_data (data : dict array_like)
    (tickers : list string) : M (dict array_like) :=
  for_each tickers (prepare_ticker data) [].

End Stationarity.

End DataPreparation.

(* ================================================================== *)
(** ** Dates: proleptic Gregorian ordinals, business days, US federal
       holidays *)

Module Calendar.

(** A date is its ordinal, as [datetime.date.toordinal]: 1 is 0001-01-01. *)
Definition date : Type := Z.

Definition weekday (d : date) : Z := (d + 6) mod 7.

Definition is_leap (year : Z) : bool :=
  (year mod 4 =? 0) && (negb (year mod 100 =? 0) || (year mod 400 =? 0)).

Definition days_before_year (year : Z) : Z :=
  let y := year - 1 in y * 365 + y / 4 - y / 100 + y / 400.

Definition DAYS_IN_MONTH (month : Z) : Z :=
  match month with
  | 1 => 31 | 2 => 28 | 3 => 31 | 4 => 30 | 5 => 31 | 6 => 30
  | 7 => 31 | 8 => 31 | 9 => 30 | 10 => 31 | 11 => 30 | 12 => 31
  | _ => 0
  end.

Definition DAYS_BEFORE_MONTH (month : Z) : Z :=
  match month with
  | 1 => 0 | 2 => 31 | 3 => 59 | 4 => 90 | 5 => 120 | 6 => 151
  | 7 => 181 | 8 => 212 | 9 => 243 | 10 => 273 | 11 => 304 | 12 => 334
  | _ => 0
  end.

Definition days_before_month (year month : Z) : Z :=
  DAYS_BEFORE_MONTH month + (if (2 <? month) && is_leap year then 1 else 0).

Definition ymd2ord (year month day : Z) : date :=
  days_before_year year + days_before_month year month + day.

Definition DI400Y : Z := 146097.
Definition DI100Y : Z := 36524.
Definition DI4Y : Z := 1461.

(** The inverse of [ymd2ord], following CPython's [_ord2ymd]. *)
Definition ord2ymd (d : date) : Z * Z * Z :=
  let n := d - 1 in
  let n400 := n / DI400Y in
  let n := n mod DI400Y in
  let year := n400 * 400 + 1 in
  let n100 := n / DI100Y in
  let n := n mod DI100Y in
  let n4 := n / DI4Y in
  let n := n mod DI4Y in
  let n1 := n / 365 in
  let n := n mod 365 in
  let year := year + n100 * 100 + n4 * 4 + n1 in
  if (n1 =? 4) || (n100 =? 4) then (year - 1, 12, 31)
  else
    let leapyear := (n1 =? 3) && (negb (n4 =? 24) || (n100 =? 3)) in
    let month := Z.shiftr (n + 50) 5 in
    let preceding :=
      DAYS_BEFORE_MONTH month + (if (2 <? month) && leapyear then 1 else 0) in
    if n <? preceding
    then
      let month := month - 1 in
      let preceding :=
        preceding
        - (DAYS_IN_MONTH month + (if (month =? 2) && leapyear then 1 else 0)) in
      (year, month, n - preceding + 1)
    else (year, month, n - preceding + 1).

Definition month_day (d : date) : Z * Z :=
  let '(_, m, dd) := ord2ymd d in (m, dd).

(** [d + BDay(n)]: pandas' [BusinessDay] offset applied to a date (whole
    weeks first, then [_adjust_ndays]). *)
Definition add_BDay (d : date) (n : Z) : date :=
  let wday := weekday d in
  let weeks := n / 5 in
  let n := if (n <=? 0) && (4 <? wday) then n + 1 else n in
  let n := n - 5 * weeks in
  let days :=
    if (n =? 0) && (4 <? wday) then 4 - wday
    else if 4 <? wday then (7 - wday) + (n - 1)
    else if wday + n <=? 4 then n
    else n + 2 in
  d + (7 * weeks + days).

(** A holiday on a fixed month and day with pandas' [nearest_workday]
    observance: a Saturday holiday is observed the Friday before, a
    Sunday holiday the Monday after.  [d] is the observed date. *)
Definition observed_fixed (month day : Z) (d : date) : bool :=
  let here := month_day d in
  let wd := weekday d in
  let is_it md := (fst md =? month) && (snd md =? day) in
  (is_it here && (wd <=? 4))
  || ((wd =? 4) && is_it (month_day (d + 1)))
  || ((wd =? 0) && is_it (month_day (d - 1))).

(** A holiday on the weekday [wd] falling between [lo] and [hi] of a
    month (third Monday of January: Monday, 15..21). *)
Definition floating (month wd lo hi : Z) (d : date) : bool :=
  let '(m, dd) := month_day d in
  (m =? month) && (weekday d =? wd) && (lo <=? dd) && (dd <=? hi).

(** The rules of pandas' [USFederalHolidayCalendar]. *)
Definition is_us_federal_holiday (d : date) : bool :=
  observed_fixed 1 1 d                                   (* New Year's Day *)
  || (floating 1 0 15 21 d && (ymd2ord 1986 1 1 <=? d))    (* M. L. King Jr. *)
  || floating 2 0 15 21 d                                (* Presidents' Day *)
  || floating 5 0 25 31 d                                (* Memorial Day *)
  || (observed_fixed 6 19 d && (ymd2ord 2021 6 18 <=? d))  (* Juneteenth *)
  || observed_fixed 7 4 d                                (* Independence Day *)
  || floating 9 0 1 7 d                                  (* Labor Day *)
  || floating 10 0 8 14 d                                (* Columbus Day *)
  || observed_fixed 11 11 d                              (* Veterans Day *)
  || floating 11 3 22 28 d                               (* Thanksgiving *)
  || observed_fixed 12 25 d.                             (* Christmas *)

Definition date_range (start stop : date) : list date :=
  map (fun k => start + Z.of_nat k) (seq 0 (Z.to_nat (stop - start + 1))).

(** [cal.holidays(start=start, end=stop)]: the holidays of the closed
    interval, as a sorted index. *)
Definition holidays_between (start stop : date) : list date :=
  filter is_us_federal_holiday (date_range start stop).

(** [d in index]. *)
Definition contains (index : list date) (d : date) : bool :=
  existsb (Z.eqb d) index.

End Calendar.

(* ================================================================== *)
(** ** arima_modeling.py: [transform_to_original_scale] *)

Module ScaleRestorer.

Import Calendar.

(** The locals of the date loop, lines 97-104. *)
Record date_state : Type := mkDates {
  forecast_dates : list date;
  current_date : date
}.

Definition date_cond (steps : nat) (st : date_state) : bool :=
  Nat.ltb (length (forecast_dates st)) steps.

(** The test of line 102: a weekday (0-4 are Monday-Friday) that is not
    in the holiday index. *)
Definition is_trading_day (holidays : list date) (d : date) : bool :=
  (weekday d <? 5) && negb (contains holidays d).

Definition date_body (holidays : list date) (st : date_state) : M date_state :=
  let cur := current_date st in
  ret {| forecast_dates :=
           if is_trading_day holidays cur
           then forecast_dates st ++ [cur]
           else forecast_dates st;
         current_date := add_BDay cur 1 |}.

(** Iteration budget of the date loop: an iteration that appends nothing
    has met a date of [holidays], which lie in the window ending at
    [stop], and every iteration moves [current_date] forward. *)
Definition date_budget (steps : nat) (last_date stop : date) : nat :=
  (steps + Z.to_nat (stop - last_date))%nat.

(** Lines 92-106 of [transform_to_original_scale]: the holiday index and
    the date loop. *)
Definition generate_forecast_dates (steps : nat) (last_date : date)
    : M (list date) :=
  let stop := add_BDay last_date (Z.of_nat steps + 10) in
  let holidays := holidays_between last_date stop in
  st <- while_loop (date_budget steps last_date stop)
          (date_cond steps) (date_body holidays)
          {| forecast_dates := []; current_date := add_BDay last_date 1 |} ;;
  ret (forecast_dates st).

Definition transform_to_original_scale (forecast : list Q)
    (simulated_paths : ndarray2) (last_original_value : Q) (last_date : date)
    : M (list Q * ndarray2 * list date) :=
  forecast_dates <- generate_forecast_dates (length forecast) last_date ;;
  let forecast_original := add_scalar (cumsum forecast) last_original_value in
  let simulated_paths_original :=
    add_scalar2 (cumsum_axis1 simulated_paths) last_original_value in
  ret (forecast_original, simulated_paths_original, forecast_dates).

End ScaleRestorer.

(* ================================================================== *)
(** ** main.py and fix_forecasts.py: threshold weighting *)

Module ThresholdWeighting.

(** The same definition appears in main.py (lines 25-48) and in
    fix_forecasts.py (lines 10-33).  The parameter's default, 2, is never
    relied on: every call passes its threshold. *)
Definition calculate_threshold_weighted_forecast (simulated_paths : ndarray2)
    (weights : list Q) (threshold : Q) : M (list float) :=
  let mask := map (fun w => Qle_bool threshold w) weights in
  mask <-
    (if negb (existsb (fun b => b) mask)
     then
       emit (Print_warning_no_paths threshold) ;;;
       ret (map (fun _ => true) weights)
     else ret mask) ;;
  filtered_paths <- boolean_index simulated_paths mask ;;
  ret (average_axis0 filtered_paths).

(** One element of [forecasts_data['arima_forecast']]. *)
Record forecast_entry : Type := mkEntry {
  entry_date : string;
  entry_arima_forecast : Q;
  entry_threshold_weighted_forecast : option float;
  entry_chatgpt_weighted_forecast : option float
}.

(** The forecasts JSON object; an absent key is [None]. *)
Record forecasts : Type := mkForecasts {
  arima_forecast : list forecast_entry;
  simulated_paths : option ndarray2;
  weighted_forecast : option (list float);
  threshold_weighted_forecast : option (list float);
  chatgpt_weighted_forecast : option (list float);
  chatgpt_threshold : option Q
}.

(** main.py, lines 143-160 and 183-189: the two weighted forecasts and
    their storage into the forecast file's object.  [chatgpt_threshold]
    is the number read from the operator; plotting and file access lie
    between the two groups of lines and do not touch these values. *)
Definition main_weighted_forecasts (simulated_paths_original : ndarray2)
    (probabilities : list Q) (chatgpt_threshold : Q) (forecast_data : forecasts)
    : M forecasts :=
  threshold_weighted <-
    calculate_threshold_weighted_forecast simulated_paths_original
      probabilities 2 ;;
  chatgpt_weighted <-
    calculate_threshold_weighted_forecast simulated_paths_original
      probabilities chatgpt_threshold ;;
  ret {| arima_forecast := arima_forecast forecast_data;
         simulated_paths := simulated_paths forecast_data;
         weighted_forecast := None;
         threshold_weighted_forecast := Some threshold_weighted;
         chatgpt_weighted_forecast := Some chatgpt_weighted;
         chatgpt_threshold := Some chatgpt_threshold |}.

(** fix_forecasts.py, lines 72-76: the per-entry update, entry [i]
    receiving element [i] of each forecast when there is one. *)
Fixpoint update_entries (i : nat) (entries : list forecast_entry)
    (threshold_weighted chatgpt_weighted : list float) : list forecast_entry :=
  match entries with
  | [] => []
  | e :: entries' =>
      {| entry_date := entry_date e;
         entry_arima_forecast := entry_arima_forecast e;
         entry_threshold_weighted_forecast :=
           match nth_error threshold_weighted i with
           | Some x => Some x
           | None => entry_threshold_weighted_forecast e
           end;
         entry_chatgpt_weighted_forecast :=
           match nth_error chatgpt_weighted i with
           | Some x => Some x
           | None => entry_chatgpt_weighted_forecast e
           end |}
      :: update_entries (S i) entries' threshold_weighted chatgpt_weighted
  end.

(** fix_forecasts.py, lines 35-90.  [analyses] is the list of
    ["probability"] values of [analysis_data["analyses"]], [None] when
    the key is absent. *)
Definition recalculate_weighted_forecasts (forecasts_data : forecasts)
    (analyses : option (list Q)) : M forecasts :=
  try_except
    (let paths :=
       match simulated_paths forecasts_data with
       | Some a => a
       | None => {| rows := []; ncols := 0 |}
       end in
     if Nat.eqb (length (rows paths)) 0
     then emit Print_no_simulated_paths ;;; ret forecasts_data
     else
       match analyses with
       | None => emit Print_no_analysis_data ;;; ret forecasts_data
       | Some probabilities =>
           let new_threshold :=
             match chatgpt_threshold forecasts_data with
             | Some t => t
             | None => 6%Q
             end in
           threshold_weighted <-
             calculate_threshold_weighted_forecast paths probabilities 4 ;;
           chatgpt_weighted <-
             calculate_threshold_weighted_forecast paths probabilities
               new_threshold ;;
           emit (Print_recalculated (length threshold_weighted) new_threshold
                   (length chatgpt_weighted)) ;;;
           ret {| arima_forecast :=
                    update_entries 0 (arima_forecast forecasts_data)
                      threshold_weighted chatgpt_weighted;
                  simulated_paths := simulated_paths forecasts_data;
                  weighted_forecast := weighted_forecast forecasts_data;
                  threshold_weighted_forecast := Some threshold_weighted;
                  chatgpt_weighted_forecast := Some chatgpt_weighted;
                  chatgpt_threshold := chatgpt_threshold forecasts_data |}
       end)
    (fun e => emit (Print_error_recalculating e) ;;; ret forecasts_data).

End ThresholdWeighting.

(* ================================================================== *)
(** ** Concrete inputs *)

Module Examples.

Import Calendar ThresholdWeighting DataPreparation.

Local Open Scope Q_scope.

(** A fitting oracle given by a table of AIC values (the fitted model is
    identified with its AIC): two candidates fail, (1,0,0) and (2,0,3)
    tie on the lowest AIC. *)
Definition fit_table (_ : unit) (o : order) : exn + Q :=
  let '(p, _, q) := o in
  match p, q with
  | 0%nat, 0%nat => inl LinAlgError
  | 0%nat, 1%nat => inr 7
  | 1%nat, 0%nat => inr 5
  | 2%nat, 3%nat => inr 5
  | 3%nat, 0%nat => inl ValueError
  | _, _ => inr 9
  end.

(** A fitting oracle for a series on which every candidate fails. *)
Definition fit_never (_ : unit) (_ : order) : exn + Q := inl LinAlgError.

Definition paths3 : ndarray2 :=
  {| rows := [[10; 10]; [20; 20]; [30; 30]]; ncols := 2 |}.

Definition paths2 : ndarray2 := {| rows := [[10]; [20]]; ncols := 1 |}.

(** An ADF oracle reporting the same p-value at every difference order. *)
Definition adf_constant (p : Q) (_ : list Q) : exn + Q := inr p.

Definition prices : list Q := [100; 110; 121; 1331 # 10; 14641 # 100].

Definition no_forecasts : forecasts :=
  {| arima_forecast := [];
     simulated_paths := None;
     weighted_forecast := None;
     threshold_weighted_forecast := None;
     chatgpt_weighted_forecast := None;
     chatgpt_threshold := None |}.

Definition stored_forecasts : forecasts :=
  {| arima_forecast :=
       [{| entry_date := "2024-09-03";
           entry_arima_forecast := 20;
           entry_threshold_weighted_forecast := None;
           entry_chatgpt_weighted_forecast := None |}];
     simulated_paths := Some paths2;
     weighted_forecast := None;
     threshold_weighted_forecast := None;
     chatgpt_weighted_forecast := None;
     chatgpt_threshold := None |}.

(** A horizon of 264 steps after Monday 2018-12-31. *)
Definition long_horizon : list Q := repeat 0 264.
Definition long_paths : ndarray2 := {| rows := [long_horizon]; ncols := 264 |}.
Definition new_years_eve_2018 : date := ymd2ord 2018 12 31.

End Examples.

(* ================================================================== *)
(** ** Further concrete inputs *)

Module MoreExamples.

Import DataPreparation ThresholdWeighting Examples.

Local Open Scope Q_scope.

(** An ADF oracle that does not reject on a series of five values and
    rejects on shorter ones. *)
Definition adf_by_length (x : list Q) : exn + Q :=
  if Nat.eqb (length x) 5 then inr 1 else inr (1 # 100).

Definition closing_prices : dict array_like :=
  [("Alphabet"%string, Series prices)].

(** A fitting oracle whose candidates all return, with an AIC of
    [+inf] or [nan]. *)
Definition fit_degenerate (_ : unit) (o : order) : exn + float :=
  let '(p, _, _) := o in
  match p with
  | 0%nat => inr PInf
  | _ => inr NaN
  end.

(** A results object reduced to the two attributes in question: [aic],
    which [fit_arima] reads, and [mle_retvals['converged']], the flag of
    the optimizer, which it does not read. *)
Record ARIMAResults : Type := mkResults {
  results_aic : Q;
  converged : bool
}.

Definition aic_of (m : ARIMAResults) : float := Fin (results_aic m).

(** A fitting oracle whose candidate (0,0,0) returns without having
    converged, with the lowest AIC; the other candidates converge. *)
Definition fit_unconverged (_ : unit) (o : order) : exn + ARIMAResults :=
  let '(p, _, q) := o in
  match p, q with
  | 0%nat, 0%nat => inr {| results_aic := 5; converged := false |}
  | 0%nat, 1%nat => inr {| results_aic := 7; converged := true |}
  | _, _ => inr {| results_aic := 9; converged := true |}
  end.

(** A fitting oracle none of whose candidates converges: every fit
    returns, with the flag unset. *)
Definition fit_none_converged (_ : unit) (o : order) : exn + ARIMAResults :=
  let '(p, _, q) := o in
  inr {| results_aic := 10 + inject_Z (Z.of_nat (p + q)); converged := false |}.

(** A forecast file with two entries and paths of one step. *)
Definition overlong_forecasts : forecasts :=
  {| arima_forecast :=
       [{| entry_date := "2024-09-03";
           entry_arima_forecast := 20;
           entry_threshold_weighted_forecast := None;
           entry_chatgpt_weighted_forecast := None |};
        {| entry_date := "2024-09-04";
           entry_arima_forecast := 21;
           entry_threshold_weighted_forecast := None;
           entry_chatgpt_weighted_forecast := None |}];
     simulated_paths := Some paths2;
     weighted_forecast := None;
     threshold_weighted_forecast := None;
     chatgpt_weighted_forecast := None;
     chatgpt_threshold := Some 5 |}.

End MoreExamples.

(* ================================================================== *)
(** ** fix_forecasts.py: the corrections applied to a forecast file *)

Module FixForecasts.

Import ThresholdWeighting.

(** What the corrections print: the messages of
    [recalculate_weighted_forecasts] and of the function it calls, and
    one message each for the two other corrections. *)
Inductive fix_event : Type :=
| Recalculation (e : event)
| Print_updated_arima_forecast
| Print_keeping_arima_forecast
| Print_increased_threshold (old_threshold new_threshold : Q).

Definition F (A : Type) : Type :=
  list fix_event -> outcome A * list fix_event.

Definition retF {A} (a : A) : F A := fun out => (Returned a, out).

Definition bindF {A B} (m : F A) (k : A -> F B) : F B :=
  fun out =>
    match m out with
    | (Returned a, out') => k a out'
    | (Raised e, out') => (Raised e, out')
    | (OutOfFuel, out') => (OutOfFuel, out')
    end.

Definition raiseF {A} (e : exn) : F A := fun out => (Raised e, out).

Definition emitF (ev : fix_event) : F unit :=
  fun out => (Returned tt, out ++ [ev]).

(** A call of [recalculate_weighted_forecasts]: what it prints comes
    after what was printed before. *)
Definition call {A} (m : M A) : F A :=
  fun out =>
    let '(r, printed) := m [] in (r, out ++ map Recalculation printed).

(** [np.average(simulated_paths, axis=0)] for an array with at least one
    row: the column sums over the number of rows. *)
Definition average_of_paths (a : ndarray2) : list Q :=
  map (fun j =>
         (sum (column (rows a) j) / inject_Z (Z.of_nat (length (rows a))))%Q)
    (seq 0 (ncols a)).

(** Lines 105-106: entry [i] receives [arima_forecast_average[i]], and
    an index past the end of the average raises IndexError. *)
Fixpoint replace_arima_forecast (i : nat) (entries : list forecast_entry)
    (arima_forecast_average : list Q) : F (list forecast_entry) :=
  match entries with
  | [] => retF []
  | e :: entries' =>
      match nth_error arima_forecast_average i with
      | None => raiseF IndexError
      | Some x =>
          bindF (replace_arima_forecast (S i) entries' arima_forecast_average)
            (fun rest =>
               retF ({| entry_date := entry_date e;
                        entry_arima_forecast := x;
                        entry_threshold_weighted_forecast :=
                          entry_threshold_weighted_forecast e;
                        entry_chatgpt_weighted_forecast :=
                          entry_chatgpt_weighted_forecast e |} :: rest))
      end
  end.

(** Lines 92-112.  The test of line 99 holds when the key is present
    and its list is not empty. *)
Definition fix_arima_forecast_with_simulated_average (forecasts_data : forecasts)
    : F forecasts :=
  match simulated_paths forecasts_data with
  | Some a =>
      match rows a with
      | [] => bindF (emitF Print_keeping_arima_forecast)
                (fun _ => retF forecasts_data)
      | _ :: _ =>
          bindF (replace_arima_forecast 0 (arima_forecast forecasts_data)
                   (average_of_paths a))
            (fun entries =>
               bindF (emitF Print_updated_arima_forecast)
                 (fun _ =>
                    retF {| arima_forecast := entries;
                            simulated_paths := simulated_paths forecasts_data;
                            weighted_forecast :=
                              weighted_forecast forecasts_data;
                            threshold_weighted_forecast :=
                              threshold_weighted_forecast forecasts_data;
                            chatgpt_weighted_forecast :=
                              chatgpt_weighted_forecast forecasts_data;
                            chatgpt_threshold :=
                              chatgpt_threshold forecasts_data |}))
      end
  | None => bindF (emitF Print_keeping_arima_forecast)
              (fun _ => retF forecasts_data)
  end.

(** Lines 114-127. *)
Definition adjust_thresholds (forecasts_data : forecasts) : F forecasts :=
  match chatgpt_threshold forecasts_data with
  | Some old_threshold =>
      bindF (emitF (Print_increased_threshold old_threshold
                      (old_threshold + 1)%Q))
        (fun _ =>
           retF {| arima_forecast := arima_forecast forecasts_data;
                   simulated_paths := simulated_paths forecasts_data;
                   weighted_forecast := weighted_forecast forecasts_data;
                   threshold_weighted_forecast :=
                     threshold_weighted_forecast forecasts_data;
                   chatgpt_weighted_forecast :=
                     chatgpt_weighted_forecast forecasts_data;
                   chatgpt_threshold := Some (old_threshold + 1)%Q |})
  | None => retF forecasts_data
  end.

(** Lines 303-305 of [process_forecast_file]: the three corrections, in
    this order.  [analyses] is as for [recalculate_weighted_forecasts]:
    [None] when analysis.json is missing or has no ["analyses"]. *)
Definition apply_corrections (forecasts_data : forecasts)
    (analyses : option (list Q)) : F forecasts :=
  bindF (fix_arima_forecast_with_simulated_average forecasts_data)
    (fun forecasts_data =>
       bindF (adjust_thresholds forecasts_data)
         (fun forecasts_data =>
            call (recalculate_weighted_forecasts forecasts_data analyses))).

End FixForecasts.

(* ================================================================== *)
(** ** visualization.py and fix_forecasts.py: the dates of the plots *)

Module PlotDates.

Import Calendar ScaleRestorer.

(** One iteration of the loops of visualization.py (lines 57-60) and of
    fix_forecasts.py (lines 172-175): the test of
    [transform_to_original_scale], then the next calendar day. *)
Definition day_body (holidays : list date) (st : date_state) : M date_state :=
  let cur := current_date st in
  ret {| forecast_dates :=
           if is_trading_day holidays cur
           then forecast_dates st ++ [cur]
           else forecast_dates st;
         current_date := cur + 1 |}.

(** Iteration budget of these loops: past [end_date] no date is in the
    holiday index, and the loop has stopped when [current_date] has
    passed the [steps]-th business day after [end_date]. *)
Definition day_budget (steps : nat) (first end_date : date) : nat :=
  Z.to_nat (add_BDay end_date (Z.of_nat steps) - first + 1).

(** visualization.py, lines 48-62, in [plot_forecast_comparison]: the
    dates that are plotted and written to the forecast file. *)
Definition plot_forecast_dates (forecast_steps : nat)
    (last_historical_date : date) : M (list date) :=
  let max_days := Z.of_nat forecast_steps * 4 in
  let end_date := last_historical_date + max_days in
  let holidays := holidays_between last_historical_date end_date in
  st <- while_loop
          (day_budget forecast_steps (last_historical_date + 1) end_date)
          (date_cond forecast_steps) (day_body holidays)
          {| forecast_dates := [];
             current_date := last_historical_date + 1 |} ;;
  ret (forecast_dates st).

(** fix_forecasts.py, lines 163-177, in
    [regenerate_plots_with_black_theme]: the dates are generated again
    from the stored start date, which is the first date itself. *)
Definition regenerate_forecast_dates (forecast_steps : nat)
    (forecast_start_date : date) : M (list date) :=
  let max_days := Z.of_nat forecast_steps * 4 in
  let end_date := forecast_start_date + max_days in
  let holidays := holidays_between forecast_start_date end_date in
  st <- while_loop (day_budget forecast_steps forecast_start_date end_date)
          (date_cond forecast_steps) (day_body holidays)
          {| forecast_dates := []; current_date := forecast_start_date |} ;;
  ret (forecast_dates st).

End PlotDates.

(* ================================================================== *)
(** ** Names for parts of the modelled functions *)

Module Parts.

Import Calendar ThresholdWeighting.

(** [np.array(forecasts_data.get('simulated_paths', []))], line 46 of
    fix_forecasts.py. *)
Definition stored_paths (data : forecasts) : ndarray2 :=
  match simulated_paths data with
  | Some a => a
  | None => {| rows := []; ncols := 0 |}
  end.

(** [forecasts_data.get('chatgpt_threshold', 6.0)], line 59 of
    fix_forecasts.py. *)
Definition stored_threshold (data : forecasts) : Q :=
  match chatgpt_threshold data with
  | Some t => t
  | None => 6%Q
  end.

(** The days that [add_BDay] adds for a remainder of [r] business days
    on a date of weekday [w], once the whole weeks are set apart. *)
Definition adjust_ndays (w r : Z) : Z :=
  if (r =? 0) && (4 <? w) then 4 - w
  else if 4 <? w then (7 - w) + (r - 1)
  else if w + r <=? 4 then r
  else r + 2.

(** The test the forecast dates are meant to pass: a weekday that is
    not a US federal holiday. *)
Definition is_business_day (d : date) : bool :=
  (weekday d <? 5) && negb (is_us_federal_holiday d).

End Parts.

(* ================================================================== *)
(** * Properties *)

(** ** Comparison of floats *)

Module FloatFacts.

Lemma flt_Fin (x y : Q) : flt (Fin x) (Fin y) = true <-> (x < y)%Q.
Proof.
  unfold flt. rewrite Qlt_alt.
  destruct (x ?= y)%Q; split; intro H; congruence.
Qed.

Lemma feq_Fin (x y : Q) : feq (Fin x) (Fin y) = true <-> (x == y)%Q.
Proof. simpl. apply Qeq_bool_iff. Qed.

Lemma flt_irrefl (a : float) : flt a a = false.
Proof.
  destruct a as [| |x|]; try reflexivity.
  destruct (flt (Fin x) (Fin x)) eqn:E; [|reflexivity].
  apply flt_Fin in E. exfalso; revert E; apply Qlt_irrefl.
Qed.

Lemma flt_trans (a b c : float) :
  flt a b = true -> flt b c = true -> flt a c = true.
Proof.
  destruct a as [| |x|], b as [| |y|], c as [| |z|];
    try discriminate; try reflexivity.
  rewrite !flt_Fin. apply Qlt_trans.
Qed.

Lemma fle_flt_trans (a b c : float) :
  fle a b = true -> flt b c = true -> flt a c = true.
Proof.
  unfold fle. intros H Hbc. apply orb_true_iff in H as [H|H].
  - eapply flt_trans; eassumption.
  - destruct a as [| |x|], b as [| |y|], c as [| |z|];
      try discriminate; try reflexivity.
    apply feq_Fin in H. rewrite flt_Fin in *. now rewrite H.
Qed.

Lemma flt_not_nan (a b : float) :
  flt a b = true -> is_nan a = false /\ is_nan b = false.
Proof. destruct a, b; simpl; try discriminate; auto. Qed.

(** Away from [nan] the order is total. *)
Lemma flt_false_fle (a b : float) :
  is_nan a = false -> is_nan b = false -> flt a b = false -> fle b a = true.
Proof.
  unfold fle.
  destruct a as [| |x|], b as [| |y|]; simpl; try discriminate; try reflexivity.
  intros _ _ H.
  destruct (Qcompare x y) eqn:E; try discriminate.
  - apply Qeq_alt in E. apply orb_true_iff. right.
    apply Qeq_bool_iff. now symmetry.
  - apply Qgt_alt in E. apply orb_true_iff. left.
    change (flt (Fin y) (Fin x) = true). now apply flt_Fin.
Qed.

Lemma fle_false_flt (a b : float) :
  is_nan a = false -> is_nan b = false -> fle a b = false -> flt b a = true.
Proof.
  intros Ha Hb H. unfold fle in H. apply orb_false_iff in H as [H1 H2].
  pose proof (flt_false_fle a b Ha Hb H1) as H.
  unfold fle in H. apply orb_true_iff in H as [H|H]; [exact H|].
  destruct a as [| |x|], b as [| |y|]; simpl in *; try discriminate.
  apply Qeq_bool_iff in H. symmetry in H. apply Qeq_bool_iff in H. congruence.
Qed.

End FloatFacts.

(** ** Loops of the effect monad *)

Module PyFacts.

Lemma while_loop_done {S} fuel (cond : S -> bool) body st out :
  cond st = false -> while_loop fuel cond body st out = (Returned st, out).
Proof. intros H. destruct fuel; simpl; now rewrite H. Qed.

Lemma while_loop_step {S} fuel (cond : S -> bool) body st out :
  cond st = true ->
  while_loop (Datatypes.S fuel) cond body st out
  = bind (body st) (while_loop fuel cond body) out.
Proof. intros H. cbn [while_loop]. now rewrite H. Qed.

End PyFacts.

(** ** The grid search *)

Module ArimaSelectorFacts.

Import ArimaSelector FloatFacts Examples MoreExamples.

Section Search.

Variable series : Type.
Variable model_fit : Type.
Variable aic : model_fit -> float.
Variable ARIMA_fit : series -> order -> exn + model_fit.
Variable s : series.

Local Abbreviation fit_candidate := (fit_candidate aic ARIMA_fit).
Local Abbreviation fit_arima := (fit_arima aic ARIMA_fit).
Local Abbreviation search := (search model_fit).

(** What holds of the three locals once the pairs [done] were visited. *)
Let scanned (done : list (nat * nat)) (st : search) : Prop :=
  is_nan (best_aic st) = false
  /\ (forall j p q c,
        nth_error done j = Some (p, q) ->
        ARIMA_fit s (p, 0%nat, q) = inr c ->
        flt (aic c) (best_aic st) = false)
  /\ match best_model st with
     | None => best_aic st = PInf /\ best_order st = None
     | Some m =>
         exists i p q,
           nth_error done i = Some (p, q)
           /\ ARIMA_fit s (p, 0%nat, q) = inr m
           /\ best_order st = Some (p, 0%nat, q)
           /\ best_aic st = aic m
           /\ forall j p' q' c,
                (j < i)%nat ->
                nth_error done j = Some (p', q') ->
                ARIMA_fit s (p', 0%nat, q') = inr c ->
                fle (aic c) (aic m) = false
     end.

Lemma scanned_init : scanned [] search_init.
Proof.
  repeat split; simpl; auto.
  intros [|j] p q c H; discriminate.
Qed.

Lemma nth_error_snoc {A} (l : list A) (x : A) j y :
  nth_error (l ++ [x]) j = Some y ->
  ((j < length l)%nat /\ nth_error l j = Some y) \/ (j = length l /\ y = x).
Proof.
  intros H. destruct (Nat.lt_ge_cases j (length l)) as [Hlt|Hge].
  - left. split; [exact Hlt|]. now rewrite nth_error_app1 in H.
  - right. rewrite nth_error_app2 in H by exact Hge.
    destruct (j - length l)%nat as [|k] eqn:E.
    + simpl in H. split; [lia | congruence].
    + simpl in H. destruct k; discriminate.
Qed.

(** One visit: the exception of a failed fit is absorbed, the oracle is
    called once, and the invariant extends to the visited pair. *)
Lemma fit_candidate_scanned done st p q out :
  scanned done st ->
  exists st',
    fit_candidate s p q st out = (Returned st', out ++ [call_of (p, q)])
    /\ scanned (done ++ [(p, q)]) st'.
Proof.
  intros (Hnan & Hmin & Hbest).
  unfold ArimaSelector.fit_candidate, try_except, bind, emit, lift, call_of.
  simpl.
  destruct (ARIMA_fit s (p, 0%nat, q)) as [e|c] eqn:Hfit; simpl.
  - (* the fit raised *)
    exists st. split; [reflexivity|]. split; [exact Hnan|]. split.
    + intros j p' q' c' Hj Hc'.
      apply nth_error_snoc in Hj as [[_ Hj]|[_ Hj]].
      * eapply Hmin; eassumption.
      * inversion Hj; subst. congruence.
    + destruct (best_model st) as [m|]; [|exact Hbest].
      destruct Hbest as (i & p0 & q0 & Hi & Hm & Ho & Ha & Hearlier).
      exists i, p0, q0. repeat split; auto.
      * rewrite nth_error_app1; [exact Hi|].
        apply nth_error_Some. congruence.
      * intros j p' q' c' Hji Hj Hc'.
        apply nth_error_snoc in Hj as [[_ Hj]|[Hj _]].
        -- eapply Hearlier; eassumption.
        -- assert (i < length done)%nat by (apply nth_error_Some; congruence).
           lia.
  - destruct (flt (aic c) (best_aic st)) eqn:Hlt.
    + (* a strictly smaller AIC: the candidate becomes the best *)
      eexists. split; [reflexivity|].
      unfold scanned; cbn [best_aic best_order best_model].
      split; [apply (flt_not_nan _ _ Hlt)|]. split.
      * intros j p' q' c' Hj Hc'.
        apply nth_error_snoc in Hj as [[_ Hj]|[_ Hj]].
        -- destruct (flt (aic c') (aic c)) eqn:E; [|reflexivity].
           rewrite <- (Hmin j p' q' c' Hj Hc').
           symmetry. eapply flt_trans; eassumption.
        -- inversion Hj; subst. rewrite Hfit in Hc'. inversion Hc'; subst.
           apply flt_irrefl.
      * exists (length done), p, q. repeat split; auto.
        -- rewrite nth_error_app2 by lia. now rewrite Nat.sub_diag.
        -- intros j p' q' c' Hji Hj Hc'.
           rewrite nth_error_app1 in Hj by exact Hji.
           destruct (fle (aic c') (aic c)) eqn:E; [|reflexivity].
           rewrite <- (Hmin j p' q' c' Hj Hc').
           symmetry. eapply fle_flt_trans; eassumption.
    + (* not smaller: nothing changes *)
      exists st. split; [reflexivity|]. split; [exact Hnan|]. split.
      * intros j p' q' c' Hj Hc'.
        apply nth_error_snoc in Hj as [[_ Hj]|[_ Hj]].
        -- eapply Hmin; eassumption.
        -- inversion Hj; subst. rewrite Hfit in Hc'. inversion Hc'; subst.
           exact Hlt.
      * destruct (best_model st) as [m|]; [|exact Hbest].
        destruct Hbest as (i & p0 & q0 & Hi & Hm & Ho & Ha & Hearlier).
        exists i, p0, q0. repeat split; auto.
        -- rewrite nth_error_app1; [exact Hi|].
           apply nth_error_Some. congruence.
        -- intros j p' q' c' Hji Hj Hc'.
           apply nth_error_snoc in Hj as [[_ Hj]|[Hj _]].
           ++ eapply Hearlier; eassumption.
           ++ assert (i < length done)%nat by (apply nth_error_Some; congruence).
              lia.
Qed.

Lemma inner_loop_scanned p qs : forall done st out,
  scanned done st ->
  exists st',
    for_each qs (fun q st => fit_candidate s p q st) st out
    = (Returned st', out ++ map call_of (map (pair p) qs))
    /\ scanned (done ++ map (pair p) qs) st'.
Proof.
  induction qs as [|q qs IH]; intros done st out H; simpl.
  - exists st. now rewrite !app_nil_r.
  - destruct (fit_candidate_scanned done st p q out H) as (st1 & E1 & H1).
    unfold bind at 1. rewrite E1.
    destruct (IH _ st1 (out ++ [call_of (p, q)]) H1) as (st2 & E2 & H2).
    exists st2. rewrite E2. rewrite <- !app_assoc in *. simpl in *. auto.
Qed.

Lemma outer_loop_scanned qs ps : forall done st out,
  scanned done st ->
  exists st',
    for_each ps
      (fun p st => for_each qs (fun q st => fit_candidate s p q st) st) st out
    = (Returned st', out ++ map call_of (list_prod ps qs))
    /\ scanned (done ++ list_prod ps qs) st'.
Proof.
  induction ps as [|p ps IH]; intros done st out H; simpl.
  - exists st. now rewrite !app_nil_r.
  - destruct (inner_loop_scanned p qs done st out H) as (st1 & E1 & H1).
    unfold bind at 1. rewrite E1.
    destruct (IH _ st1 (out ++ map call_of (map (pair p) qs)) H1)
      as (st2 & E2 & H2).
    exists st2. rewrite E2. rewrite map_app, <- !app_assoc in *. auto.
Qed.

Lemma grid_search_scanned out :
  exists st,
    for_each p_range
      (fun p st => for_each q_range (fun q st => fit_candidate s p q st) st)
      search_init out
    = (Returned st, out ++ map call_of scan_order)
    /\ scanned scan_order st.
Proof.
  apply (outer_loop_scanned q_range p_range [] _ out scanned_init).
Qed.

Lemma scan_order_length : length scan_order = 36%nat.
Proof. reflexivity. Qed.

Lemma scan_order_NoDup : NoDup scan_order.
Proof.
  unfold scan_order, p_range, q_range. simpl.
  repeat (constructor; [simpl; intuition discriminate|]). constructor.
Qed.

(** [p] is the outer index and [q] the inner one. *)
Lemma scan_order_index p q :
  (p < 6)%nat -> (q < 6)%nat ->
  nth_error scan_order (6 * p + q) = Some (p, q).
Proof.
  intros Hp Hq.
  do 6 (destruct p as [|p]; [do 6 (destruct q as [|q]; [reflexivity|]); lia|]).
  lia.
Qed.

(** What [fit_arima] returns and writes, from the locals after the scan. *)
Lemma fit_arima_unfold out :
  exists st,
    scanned scan_order st
    /\ fit_arima s out
       = match best_model st with
         | None =>
             (Returned (None, None, None),
              out ++ map call_of scan_order ++ [Print_could_not_find])
         | Some _ =>
             (Returned (best_model st, best_order st, best_model st),
              out ++ map call_of scan_order
                  ++ [Print_best_parameters (best_order st);
                      Print_aic (best_aic st)])
         end.
Proof.
  destruct (grid_search_scanned out) as (st & E & H).
  exists st. split; [exact H|].
  unfold ArimaSelector.fit_arima, try_except. unfold bind at 1. rewrite E.
  destruct (best_model st); unfold bind, emit, ret; simpl;
    rewrite <- !app_assoc; reflexivity.
Qed.

(** C1 (as amended).  Grid search calls the fitting oracle once for
    every pair (p, q) with p and q in 0..5, in the order p outer / q
    inner and always with d = 0.  When it returns a fit, that fit is the
    result of one of these calls, its AIC is less than or equal to the
    AIC of every candidate whose fit returned, whether its optimizer
    converged or not, and strictly less than the AIC of every such
    candidate visited earlier: among candidates of equal AIC the one
    visited first is selected.  (A candidate whose AIC is not a number
    compares false both ways and takes no part in the ordering.) *)
Theorem fit_arima_selects_earliest_minimum_aic out :
  length scan_order = 36%nat
  /\ (forall p q, (p < 6)%nat -> (q < 6)%nat ->
        nth_error scan_order (6 * p + q) = Some (p, q))
  /\ (exists r tail,
        fit_arima s out = (Returned r, out ++ map call_of scan_order ++ tail)
        /\ forall o, ~ In (Call_ARIMA_fit o) tail)
  /\ forall m o m' out',
       fit_arima s out = (Returned (Some m, o, m'), out') ->
       m' = Some m
       /\ exists i p q,
            nth_error scan_order i = Some (p, q)
            /\ o = Some (p, 0%nat, q)
            /\ ARIMA_fit s (p, 0%nat, q) = inr m
            /\ forall j p' q' c,
                 nth_error scan_order j = Some (p', q') ->
                 ARIMA_fit s (p', 0%nat, q') = inr c ->
                 is_nan (aic c) = false ->
                 fle (aic m) (aic c) = true
                 /\ ((j < i)%nat -> flt (aic m) (aic c) = true).
Proof.
  split; [apply scan_order_length|].
  split; [apply scan_order_index|].
  destruct (fit_arima_unfold out) as (st & (Hnan & Hmin & Hbest) & E).
  split.
  - destruct (best_model st); eexists; eexists; (split; [exact E|]);
      intros o; simpl; intuition discriminate.
  - intros m o m' out' Hrun. rewrite E in Hrun. clear E.
    destruct (best_model st) as [m0|] eqn:Hm0; [|discriminate].
    inversion Hrun; subst; clear Hrun.
    destruct Hbest as (i & p & q & Hi & Hfit & Ho & Ha & Hearlier).
    rewrite Ha in *.
    split; [reflexivity|].
    exists i, p, q. repeat split; auto.
    + apply flt_false_fle; auto. eapply Hmin; eassumption.
    + intros Hji. apply fle_false_flt; auto. eapply Hearlier; eassumption.
Qed.

(** C7 (as amended).  Whatever the candidates do, [fit_arima] returns (it
    never propagates an exception and never loops): the fitting oracle is
    called for the 36 pairs of the grid, each exactly once and in scan
    order, and nothing after the scan calls it again.  A candidate whose
    fit raises leaves the best-so-far locals as they were and the scan
    goes on.  A candidate whose fit returns is not skipped, whatever the
    results object says about convergence: it is compared on its AIC and
    replaces the best so far when the AIC is lower. *)
Theorem failed_candidate_is_skipped out :
  (exists r tail,
     fit_arima s out = (Returned r, out ++ map call_of scan_order ++ tail)
     /\ forall o, ~ In (Call_ARIMA_fit o) tail)
  /\ length scan_order = 36%nat
  /\ NoDup scan_order
  /\ (forall p q st out1 e,
        ARIMA_fit s (p, 0%nat, q) = inl e ->
        fit_candidate s p q st out1
        = (Returned st, out1 ++ [call_of (p, q)]))
  /\ forall p q st out1 m,
       ARIMA_fit s (p, 0%nat, q) = inr m ->
       fit_candidate s p q st out1
       = (Returned
            (if flt (aic m) (best_aic st)
             then {| best_aic := aic m;
                     best_order := Some (p, 0%nat, q);
                     best_model := Some m |}
             else st),
          out1 ++ [call_of (p, q)]).
Proof.
  split; [|split; [apply scan_order_length|split; [apply scan_order_NoDup|]]].
  - destruct (fit_arima_unfold out) as (st & _ & E).
    destruct (best_model st); eexists; eexists; (split; [exact E|]);
      intros o; simpl; intuition discriminate.
  - split.
    + intros p q st out1 e Hfit.
      unfold ArimaSelector.fit_candidate, try_except, bind, emit, lift,
        call_of.
      simpl. rewrite Hfit. reflexivity.
    + intros p q st out1 m Hfit.
      unfold ArimaSelector.fit_candidate, try_except, bind, emit, lift,
        call_of.
      simpl. rewrite Hfit. unfold ret.
      destruct (flt (aic m) (best_aic st)); reflexivity.
Qed.

(** C8 (as amended).  When the fit of every candidate of the grid
    raises, [fit_arima] returns the triple (None, None, None), that is
    no fit, after writing that no suitable model was found. *)
Theorem fit_arima_no_candidate out :
  (forall p q, In (p, q) scan_order ->
     exists e, ARIMA_fit s (p, 0%nat, q) = inl e) ->
  fit_arima s out
  = (Returned (None, None, None),
     out ++ map call_of scan_order ++ [Print_could_not_find]).
Proof.
  intros Hfail.
  destruct (fit_arima_unfold out) as (st & (_ & _ & Hbest) & E).
  rewrite E. destruct (best_model st) as [m|]; [|reflexivity].
  destruct Hbest as (i & p & q & Hi & Hfit & _).
  destruct (Hfail p q (nth_error_In _ _ Hi)) as (e & He). congruence.
Qed.

End Search.

(** With the table of [fit_table] the search returns the order (1, 0, 0)
    with AIC 5: the failed candidates (0,0,0) and (3,0,0) are passed
    over, and (2,0,3), which ties at 5 but is visited later, does not
    replace it. *)
Lemma fit_arima_selects_earliest_minimum_aic_witness :
  fit_arima Fin fit_table tt []
  = (Returned (Some 5%Q, Some (1, 0, 0)%nat, Some 5%Q),
     map call_of scan_order
     ++ [Print_best_parameters (Some (1, 0, 0)%nat); Print_aic (Fin 5)])
  /\ exists i,
       nth_error scan_order i = Some (1, 0)%nat
       /\ forall j p q c,
            nth_error scan_order j = Some (p, q) ->
            fit_table tt (p, 0%nat, q) = inr c ->
            fle (Fin 5) (Fin c) = true
            /\ ((j < i)%nat -> flt (Fin 5) (Fin c) = true).
Proof.
  split; [reflexivity|].
  destruct (fit_arima_selects_earliest_minimum_aic unit Q Fin fit_table tt [])
    as (_ & _ & _ & Hsel).
  destruct (Hsel 5%Q (Some (1, 0, 0)%nat) (Some 5%Q) _ eq_refl)
    as (_ & i & p & q & Hi & Ho & _ & Hmin).
  inversion Ho; subst p q.
  exists i. split; [exact Hi|].
  intros j p q c Hj Hc. apply (Hmin j p q c Hj Hc). reflexivity.
Defined.

Lemma failed_candidate_is_skipped_witness :
  fit_table tt (0, 0, 0)%nat = inl LinAlgError
  /\ fit_candidate Fin fit_table tt 0 0 search_init []
     = (Returned search_init, [call_of (0, 0)%nat]).
Proof.
  split; [reflexivity|].
  destruct (failed_candidate_is_skipped unit Q Fin fit_table tt [])
    as (_ & _ & _ & Hskip & _).
  apply (Hskip 0%nat 0%nat search_init [] LinAlgError). reflexivity.
Defined.

Lemma fit_arima_no_candidate_witness :
  fit_arima Fin fit_never tt []
  = (Returned (None, None, None),
     map call_of scan_order ++ [Print_could_not_find]).
Proof.
  apply (fit_arima_no_candidate unit Q Fin fit_never tt []).
  intros p q _. exists LinAlgError. reflexivity.
Defined.

(** Convergence is not tested.  With [fit_unconverged] the fit
    selected is the one of (0,0,0), which did not converge, although
    converged candidates exist, the best of them with AIC 7. *)
Lemma unconverged_fit_is_selected :
  exists m out,
    fit_arima aic_of fit_unconverged tt []
    = (Returned (Some m, Some (0, 0, 0)%nat, Some m), out)
    /\ converged m = false
    /\ exists c,
         fit_unconverged tt (0, 0, 1)%nat = inr c
         /\ converged c = true
         /\ flt (aic_of m) (aic_of c) = true.
Proof.
  do 2 eexists. split; [reflexivity|]. split; [reflexivity|].
  eexists. repeat split.
Qed.

(** The fit of (0,0,0) did not converge and does not raise: the
    candidate is not skipped, it becomes the best so far. *)
Lemma unconverged_candidate_is_not_skipped :
  exists m st,
    fit_unconverged tt (0, 0, 0)%nat = inr m
    /\ converged m = false
    /\ fit_candidate aic_of fit_unconverged tt 0 0 search_init []
       = (Returned st, [call_of (0, 0)%nat])
    /\ best_model st = Some m
    /\ best_order st = Some (0, 0, 0)%nat.
Proof. do 2 eexists. repeat split. Qed.

(** With [fit_none_converged] no candidate converges, and a fit is
    produced all the same: the one of (0,0,0), which has the lowest
    AIC. *)
Lemma no_converged_candidate_yields_fit :
  (forall o m, fit_none_converged tt o = inr m -> converged m = false)
  /\ exists m out,
       fit_arima aic_of fit_none_converged tt []
       = (Returned (Some m, Some (0, 0, 0)%nat, Some m), out)
       /\ converged m = false.
Proof.
  split.
  - intros [[p d] q] m H. cbn in H. injection H as <-. reflexivity.
  - do 2 eexists. split; [vm_compute; reflexivity | reflexivity].
Qed.

End ArimaSelectorFacts.

(** ** Stationarity preparation *)

Module DataPreparationFacts.

Import DataPreparation PyFacts Examples.

Lemma Qltb_lt (x y : Q) : Qltb x y = true <-> (x < y)%Q.
Proof.
  unfold Qltb. rewrite Qlt_alt. destruct (x ?= y)%Q; split; congruence.
Qed.

Lemma Qltb_ge (x y : Q) : Qltb x y = false <-> (y <= x)%Q.
Proof.
  split; intro H.
  - apply Qnot_lt_le. intro Hlt. apply Qltb_lt in Hlt. congruence.
  - destruct (Qltb x y) eqn:E; [|reflexivity].
    apply Qltb_lt in E. exfalso. apply (Qlt_not_le _ _ E H).
Qed.

Section Facts.

Variable adfuller : list Q -> exn + Q.

Local Abbreviation loop_body := (loop_body adfuller).
Local Abbreviation differencing_loop := (differencing_loop adfuller).

(** One iteration when the test reports a p-value that is not below
    0.05: the data are differenced and the order goes up by one. *)
Lemma loop_body_difference st p out :
  adfuller (values (current_data st)) = inr p ->
  (alpha <= p)%Q ->
  loop_body st out
  = (Returned {| current_data := np_diff (current_data st);
                 is_stationary := is_stationary st;
                 diff_order := S (diff_order st) |},
     out ++ [Print_adf_p_value (diff_order st) p;
             Print_applying_difference (S (diff_order st))]).
Proof.
  intros Hadf Hp. apply Qltb_ge in Hp.
  unfold DataPreparation.loop_body, bind, lift, emit, ret. rewrite Hadf. simpl.
  rewrite Hp. simpl. now rewrite <- app_assoc.
Qed.

(** One iteration when the p-value is below 0.05. *)
Lemma loop_body_stationary st p out :
  adfuller (values (current_data st)) = inr p ->
  (p < alpha)%Q ->
  loop_body st out
  = (Returned {| current_data := current_data st;
                 is_stationary := true;
                 diff_order := diff_order st |},
     out ++ [Print_adf_p_value (diff_order st) p;
             Print_stationary_after (diff_order st)]).
Proof.
  intros Hadf Hp. apply Qltb_lt in Hp.
  unfold DataPreparation.loop_body, bind, lift, emit, ret. rewrite Hadf. simpl.
  rewrite Hp. simpl. now rewrite <- app_assoc.
Qed.

(** The loop needs no more than [3 - diff_order] iterations, and leaves
    the order at 3 or below. *)
Lemma while_loop_order fuel : forall st out,
  (diff_order st <= 3)%nat ->
  (3 - diff_order st <= fuel)%nat ->
  match while_loop fuel loop_cond loop_body st out with
  | (Returned st', _) =>
      loop_cond st' = false /\ (diff_order st' <= 3)%nat
      /\ (is_stationary st = false -> is_stationary st' = true ->
          (diff_order st' <= 2)%nat)
  | (Raised _, _) => True
  | (OutOfFuel, _) => False
  end.
Proof.
  induction fuel as [|fuel IH]; intros st out Hle Hfuel; simpl.
  - destruct (loop_cond st) eqn:Hc; simpl.
    + unfold loop_cond in Hc. apply andb_true_iff in Hc as [_ Hc].
      apply Nat.ltb_lt in Hc. lia.
    + repeat split; auto. congruence.
  - destruct (loop_cond st) eqn:Hc; simpl.
    + unfold loop_cond in Hc. apply andb_true_iff in Hc as [Hs Hc].
      apply Nat.ltb_lt in Hc. apply negb_true_iff in Hs.
      unfold bind at 1.
      unfold DataPreparation.loop_body at 1, bind, lift, emit, ret.
      destruct (adfuller (values (current_data st))) as [e|p]; simpl; auto.
      destruct (Qltb p alpha); simpl.
      * rewrite while_loop_done by reflexivity.
        simpl. repeat split; auto; lia.
      * match goal with
        | |- context [while_loop fuel _ _ ?s ?o] =>
            pose proof (IH s o ltac:(cbn [diff_order]; lia)
                         ltac:(cbn [diff_order]; lia)) as IH';
            destruct (while_loop fuel loop_cond loop_body s o) as [[st'| |] out']
        end; auto.
    + repeat split; auto. congruence.
Qed.

(** [differencing_loop] never runs out of its three iterations; when it
    returns, at most 3 differences were applied, and a series reported
    stationary was differenced at most twice. *)
Lemma differencing_loop_order series out :
  match differencing_loop series out with
  | (Returned st, _) =>
      (diff_order st <= 3)%nat
      /\ (is_stationary st = true -> (diff_order st <= 2)%nat)
      /\ (is_stationary st = false -> diff_order st = 3%nat)
  | (Raised _, _) => True
  | (OutOfFuel, _) => False
  end.
Proof.
  unfold DataPreparation.differencing_loop.
  match goal with
  | |- context [while_loop 3 _ _ ?s ?o] =>
      pose proof (while_loop_order 3 s o ltac:(cbn [diff_order]; lia)
                    ltac:(cbn [diff_order]; lia)) as H;
      destruct (while_loop 3 loop_cond loop_body s o) as [[st| |] out']
  end; auto.
  destruct H as (Hc & Hle & Hs). split; [exact Hle|]. split.
  - intros Hst. apply Hs; auto.
  - intros Hst. unfold loop_cond in Hc. rewrite Hst in Hc. simpl in Hc.
    apply Nat.ltb_ge in Hc. lia.
Qed.

(** C5.  The difference order stays between 0 and 3 (lemma
    [differencing_loop_order] above).  But a series whose ADF p-value is
    not below 0.05 before differencing, after one difference and after
    two is differenced a third time, is not tested again, and is then
    handed to [difference_series] as the [np.ndarray] that [np.diff]
    produced: the attribute lookup [.diff] fails, and
    [prepare_stationary_data] raises [AttributeError] where the
    specification has it return the series differenced three times with
    the stationarity flag cleared. *)
Theorem prepare_stationary_data_raises_at_cap
    data ticker series p0 p1 p2 out :
  dict_get data ticker = Some series ->
  adfuller (values series) = inr p0 -> (alpha <= p0)%Q ->
  adfuller (diff (values series)) = inr p1 -> (alpha <= p1)%Q ->
  adfuller (diff (diff (values series))) = inr p2 -> (alpha <= p2)%Q ->
  let printed :=
    [Print_adf_p_value 0 p0; Print_applying_difference 1;
     Print_adf_p_value 1 p1; Print_applying_difference 2;
     Print_adf_p_value 2 p2; Print_applying_difference 3] in
  differencing_loop series out
  = (Returned {| current_data :=
                   Ndarray (diff (diff (diff (values series))));
                 is_stationary := false;
                 diff_order := 3 |},
     out ++ printed)
  /\ prepare_stationary_data adfuller data [ticker] out
     = (Raised (AttributeError "diff"),
        out ++ [Print_preparing ticker] ++ printed
            ++ [Print_warning_not_stationary ticker 3]).
Proof.
  intros Hget H0 Hp0 H1 Hp1 H2 Hp2 printed.
  assert (Hloop : forall o,
    differencing_loop series o
    = (Returned {| current_data :=
                     Ndarray (diff (diff (diff (values series))));
                   is_stationary := false;
                   diff_order := 3 |},
       o ++ printed)).
  { intros o. unfold DataPreparation.differencing_loop. simpl.
    unfold bind at 1.
    rewrite (loop_body_difference _ p0) by (simpl; auto). simpl.
    unfold bind at 1.
    rewrite (loop_body_difference _ p1) by (simpl; auto). simpl.
    unfold bind at 1.
    rewrite (loop_body_difference _ p2) by (simpl; auto). simpl.
    unfold ret, printed. now rewrite <- !app_assoc. }
  split; [apply Hloop|].
  unfold DataPreparation.prepare_stationary_data,
    DataPreparation.prepare_ticker, for_each.
  unfold bind at 1. unfold bind at 1. unfold emit at 1.
  unfold bind at 1. unfold dict_item. rewrite Hget. unfold ret at 1.
  unfold bind at 1. rewrite Hloop. simpl.
  unfold bind, emit, difference_series, raise. simpl.
  now rewrite <- !app_assoc.
Qed.

(** C10.  A series whose ADF p-value equals 0.05: [check_stationarity]
    reports it stationary ([p_value <= 0.05]), whereas the loop of
    [prepare_stationary_data] ([p_value < 0.05]) does not and differences
    it, so that [differencing_loop] goes on with the differenced data at
    the next order. *)
Theorem boundary_p_value_inconsistent series p out :
  adfuller (values series) = inr p ->
  (p == alpha)%Q ->
  check_stationarity adfuller series out = (Returned (true, p), out)
  /\ (forall st,
        current_data st = series ->
        loop_body st out
        = (Returned {| current_data := np_diff series;
                       is_stationary := is_stationary st;
                       diff_order := S (diff_order st) |},
           out ++ [Print_adf_p_value (diff_order st) p;
                   Print_applying_difference (S (diff_order st))]))
  /\ differencing_loop series out
     = while_loop 2 loop_cond loop_body
         {| current_data := np_diff series;
            is_stationary := false;
            diff_order := 1 |}
         (out ++ [Print_adf_p_value 0 p; Print_applying_difference 1]).
Proof.
  intros Hadf Hp.
  assert (Hge : (alpha <= p)%Q) by (rewrite Hp; apply Qle_refl).
  assert (Hle : Qle_bool p alpha = true)
    by (apply Qle_bool_iff; rewrite Hp; apply Qle_refl).
  split; [|split].
  - unfold check_stationarity, bind, lift, ret. rewrite Hadf. simpl.
    now rewrite Hle.
  - intros st Hst. rewrite <- Hst.
    apply loop_body_difference; [now rewrite Hst | exact Hge].
  - unfold DataPreparation.differencing_loop.
    cbn [while_loop loop_cond is_stationary diff_order negb andb Nat.ltb Nat.leb].
    unfold bind at 1.
    rewrite (loop_body_difference _ p) by (simpl; auto). reflexivity.
Qed.

End Facts.

(** A series on which the ADF oracle reports 1 at every order. *)
Lemma prepare_stationary_data_raises_at_cap_witness :
  prepare_stationary_data (adf_constant 1) [("Alphabet"%string, Series prices)]
    ["Alphabet"%string] []
  = (Raised (AttributeError "diff"),
     [Print_preparing "Alphabet";
      Print_adf_p_value 0 1; Print_applying_difference 1;
      Print_adf_p_value 1 1; Print_applying_difference 2;
      Print_adf_p_value 2 1; Print_applying_difference 3;
      Print_warning_not_stationary "Alphabet" 3]).
Proof.
  assert (H : (alpha <= 1)%Q) by (unfold Qle, alpha; simpl; lia).
  apply (proj2 (prepare_stationary_data_raises_at_cap (adf_constant 1)
                  [("Alphabet"%string, Series prices)] "Alphabet"
                  (Series prices) 1 1 1 []
                  eq_refl eq_refl H eq_refl H eq_refl H)).
Defined.

(** A series on which the ADF oracle reports exactly 0.05. *)
Lemma boundary_p_value_inconsistent_witness :
  check_stationarity (adf_constant alpha) (Series prices) []
  = (Returned (true, alpha), [])
  /\ differencing_loop (adf_constant alpha) (Series prices) []
     = while_loop 2 loop_cond (loop_body (adf_constant alpha))
         {| current_data := Ndarray (diff prices);
            is_stationary := false;
            diff_order := 1 |}
         [Print_adf_p_value 0 alpha; Print_applying_difference 1].
Proof.
  destruct (boundary_p_value_inconsistent (adf_constant alpha) (Series prices)
              alpha [] eq_refl (Qeq_refl alpha)) as (Hcheck & _ & Hloop).
  split; [exact Hcheck | exact Hloop].
Defined.

End DataPreparationFacts.

(** ** Threshold weighting *)

Module ThresholdWeightingFacts.

Import ThresholdWeighting Examples.

(** Boolean-mask indexing keeps the rows at the indices where the mask
    holds, in their order. *)
Lemma select_indices (f : Q -> bool) (rs : list (list Q)) :
  forall weights,
    length weights = length rs ->
    select rs (map f weights)
    = map (fun i => nth i rs [])
        (filter (fun i => f (nth i weights 0%Q)) (seq 0 (length rs))).
Proof.
  induction rs as [|r rs IH]; intros [|w ws] Hlen; try discriminate; auto.
  simpl in Hlen. injection Hlen as Hlen.
  cbn [length]. rewrite <- cons_seq, <- seq_shift.
  cbn [map select filter nth].
  rewrite filter_map_swap. cbn [nth].
  destruct (f w); cbn [map nth]; rewrite map_map; cbn [nth];
    now rewrite <- (IH ws Hlen).
Qed.

Lemma select_all (rs : list (list Q)) (weights : list Q) :
  length weights = length rs ->
  select rs (map (fun _ => true) weights)
  = map (fun i => nth i rs []) (seq 0 (length rs)).
Proof.
  intros Hlen. rewrite (select_indices (fun _ => true) rs weights Hlen).
  f_equal. induction (seq 0 (length rs)); simpl; congruence.
Qed.

Lemma existsb_mask (f : Q -> bool) (weights : list Q) :
  existsb (fun b => b) (map f weights) = existsb f weights.
Proof. induction weights; simpl; congruence. Qed.

Lemma column_select (rs : list (list Q)) (idx : list nat) (j : nat) :
  column (map (fun i => nth i rs []) idx) j
  = map (fun i => nth j (nth i rs []) 0%Q) idx.
Proof. unfold column. now rewrite map_map. Qed.

Lemma average_axis0_nth (a : ndarray2) (j : nat) :
  (j < ncols a)%nat ->
  nth j (average_axis0 a) NaN = column_mean (rows a) j.
Proof.
  intros Hj. unfold average_axis0.
  rewrite (nth_indep _ NaN (column_mean (rows a) 0))
    by (now rewrite length_map, length_seq).
  rewrite (map_nth (column_mean (rows a)) (seq 0 (ncols a)) 0%nat j).
  now rewrite seq_nth.
Qed.

Lemma column_mean_nonempty (rs : list (list Q)) (j : nat) :
  (0 < length rs)%nat ->
  column_mean rs j
  = Fin (sum (column rs j) / inject_Z (Z.of_nat (length rs)))%Q.
Proof. destruct rs; simpl; [lia | reflexivity]. Qed.

(** The value the function returns when some score meets the threshold,
    and what it writes. *)
Lemma calculate_some_pass paths weights threshold out :
  length weights = length (rows paths) ->
  existsb (fun w => Qle_bool threshold w) weights = true ->
  calculate_threshold_weighted_forecast paths weights threshold out
  = (Returned
       (average_axis0
          {| rows :=
               map (fun i => nth i (rows paths) [])
                 (filter (fun i => Qle_bool threshold (nth i weights 0%Q))
                    (seq 0 (length (rows paths))));
             ncols := ncols paths |}),
     out).
Proof.
  intros Hlen Hany.
  unfold calculate_threshold_weighted_forecast.
  rewrite existsb_mask, Hany. cbn [negb].
  unfold bind at 1. unfold ret at 1.
  unfold bind at 1. unfold boolean_index.
  rewrite length_map, Hlen, Nat.eqb_refl, orb_true_r. unfold ret.
  now rewrite (select_indices _ _ _ Hlen).
Qed.

(** The value the function returns when no score meets the threshold. *)
Lemma calculate_none_pass paths weights threshold out :
  length weights = length (rows paths) ->
  existsb (fun w => Qle_bool threshold w) weights = false ->
  calculate_threshold_weighted_forecast paths weights threshold out
  = (Returned
       (average_axis0
          {| rows :=
               map (fun i => nth i (rows paths) [])
                 (seq 0 (length (rows paths)));
             ncols := ncols paths |}),
     out ++ [Print_warning_no_paths threshold]).
Proof.
  intros Hlen Hany.
  unfold calculate_threshold_weighted_forecast.
  rewrite existsb_mask, Hany. cbn [negb].
  unfold bind at 1. unfold bind at 1. unfold emit at 1. unfold ret at 1.
  unfold bind at 1. unfold boolean_index.
  rewrite length_map, Hlen, Nat.eqb_refl, orb_true_r. unfold ret.
  now rewrite (select_all _ _ Hlen).
Qed.

(** C3.  When at least one score is greater than or equal to the
    threshold, nothing is written and entry j of the forecast is the sum
    of entry j of the paths whose score is greater than or equal to the
    threshold, divided by the number of these paths. *)
Theorem threshold_forecast_is_mean_of_selected paths weights threshold out :
  well_shaped paths ->
  length weights = length (rows paths) ->
  (exists w, In w weights /\ (threshold <= w)%Q) ->
  let selected :=
    filter (fun i => Qle_bool threshold (nth i weights 0%Q))
      (seq 0 (length (rows paths))) in
  exists forecast,
    calculate_threshold_weighted_forecast paths weights threshold out
    = (Returned forecast, out)
    /\ length forecast = ncols paths
    /\ (0 < length selected)%nat
    /\ forall j, (j < ncols paths)%nat ->
         nth j forecast NaN
         = Fin (sum (map (fun i => nth j (nth i (rows paths) []) 0%Q) selected)
                / inject_Z (Z.of_nat (length selected)))%Q.
Proof.
  intros _ Hlen (w & Hw & Hle) selected.
  assert (Hany : existsb (fun w => Qle_bool threshold w) weights = true).
  { apply existsb_exists. exists w. split; [exact Hw|].
    now apply Qle_bool_iff. }
  assert (Hsel : (0 < length selected)%nat).
  { destruct (In_nth _ _ 0%Q Hw) as (i & Hi & Hnth).
    assert (Hin : In i selected).
    { apply filter_In. split.
      - apply in_seq. lia.
      - rewrite Hnth. now apply Qle_bool_iff. }
    destruct selected; [destruct Hin | simpl; lia]. }
  eexists. split; [apply (calculate_some_pass _ _ _ _ Hlen Hany)|].
  split; [unfold average_axis0; now rewrite length_map, length_seq|].
  split; [exact Hsel|].
  intros j Hj. rewrite average_axis0_nth by exact Hj.
  cbn [rows]. fold selected.
  rewrite column_mean_nonempty by (now rewrite length_map).
  now rewrite column_select, length_map.
Qed.

(** C4.  When no score reaches the threshold the function still
    returns: it writes the warning, and entry j of the forecast is the
    sum of entry j of all N paths divided by N. *)
Theorem threshold_fallback_is_mean_of_all paths weights threshold out :
  well_shaped paths ->
  length weights = length (rows paths) ->
  (forall w, In w weights -> (w < threshold)%Q) ->
  exists forecast,
    calculate_threshold_weighted_forecast paths weights threshold out
    = (Returned forecast, out ++ [Print_warning_no_paths threshold])
    /\ length forecast = ncols paths
    /\ ((0 < length (rows paths))%nat ->
        forall j, (j < ncols paths)%nat ->
          nth j forecast NaN
          = Fin (sum (map (fun i => nth j (nth i (rows paths) []) 0%Q)
                        (seq 0 (length (rows paths))))
                 / inject_Z (Z.of_nat (length (rows paths))))%Q).
Proof.
  intros _ Hlen Hall.
  assert (Hany : existsb (fun w => Qle_bool threshold w) weights = false).
  { destruct (existsb _ weights) eqn:E; [|reflexivity].
    apply existsb_exists in E as (w & Hw & Hle).
    apply Qle_bool_iff in Hle. specialize (Hall w Hw).
    exfalso. apply (Qlt_not_le _ _ Hall Hle). }
  eexists. split; [apply (calculate_none_pass _ _ _ _ Hlen Hany)|].
  split; [unfold average_axis0; now rewrite length_map, length_seq|].
  intros HN j Hj. rewrite average_axis0_nth by exact Hj.
  cbn [rows].
  rewrite column_mean_nonempty by (now rewrite length_map, length_seq).
  now rewrite column_select, length_map, length_seq.
Qed.

(** Paths [[10,10],[20,20],[30,30]], scores [1,5,9], threshold 5: the
    forecast is [25, 25] and nothing is written. *)
Lemma threshold_forecast_is_mean_of_selected_witness :
  exists forecast,
    calculate_threshold_weighted_forecast paths3 [1; 5; 9]%Q 5 []
    = (Returned forecast, [])
    /\ length forecast = 2%nat
    /\ feq (nth 0 forecast NaN) (Fin 25) = true
    /\ feq (nth 1 forecast NaN) (Fin 25) = true.
Proof.
  pose proof (threshold_forecast_is_mean_of_selected paths3 [1; 5; 9]%Q 5 [])
    as H.
  destruct H as (forecast & E & Hlen & _ & Hnth).
  - repeat constructor.
  - reflexivity.
  - exists 5%Q. split; [simpl; auto | unfold Qle; simpl; lia].
  - exists forecast. split; [exact E|]. split; [exact Hlen|].
    rewrite (Hnth 0%nat), (Hnth 1%nat) by (simpl; lia).
    split; reflexivity.
Defined.

(** The same paths with scores [1,1,1] and threshold 4: the warning is
    written and the forecast is the mean of the three paths, [20, 20]. *)
Lemma threshold_fallback_is_mean_of_all_witness :
  exists forecast,
    calculate_threshold_weighted_forecast paths3 [1; 1; 1]%Q 4 []
    = (Returned forecast, [Print_warning_no_paths 4])
    /\ length forecast = 2%nat
    /\ feq (nth 0 forecast NaN) (Fin 20) = true
    /\ feq (nth 1 forecast NaN) (Fin 20) = true.
Proof.
  pose proof (threshold_fallback_is_mean_of_all paths3 [1; 1; 1]%Q 4 []) as H.
  destruct H as (forecast & E & Hlen & Hnth).
  - repeat constructor.
  - reflexivity.
  - intros w Hw. simpl in Hw.
    destruct Hw as [<-|[<-|[<-|[]]]]; unfold Qlt; simpl; lia.
  - exists forecast. split; [exact E|]. split; [exact Hlen|].
    rewrite (Hnth ltac:(simpl; lia) 0%nat), (Hnth ltac:(simpl; lia) 1%nat)
      by (simpl; lia).
    split; reflexivity.
Defined.

End ThresholdWeightingFacts.

(** ** Business days *)

Module CalendarFacts.

Import Calendar.

Lemma weekday_range (d : date) : 0 <= weekday d <= 6.
Proof. unfold weekday. pose proof (Z.mod_pos_bound (d + 6) 7). lia. Qed.

(** The next business day lies strictly later and is never a Saturday or
    a Sunday. *)
Lemma weekday_add (d k : Z) : weekday (d + k) = (weekday d + k) mod 7.
Proof.
  unfold weekday. rewrite Z.add_mod_idemp_l by lia. f_equal. lia.
Qed.

Lemma add_BDay_1 (d : date) :
  d < add_BDay d 1 /\ weekday (add_BDay d 1) <= 4.
Proof.
  unfold add_BDay.
  change (1 / 5) with 0. change (1 <=? 0) with false.
  cbn [andb]. change (1 - 5 * 0) with 1. change (1 =? 0) with false.
  cbn [andb]. change (7 * 0) with 0. change (1 - 1) with 0.
  rewrite weekday_add.
  pose proof (weekday_range d) as Hw.
  generalize dependent (weekday d). intros w Hw.
  destruct (Z.ltb_spec 4 w) as [H4|H4];
    [|destruct (Z.leb_spec (w + 1) 4) as [H3|H3]];
    (split; [lia|]); Z.div_mod_to_equations; lia.
Qed.

Lemma date_range_bounds (start stop d : date) :
  In d (date_range start stop) -> start <= d <= stop.
Proof.
  unfold date_range. intros H. apply in_map_iff in H as (k & <- & Hk).
  apply in_seq in Hk. lia.
Qed.

(** A date found in the holiday index lies in the window it was computed
    for, and is a holiday. *)
Lemma contains_holidays_between (start stop d : date) :
  contains (holidays_between start stop) d = true ->
  start <= d <= stop /\ is_us_federal_holiday d = true.
Proof.
  unfold contains, holidays_between. intros H.
  apply existsb_exists in H as (x & Hx & Heq).
  apply Z.eqb_eq in Heq. subst x.
  apply filter_In in Hx as [Hx Hh]. split; [|exact Hh].
  now apply date_range_bounds.
Qed.

(** The days skipped by [BDay(1)] are Saturdays and Sundays. *)
Lemma add_BDay_1_skips_weekend (d x : date) :
  d < x < add_BDay d 1 -> 5 <= weekday x.
Proof.
  unfold add_BDay.
  change (1 / 5) with 0. change (1 <=? 0) with false.
  cbn [andb]. change (1 - 5 * 0) with 1. change (1 =? 0) with false.
  cbn [andb]. change (7 * 0) with 0. change (1 - 1) with 0.
  intros Hx.
  replace (weekday x) with (weekday (d + (x - d))) by (f_equal; lia).
  rewrite weekday_add. pose proof (weekday_range d) as Hw.
  revert Hx Hw. generalize (weekday d). intros w Hx Hw.
  destruct (Z.ltb_spec 4 w) as [H4|H4];
    [|destruct (Z.leb_spec (w + 1) 4) as [H3|H3]];
    Z.div_mod_to_equations; lia.
Qed.

Lemma date_range_seq (a : date) (m : nat) : forall n,
  map (fun k => a + Z.of_nat k) (seq n m)
  = map (fun k => a + Z.of_nat n + Z.of_nat k) (seq 0 m).
Proof.
  induction m as [|m IH]; intros n; [reflexivity|].
  cbn [seq map]. f_equal; [lia|].
  rewrite IH, <- (seq_shift m 0), map_map.
  apply map_ext. intros k. lia.
Qed.

Lemma date_range_app (a b c : date) :
  a <= b + 1 -> b <= c ->
  date_range a c = date_range a b ++ date_range (b + 1) c.
Proof.
  intros Hab Hbc. unfold date_range.
  replace (Z.to_nat (c - a + 1))
    with (Z.to_nat (b - a + 1) + Z.to_nat (c - (b + 1) + 1))%nat by lia.
  rewrite seq_app, map_app. apply (f_equal (app _)).
  rewrite Nat.add_0_l, date_range_seq.
  apply map_ext. intros k. lia.
Qed.

Lemma date_range_cons (a b : date) :
  a <= b -> date_range a b = a :: date_range (a + 1) b.
Proof.
  intros Hab. rewrite (date_range_app a a b) by lia.
  unfold date_range at 1. replace (a - a + 1) with 1 by lia.
  change (Z.to_nat 1) with 1%nat. cbn [seq map app Z.of_nat].
  now rewrite Z.add_0_r.
Qed.

Lemma contains_holidays_between_iff (start stop d : date) :
  contains (holidays_between start stop) d = true
  <-> start <= d <= stop /\ is_us_federal_holiday d = true.
Proof.
  split; [apply contains_holidays_between|].
  intros [Hd Hh]. unfold contains, holidays_between.
  apply existsb_exists. exists d. split; [|apply Z.eqb_refl].
  apply filter_In. split; [|exact Hh].
  unfold date_range. apply in_map_iff.
  exists (Z.to_nat (d - start)). split; [lia|]. apply in_seq. lia.
Qed.

End CalendarFacts.

(** ** Restoring the original scale *)

Module ScaleRestorerFacts.

Import Calendar CalendarFacts ScaleRestorer PyFacts Examples.

Section DateLoop.

Variable steps : nat.
Variable stop : date.
Variable holidays : list date.
Hypothesis holidays_before_stop :
  forall d, contains holidays d = true -> d <= stop.

(** The date loop returns within the budget: each iteration either
    appends a date or steps over a holiday of the window. *)
Lemma date_loop_returns fuel : forall st out,
  weekday (current_date st) <= 4 ->
  (steps - length (forecast_dates st)
   + Z.to_nat (stop - current_date st + 1) <= fuel)%nat ->
  exists st',
    while_loop fuel (date_cond steps) (date_body holidays) st out
    = (Returned st', out)
    /\ date_cond steps st' = false.
Proof.
  induction fuel as [|fuel IH]; intros st out Hwd Hfuel;
    cbn [while_loop]; destruct (date_cond steps st) eqn:Hc;
    try (exists st; split; [reflexivity | exact Hc]).
  - unfold date_cond in Hc. apply Nat.ltb_lt in Hc. lia.
  - unfold date_cond in Hc. apply Nat.ltb_lt in Hc.
    unfold bind at 1. unfold date_body at 1, ret at 1.
    destruct (add_BDay_1 (current_date st)) as [Hnext Hwd'].
    apply IH; cbn [current_date forecast_dates]; [exact Hwd'|].
    unfold is_trading_day.
    destruct (weekday (current_date st) <? 5) eqn:E5;
      [|apply Z.ltb_ge in E5; lia].
    destruct (contains holidays (current_date st)) eqn:Eh; cbn [andb negb].
    + apply holidays_before_stop in Eh. lia.
    + rewrite length_app. cbn [length]. lia.
Qed.

Variable last_date : date.

Lemma filter_none {A} (f : A -> bool) (l : list A) :
  (forall x, In x l -> f x = false) -> filter f l = [].
Proof.
  induction l as [|x l IH]; intros H; [reflexivity|]. simpl.
  rewrite (H x) by (now left). apply IH. intros y Hy. apply H. now right.
Qed.

(** Between two values of [current_date] there are only weekend days. *)
Lemma no_trading_day_skipped (cur : date) :
  filter (is_trading_day holidays) (date_range (cur + 1) (add_BDay cur 1 - 1))
  = [].
Proof.
  apply filter_none. intros x Hx. apply date_range_bounds in Hx.
  unfold is_trading_day.
  assert (5 <= weekday x) by (apply (add_BDay_1_skips_weekend cur); lia).
  destruct (Z.ltb_spec (weekday x) 5); [lia | reflexivity].
Qed.

(** What the loop maintains: the dates collected so far are the trading
    days after [last_date] and before [current_date], in order. *)
Lemma date_loop_collects fuel : forall st out st' out',
  last_date < current_date st ->
  forecast_dates st
  = filter (is_trading_day holidays)
      (date_range (last_date + 1) (current_date st - 1)) ->
  (length (forecast_dates st) <= steps)%nat ->
  while_loop fuel (date_cond steps) (date_body holidays) st out
  = (Returned st', out') ->
  out' = out
  /\ last_date < current_date st'
  /\ forecast_dates st'
     = filter (is_trading_day holidays)
         (date_range (last_date + 1) (current_date st' - 1))
  /\ length (forecast_dates st') = steps.
Proof.
  induction fuel as [|fuel IH]; intros st out st' out' Hlast Hdates Hlen;
    cbn [while_loop]; destruct (date_cond steps st) eqn:Hc;
    try discriminate;
    try (unfold ret; intros E; inversion E; subst; unfold date_cond in Hc;
         apply Nat.ltb_ge in Hc; repeat split; auto; lia).
  unfold date_cond in Hc. apply Nat.ltb_lt in Hc.
  unfold bind at 1. unfold date_body at 1, ret at 1.
  destruct (add_BDay_1 (current_date st)) as [Hnext _].
  apply IH; cbn [current_date forecast_dates].
  - lia.
  - rewrite (date_range_app (last_date + 1) (current_date st - 1)
               (add_BDay (current_date st) 1 - 1)) by lia.
    replace (current_date st - 1 + 1) with (current_date st) by lia.
    rewrite (date_range_cons (current_date st)) by lia.
    rewrite filter_app. cbn [filter].
    rewrite no_trading_day_skipped, <- Hdates.
    destruct (is_trading_day holidays (current_date st));
      [reflexivity | now rewrite app_nil_r].
  - destruct (is_trading_day holidays (current_date st));
      [rewrite length_app; cbn [length]|]; lia.
Qed.

End DateLoop.

(** [generate_forecast_dates] always returns, and writes nothing. *)
Lemma generate_forecast_dates_returns steps last_date out :
  exists dates,
    generate_forecast_dates steps last_date out = (Returned dates, out)
    /\ (steps <= length dates)%nat.
Proof.
  unfold generate_forecast_dates.
  set (stop := add_BDay last_date (Z.of_nat steps + 10)).
  set (holidays := holidays_between last_date stop).
  destruct (add_BDay_1 last_date) as [Hnext Hwd].
  destruct (date_loop_returns steps stop holidays
              ltac:(intros d Hd; apply contains_holidays_between in Hd; lia)
              (date_budget steps last_date stop)
              {| forecast_dates := []; current_date := add_BDay last_date 1 |}
              out Hwd) as (st & E & Hc).
  { unfold date_budget. cbn [forecast_dates current_date length]. lia. }
  exists (forecast_dates st). unfold bind. rewrite E. split; [reflexivity|].
  unfold date_cond in Hc. now apply Nat.ltb_ge in Hc.
Qed.

(** The forecast dates are the first [steps] trading days after
    [last_date]: the weekdays of a range starting the day after it that
    are not in the holiday index, in increasing order. *)
Lemma generate_forecast_dates_spec steps last_date out :
  let stop := add_BDay last_date (Z.of_nat steps + 10) in
  let holidays := holidays_between last_date stop in
  exists dates final,
    generate_forecast_dates steps last_date out = (Returned dates, out)
    /\ last_date < final
    /\ dates
       = filter (is_trading_day holidays) (date_range (last_date + 1) (final - 1))
    /\ length dates = steps.
Proof.
  intros stop holidays.
  destruct (add_BDay_1 last_date) as [Hnext Hwd].
  destruct (date_loop_returns steps stop holidays
              ltac:(intros d Hd; apply contains_holidays_between in Hd; lia)
              (date_budget steps last_date stop)
              {| forecast_dates := []; current_date := add_BDay last_date 1 |}
              out Hwd) as (st & Eloop & _).
  { unfold date_budget. cbn [forecast_dates current_date length]. lia. }
  pose proof Eloop as Hst.
  apply (date_loop_collects steps holidays last_date) in Hst
    as (_ & Hlast & Hdates & Hlen); cbn [current_date forecast_dates length];
    [| lia | symmetry; apply no_trading_day_skipped | lia].
  exists (forecast_dates st), (current_date st).
  split; [|auto].
  unfold generate_forecast_dates. fold stop. fold holidays.
  unfold bind. now rewrite Eloop.
Qed.

(** Every forecast date is a weekday after the anchor, and a forecast
    date inside the window of the holiday index is not a holiday. *)
Lemma forecast_dates_inside_window steps last_date out dates :
  generate_forecast_dates steps last_date out = (Returned dates, out) ->
  forall d, In d dates ->
    last_date < d
    /\ weekday d <= 4
    /\ (d <= add_BDay last_date (Z.of_nat steps + 10) ->
        is_us_federal_holiday d = false).
Proof.
  intros E d Hd.
  pose proof (generate_forecast_dates_spec steps last_date out) as Hspec.
  cbv zeta in Hspec. destruct Hspec as (dates' & final & E' & _ & Hdates & _).
  rewrite E in E'. injection E' as ->.
  rewrite Hdates in Hd. apply filter_In in Hd as [Hrange Htd].
  apply date_range_bounds in Hrange.
  unfold is_trading_day in Htd. apply andb_true_iff in Htd as [Hwd Hh].
  apply Z.ltb_lt in Hwd. apply negb_true_iff in Hh.
  split; [lia|]. split; [lia|].
  intros Hstop. destruct (is_us_federal_holiday d) eqn:Ehol; [|reflexivity].
  rewrite <- Hh. symmetry. apply contains_holidays_between_iff.
  split; [lia | exact Ehol].
Qed.

Lemma contains_inside_window (start stop d : date) :
  start <= d <= stop ->
  contains (holidays_between start stop) d = is_us_federal_holiday d.
Proof.
  intros Hd. destruct (is_us_federal_holiday d) eqn:Eh.
  - apply contains_holidays_between_iff. auto.
  - destruct (contains _ d) eqn:Ec; [|reflexivity].
    apply contains_holidays_between in Ec as [_ Ec]. congruence.
Qed.

(** A one-step forecast anchored on a Friday is dated the following
    Monday, or the Tuesday when that Monday is a holiday (and the Tuesday
    is not). *)
Lemma friday_anchor_one_step (d : date) out :
  weekday d = 4 ->
  is_us_federal_holiday (d + 3) = false
  \/ is_us_federal_holiday (d + 4) = false ->
  generate_forecast_dates 1 d out
  = (Returned [if is_us_federal_holiday (d + 3) then d + 4 else d + 3], out).
Proof.
  intros Hfri Hhol.
  assert (Hstop : add_BDay d (Z.of_nat 1 + 10) = d + 17).
  { unfold add_BDay. rewrite Hfri. reflexivity. }
  assert (Hmon : add_BDay d 1 = d + 3).
  { unfold add_BDay. rewrite Hfri. reflexivity. }
  assert (Hwmon : weekday (d + 3) = 0) by (now rewrite weekday_add, Hfri).
  assert (Hwtue : weekday (d + 4) = 1) by (now rewrite weekday_add, Hfri).
  assert (Htue : add_BDay (d + 3) 1 = d + 4).
  { unfold add_BDay. rewrite Hwmon. cbn. lia. }
  unfold generate_forecast_dates. rewrite Hstop, Hmon.
  unfold date_budget. replace (d + 17 - d) with 17 by lia.
  change (1 + Z.to_nat 17)%nat with 18%nat.
  unfold bind at 1.
  rewrite while_loop_step by reflexivity.
  unfold bind at 1. unfold date_body at 1, ret at 1.
  cbn [current_date forecast_dates]. rewrite Htue.
  unfold is_trading_day at 1.
  rewrite Hwmon, contains_inside_window by lia.
  change (0 <? 5) with true. cbn [andb].
  destruct (is_us_federal_holiday (d + 3)) eqn:Emon; cbn [negb app].
  - destruct Hhol as [Hhol|Hhol]; [discriminate|].
    rewrite while_loop_step by reflexivity.
    unfold bind at 1. unfold date_body at 1, ret at 1.
    cbn [current_date forecast_dates].
    unfold is_trading_day at 1.
    rewrite Hwtue, contains_inside_window, Hhol by lia.
    change (1 <? 5) with true. cbn [andb negb app].
    now rewrite while_loop_done by reflexivity.
  - now rewrite while_loop_done by reflexivity.
Qed.

Lemma cumsum_from_length l : forall acc, length (cumsum_from acc l) = length l.
Proof. induction l; intros; simpl; congruence. Qed.

(** Entry [k] of a running total is the start plus the first [k + 1]
    summands. *)
Lemma cumsum_from_nth l : forall acc k,
  (k < length l)%nat ->
  (nth k (cumsum_from acc l) 0 == acc + sum (firstn (S k) l))%Q.
Proof.
  induction l as [|x l IH]; intros acc k Hk; simpl in Hk; [lia|].
  destruct k as [|k].
  - cbn [cumsum_from nth firstn sum]. ring.
  - cbn [cumsum_from nth]. rewrite IH by lia.
    change (firstn (S (S k)) (x :: l)) with (x :: firstn (S k) l).
    cbn [sum]. ring.
Qed.

Lemma restored_nth (l : list Q) (anchor : Q) (k : nat) :
  (k < length l)%nat ->
  (nth k (add_scalar (cumsum l) anchor) 0 == anchor + sum (firstn (S k) l))%Q.
Proof.
  intros Hk. unfold add_scalar, cumsum.
  rewrite (nth_indep _ 0%Q (0 + anchor)%Q)
    by (now rewrite length_map, cumsum_from_length).
  rewrite (map_nth (fun x => (x + anchor)%Q)).
  rewrite cumsum_from_nth by exact Hk. ring.
Qed.

Lemma restored_length (l : list Q) (anchor : Q) :
  length (add_scalar (cumsum l) anchor) = length l.
Proof. unfold add_scalar, cumsum. now rewrite length_map, cumsum_from_length. Qed.

(** C2.  [transform_to_original_scale] returns; the restored forecast
    has the length of the differenced forecast and its entry k is the
    anchor plus the sum of the differenced values 0..k; the restored path
    matrix has the shape of the simulated one and each of its rows obeys
    the same rule. *)
Theorem restored_value_is_anchor_plus_running_sum
    forecast paths anchor last_date out :
  exists restored restored_paths dates,
    transform_to_original_scale forecast paths anchor last_date out
    = (Returned (restored, restored_paths, dates), out)
    /\ length restored = length forecast
    /\ (forall k, (k < length forecast)%nat ->
          (nth k restored 0 == anchor + sum (firstn (S k) forecast))%Q)
    /\ length (rows restored_paths) = length (rows paths)
    /\ ncols restored_paths = ncols paths
    /\ forall i, (i < length (rows paths))%nat ->
         let path := nth i (rows paths) [] in
         let restored_path := nth i (rows restored_paths) [] in
         length restored_path = length path
         /\ forall k, (k < length path)%nat ->
              (nth k restored_path 0 == anchor + sum (firstn (S k) path))%Q.
Proof.
  destruct (generate_forecast_dates_returns (length forecast) last_date out)
    as (dates & E & _).
  unfold transform_to_original_scale.
  do 3 eexists. split; [unfold bind; rewrite E; reflexivity|].
  split; [apply restored_length|].
  split; [intros k Hk; now apply restored_nth|].
  cbn [rows ncols add_scalar2 cumsum_axis1].
  split; [now rewrite !length_map|]. split; [reflexivity|].
  intros i Hi. rewrite map_map.
  rewrite (nth_indep _ [] (add_scalar (cumsum []) anchor))
    by (now rewrite length_map).
  rewrite (map_nth (fun r => add_scalar (cumsum r) anchor)).
  split; [apply restored_length|].
  intros k Hk. now apply restored_nth.
Qed.

(** Anchor 100 and differenced forecast [1, -0.5, 2]: the restored
    forecast is [101, 100.5, 102.5]. *)
Lemma restored_value_is_anchor_plus_running_sum_witness :
  exists restored restored_paths dates,
    transform_to_original_scale [1; -(1 # 2); 2]%Q
      {| rows := [[1; -(1 # 2); 2]%Q]; ncols := 3 |} 100 (ymd2ord 2024 8 30) []
    = (Returned (restored, restored_paths, dates), [])
    /\ length restored = 3%nat
    /\ (nth 0 restored 0 == 101)%Q
    /\ (nth 1 restored 0 == 201 # 2)%Q
    /\ (nth 2 restored 0 == 205 # 2)%Q
    /\ (nth 2 (nth 0 (rows restored_paths) []) 0 == 205 # 2)%Q.
Proof.
  destruct (restored_value_is_anchor_plus_running_sum [1; -(1 # 2); 2]%Q
              {| rows := [[1; -(1 # 2); 2]%Q]; ncols := 3 |} 100
              (ymd2ord 2024 8 30) [])
    as (restored & restored_paths & dates & E & Hlen & Hnth & _ & _ & Hrows).
  exists restored, restored_paths, dates.
  split; [exact E|]. split; [exact Hlen|].
  split; [rewrite (Hnth 0%nat) by (simpl; lia); reflexivity|].
  split; [rewrite (Hnth 1%nat) by (simpl; lia); reflexivity|].
  split; [rewrite (Hnth 2%nat) by (simpl; lia); reflexivity|].
  destruct (Hrows 0%nat ltac:(simpl; lia)) as [_ Hrow].
  rewrite (Hrow 2%nat) by (simpl; lia). reflexivity.
Defined.

End ScaleRestorerFacts.

(** ** Forecast dates *)

Module ForecastDatesFacts.

Import Calendar ScaleRestorer Examples.

(** C6.  A forecast of 264 steps anchored on Monday 2018-12-31.  The
    holiday index is computed up to [last_date + BDay(264 + 10)], which
    is Friday 2020-01-17, and holds eleven holidays; the 264th forecast
    date is therefore the business day after the end of the index,
    Monday 2020-01-20, which is the Birthday of Martin Luther King, Jr.:
    a US federal holiday is among the forecast dates. *)
Theorem forecast_date_on_holiday_beyond_buffer :
  add_BDay new_years_eve_2018 (264 + 10) = ymd2ord 2020 1 17
  /\ length (holidays_between new_years_eve_2018 (ymd2ord 2020 1 17)) = 11%nat
  /\ is_us_federal_holiday (ymd2ord 2020 1 20) = true
  /\ match
       transform_to_original_scale long_horizon long_paths 100
         new_years_eve_2018 []
     with
     | (Returned (_, _, dates), _) =>
         length dates = 264%nat
         /\ nth 263 dates 0 = ymd2ord 2020 1 20
     | _ => False
     end.
Proof. vm_compute. repeat split. Qed.

End ForecastDatesFacts.

(** ** The stored weighted-forecast fields *)

Module WeightedFieldsFacts.

Import ThresholdWeighting Examples.


(** The thresholds of the two fields in general.  In main.py the field
    [threshold_weighted_forecast] is the result of the call with the
    fixed threshold 2 and, in the recalculation of fix_forecasts.py, of
    the call with the fixed threshold 4; [chatgpt_weighted_forecast] is
    the result of a second, separate call with the threshold supplied by
    the operator (main.py, which records it as [chatgpt_threshold]) or
    with the stored [chatgpt_threshold], 6 when absent
    (fix_forecasts.py).  Each field holds the result of its own call. *)
Theorem weighted_forecast_fields_thresholds paths probabilities t data out :
  (forall data' out',
     main_weighted_forecasts paths probabilities t data out
     = (Returned data', out') ->
     exists a b out1,
       calculate_threshold_weighted_forecast paths probabilities 2 out
       = (Returned a, out1)
       /\ calculate_threshold_weighted_forecast paths probabilities t out1
          = (Returned b, out')
       /\ threshold_weighted_forecast data' = Some a
       /\ chatgpt_weighted_forecast data' = Some b
       /\ chatgpt_threshold data' = Some t)
  /\ (forall a b out1 out2,
        simulated_paths data = Some paths ->
        rows paths <> [] ->
        let new_threshold :=
          match chatgpt_threshold data with Some x => x | None => 6%Q end in
        calculate_threshold_weighted_forecast paths probabilities 4 out
        = (Returned a, out1) ->
        calculate_threshold_weighted_forecast paths probabilities
          new_threshold out1
        = (Returned b, out2) ->
        exists data',
          recalculate_weighted_forecasts data (Some probabilities) out
          = (Returned data',
             out2 ++ [Print_recalculated (length a) new_threshold (length b)])
          /\ threshold_weighted_forecast data' = Some a
          /\ chatgpt_weighted_forecast data' = Some b
          /\ chatgpt_threshold data' = chatgpt_threshold data).
Proof.
  split.
  - intros data' out' Hrun. unfold main_weighted_forecasts in Hrun.
    unfold bind at 1 in Hrun.
    destruct (calculate_threshold_weighted_forecast paths probabilities 2 out)
      as [[a|e|] out1] eqn:Ea; try discriminate.
    unfold bind at 1 in Hrun.
    destruct (calculate_threshold_weighted_forecast paths probabilities t out1)
      as [[b|e|] out2] eqn:Eb; try discriminate.
    unfold ret in Hrun. inversion Hrun; subst.
    exists a, b, out1. repeat split; auto.
  - intros a b out1 out2 Hpaths Hrows new_threshold Ha Hb.
    unfold recalculate_weighted_forecasts, try_except.
    rewrite Hpaths.
    destruct (rows paths) as [|r rs] eqn:Hr; [congruence|].
    cbn [length Nat.eqb]. fold new_threshold.
    unfold bind at 1. rewrite Ha.
    unfold bind at 1. rewrite Hb.
    unfold bind, emit, ret. eexists. split; [reflexivity|].
    repeat split; reflexivity.
Qed.

(** Paths [10] and [20] with scores 3 and 5 and the operator's
    threshold 5, in main.py and in the recalculation. *)
Lemma weighted_forecast_fields_thresholds_witness :
  (exists data out a out1,
     main_weighted_forecasts paths2 [3; 5]%Q 5 no_forecasts []
     = (Returned data, out)
     /\ calculate_threshold_weighted_forecast paths2 [3; 5]%Q 2 []
        = (Returned a, out1)
     /\ threshold_weighted_forecast data = Some a
     /\ chatgpt_threshold data = Some 5%Q)
  /\ (exists data a,
        recalculate_weighted_forecasts stored_forecasts (Some [3; 5]%Q) []
        = (Returned data, [Print_warning_no_paths 6; Print_recalculated 1 6 1])
        /\ calculate_threshold_weighted_forecast paths2 [3; 5]%Q 4 []
           = (Returned a, [])
        /\ threshold_weighted_forecast data = Some a).
Proof.
  pose proof (weighted_forecast_fields_thresholds paths2 [3; 5]%Q 5
                no_forecasts []) as [Hmain _].
  pose proof (weighted_forecast_fields_thresholds paths2 [3; 5]%Q 5
                stored_forecasts []) as [_ Hfix].
  split.
  - destruct (Hmain _ _ eq_refl) as (a & b & out1 & Ea & Eb & Ha & Hb & Ht).
    eexists. eexists. exists a, out1. split; [reflexivity|].
    split; [exact Ea|]. split; [exact Ha | exact Ht].
  - destruct (Hfix _ _ _ _ eq_refl ltac:(discriminate) eq_refl eq_refl)
      as (data & E & Ha & _).
    exists data. eexists. split; [exact E|]. split; [reflexivity | exact Ha].
Defined.

End WeightedFieldsFacts.

(* ================================================================== *)
(** * Further properties of the modelled code *)

(** ** What [prepare_stationary_data] returns, and when it does not *)

Module PrepareFacts.

Import DataPreparation DataPreparationFacts PyFacts Examples MoreExamples.

Lemma dict_get_set_same {V} (d : dict V) k v :
  dict_get (dict_set d k v) k = Some v.
Proof.
  induction d as [|[k' v'] d IH]; simpl.
  - now rewrite String.eqb_refl.
  - destruct (String.eqb k k') eqn:E; simpl; rewrite E; auto.
Qed.

Lemma dict_get_set_other {V} (d : dict V) k k' v :
  k <> k' -> dict_get (dict_set d k v) k' = dict_get d k'.
Proof.
  intros Hk. induction d as [|[k0 v0] d IH]; simpl.
  - destruct (String.eqb k' k) eqn:E; [|reflexivity].
    apply String.eqb_eq in E. congruence.
  - destruct (String.eqb k k0) eqn:E; simpl.
    + apply String.eqb_eq in E. subst k0.
      destruct (String.eqb k' k) eqn:E'; [|reflexivity].
      apply String.eqb_eq in E'. congruence.
    + destruct (String.eqb k' k0); auto.
Qed.

Lemma for_each_app {X S} (l1 l2 : list X) (body : X -> S -> M S) :
  forall st out,
    for_each (l1 ++ l2) body st out
    = match for_each l1 body st out with
      | (Returned st1, out1) => for_each l2 body st1 out1
      | r => r
      end.
Proof.
  induction l1 as [|x l1 IH]; intros st out; cbn [app for_each].
  - reflexivity.
  - unfold bind. destruct (body x st out) as [[st1|e|] out1]; auto.
Qed.

Section Prepare.

Variable adfuller : list Q -> exn + Q.

Local Abbreviation loop_body := (loop_body adfuller).
Local Abbreviation differencing_loop := (differencing_loop adfuller).
Local Abbreviation prepare_ticker := (prepare_ticker adfuller).
Local Abbreviation prepare_stationary_data := (prepare_stationary_data adfuller).

(** What is stored for a series: the series differenced [k] times, at
    most twice, where [k] is the first order at which the ADF p-value is
    below 0.05. *)
Let accepted (series current : array_like) : Prop :=
  exists k p,
    (k <= 2)%nat
    /\ current = Nat.iter k np_diff series
    /\ adfuller (values current) = inr p
    /\ (p < alpha)%Q
    /\ forall j, (j < k)%nat ->
         exists pj,
           adfuller (values (Nat.iter j np_diff series)) = inr pj
           /\ (alpha <= pj)%Q.

Lemma loop_reaches_stationary fuel : forall st out st' out',
  while_loop fuel loop_cond loop_body st out = (Returned st', out') ->
  is_stationary st = false ->
  is_stationary st' = true ->
  exists j p,
    current_data st' = Nat.iter j np_diff (current_data st)
    /\ diff_order st' = (diff_order st + j)%nat
    /\ adfuller (values (current_data st')) = inr p
    /\ (p < alpha)%Q
    /\ forall i, (i < j)%nat ->
         exists pi,
           adfuller (values (Nat.iter i np_diff (current_data st))) = inr pi
           /\ (alpha <= pi)%Q.
Proof.
  induction fuel as [|fuel IH]; intros st out st' out' Hrun Hst Hst';
    cbn [while_loop] in Hrun; destruct (loop_cond st) eqn:Hc;
    try discriminate;
    try (unfold ret in Hrun; inversion Hrun; subst; congruence).
  unfold bind at 1 in Hrun.
  unfold DataPreparation.loop_body at 1, bind, lift, emit, ret, raise in Hrun.
  destruct (adfuller (values (current_data st))) as [e|p] eqn:Hadf;
    [discriminate|].
  destruct (Qltb p alpha) eqn:Hp.
  - rewrite while_loop_done in Hrun by reflexivity.
    inversion Hrun; subst; clear Hrun. cbn [current_data diff_order].
    exists 0%nat, p. cbn [Nat.iter nat_rect]. repeat split; auto.
    + now apply Qltb_lt.
    + intros i Hi. lia.
  - apply IH in Hrun; [|exact Hst|exact Hst'].
    cbn [current_data diff_order] in Hrun.
    destruct Hrun as (j & p' & Hcur & Hord & Hadf' & Hp' & Hearlier).
    exists (S j), p'. rewrite Nat.iter_succ_r. repeat split; auto; [lia|].
    intros [|i] Hi.
    + exists p. split; [exact Hadf | now apply Qltb_ge].
    + rewrite Nat.iter_succ_r. apply Hearlier. lia.
Qed.

(** Data that leave the loop without the stationarity flag are the
    initial data or an array produced by [np.diff]. *)
Lemma loop_leaves_ndarray fuel : forall st out st' out',
  while_loop fuel loop_cond loop_body st out = (Returned st', out') ->
  is_stationary st' = false ->
  st' = st \/ exists v, current_data st' = Ndarray v.
Proof.
  induction fuel as [|fuel IH]; intros st out st' out' Hrun Hst';
    cbn [while_loop] in Hrun; destruct (loop_cond st) eqn:Hc;
    try discriminate;
    try (unfold ret in Hrun; inversion Hrun; subst; now left).
  unfold bind at 1 in Hrun.
  unfold DataPreparation.loop_body at 1, bind, lift, emit, ret, raise in Hrun.
  destruct (adfuller (values (current_data st))) as [e|p]; [discriminate|].
  destruct (Qltb p alpha).
  - rewrite while_loop_done in Hrun by reflexivity.
    inversion Hrun; subst. discriminate.
  - apply IH in Hrun as [->|Hnd]; auto.
    right. eexists. reflexivity.
Qed.

(** A ticker is prepared only if it is a key of [data] and its series
    passes the test after at most two differences. *)
Lemma prepare_ticker_returns data t sd out sd' out' :
  prepare_ticker data t sd out = (Returned sd', out') ->
  exists series current,
    dict_get data t = Some series
    /\ accepted series current
    /\ sd' = dict_set sd t current.
Proof.
  unfold DataPreparation.prepare_ticker.
  unfold bind at 1. unfold emit at 1.
  unfold bind at 1. unfold dict_item.
  destruct (dict_get data t) as [series|]; [|discriminate].
  unfold ret at 1. unfold bind at 1.
  pose proof (differencing_loop_order adfuller series
                (out ++ [Print_preparing t])) as Hord.
  destruct (differencing_loop series (out ++ [Print_preparing t]))
    as [[st| |] out1] eqn:Hloop; try discriminate.
  destruct Hord as (_ & Hle2 & H3).
  destruct (is_stationary st) eqn:Hst; cbn [negb].
  - unfold bind, ret. intros E. inversion E; subst; clear E.
    apply loop_reaches_stationary in Hloop; auto.
    cbn [current_data diff_order] in Hloop.
    destruct Hloop as (j & p & Hcur & Hj & Hadf & Hp & Hearlier).
    exists series, (current_data st). split; [reflexivity|].
    split; [|reflexivity].
    exists j, p. repeat split; auto. specialize (Hle2 eq_refl). lia.
  - (* three differences: the data are an ndarray and [.diff] fails *)
    assert (Hnd : exists v, current_data st = Ndarray v).
    { apply loop_leaves_ndarray in Hloop as [->|Hnd]; auto.
      specialize (H3 eq_refl). discriminate. }
    destruct Hnd as (v & Hv). rewrite Hv.
    unfold bind, emit, difference_series, raise. discriminate.
Qed.

Lemma prepare_loop_keeps data tickers : forall sd out result out',
  for_each tickers (prepare_ticker data) sd out = (Returned result, out') ->
  (forall t, In t tickers ->
     exists series current,
       dict_get data t = Some series
       /\ dict_get result t = Some current
       /\ accepted series current)
  /\ (forall t series current,
        dict_get data t = Some series ->
        dict_get sd t = Some current ->
        accepted series current ->
        exists current',
          dict_get result t = Some current' /\ accepted series current').
Proof.
  induction tickers as [|t0 tickers IH]; intros sd out result out' Hrun.
  - cbn [for_each] in Hrun. unfold ret in Hrun. inversion Hrun; subst.
    split; [intros t []|]. intros t series current _ Hget Hacc.
    exists current. auto.
  - cbn [for_each] in Hrun. unfold bind in Hrun.
    destruct (prepare_ticker data t0 sd out) as [[sd1| |] out1] eqn:Ht0;
      try discriminate.
    apply prepare_ticker_returns in Ht0
      as (series0 & current0 & Hdata0 & Hacc0 & ->).
    apply IH in Hrun as [Hrest Hkeep].
    assert (Hstep : forall t series current,
      dict_get data t = Some series ->
      dict_get sd t = Some current ->
      accepted series current ->
      exists current',
        dict_get result t = Some current' /\ accepted series current').
    { intros t series current Hdata Hget Hacc.
      destruct (string_dec t0 t) as [<-|Hne].
      - apply (Hkeep t0 series current0); auto.
        + apply dict_get_set_same.
        + congruence.
      - apply (Hkeep t series current); auto.
        now rewrite dict_get_set_other. }
    split; [|exact Hstep].
    intros t [<-|Hin]; [|now apply Hrest].
    destruct (Hkeep t0 series0 current0 Hdata0 (dict_get_set_same _ _ _) Hacc0)
      as (current' & Hget' & Hacc').
    exists series0, current'. auto.
Qed.

(** X2.  When [prepare_stationary_data] returns, every ticker is a key of
    [data] and of the result, and the series stored for it is the input
    series differenced k times by [np.diff], with k at most 2: the ADF
    p-value of the stored series is below 0.05 and the p-values at the
    orders before k were not. *)
Theorem prepare_stationary_data_returns_stationary
    data tickers out result out' :
  prepare_stationary_data data tickers out = (Returned result, out') ->
  forall t, In t tickers ->
    exists series current k p,
      dict_get data t = Some series
      /\ dict_get result t = Some current
      /\ (k <= 2)%nat
      /\ current = Nat.iter k np_diff series
      /\ adfuller (values current) = inr p
      /\ (p < alpha)%Q
      /\ forall j, (j < k)%nat ->
           exists pj,
             adfuller (values (Nat.iter j np_diff series)) = inr pj
             /\ (alpha <= pj)%Q.
Proof.
  intros Hrun t Ht.
  apply prepare_loop_keeps in Hrun as [Hall _].
  destruct (Hall t Ht) as (series & current & Hdata & Hget & k & p & Hacc).
  exists series, current, k, p. tauto.
Qed.

(** X3.  A ticker that is not a key of [data], or whose series makes
    the ADF test raise, aborts the preparation: the exception leaves
    [prepare_stationary_data] right after the line announcing the ticker,
    the tickers after it are not looked at, and what was prepared for the
    tickers before it is lost. *)
Theorem prepare_stationary_data_aborts data pre t post out prepared out1 :
  prepare_stationary_data data pre out = (Returned prepared, out1) ->
  (dict_get data t = None ->
   prepare_stationary_data data (pre ++ t :: post) out
   = (Raised (KeyError t), out1 ++ [Print_preparing t]))
  /\ (forall series e,
        dict_get data t = Some series ->
        adfuller (values series) = inl e ->
        prepare_stationary_data data (pre ++ t :: post) out
        = (Raised e, out1 ++ [Print_preparing t])).
Proof.
  intros Hpre. unfold DataPreparation.prepare_stationary_data in *.
  split.
  - intros Hget. rewrite for_each_app, Hpre. cbn [for_each].
    unfold bind at 1. unfold DataPreparation.prepare_ticker.
    unfold bind at 1. unfold emit at 1.
    unfold bind at 1. unfold dict_item. now rewrite Hget.
  - intros series e Hget Hadf. rewrite for_each_app, Hpre. cbn [for_each].
    unfold bind at 1. unfold DataPreparation.prepare_ticker.
    unfold bind at 1. unfold emit at 1.
    unfold bind at 1. unfold dict_item. rewrite Hget. unfold ret at 1.
    unfold bind at 1. unfold DataPreparation.differencing_loop.
    cbn [while_loop loop_cond is_stationary diff_order negb andb Nat.ltb
         Nat.leb].
    unfold bind at 1. unfold DataPreparation.loop_body at 1.
    unfold bind at 1. unfold lift. cbn [current_data]. now rewrite Hadf.
Qed.

(** The loop accepts data that pass the test after [k] further
    differences, when the cap leaves room for them. *)
Lemma loop_accepts (k : nat) : forall st p out fuel,
  is_stationary st = false ->
  (diff_order st + k < 3)%nat ->
  (k < fuel)%nat ->
  adfuller (values (Nat.iter k np_diff (current_data st))) = inr p ->
  (p < alpha)%Q ->
  (forall j, (j < k)%nat ->
     exists pj,
       adfuller (values (Nat.iter j np_diff (current_data st))) = inr pj
       /\ (alpha <= pj)%Q) ->
  exists st' out',
    while_loop fuel loop_cond loop_body st out = (Returned st', out')
    /\ is_stationary st' = true
    /\ current_data st' = Nat.iter k np_diff (current_data st).
Proof.
  induction k as [|k IH]; intros st p out fuel Hst Hord Hfuel Hadf Hp Hearly;
    (destruct fuel as [|fuel]; [lia|]);
    (rewrite while_loop_step
       by (unfold loop_cond; rewrite Hst; cbn [negb andb];
           apply Nat.ltb_lt; lia));
    unfold bind at 1;
    unfold DataPreparation.loop_body at 1, bind, lift, emit, ret.
  - cbn [Nat.iter nat_rect] in Hadf. rewrite Hadf.
    apply Qltb_lt in Hp. rewrite Hp.
    rewrite while_loop_done by reflexivity.
    do 2 eexists. repeat split.
  - destruct (Hearly 0%nat ltac:(lia)) as (p0 & Hadf0 & Hp0).
    cbn [Nat.iter nat_rect] in Hadf0. rewrite Hadf0.
    apply Qltb_ge in Hp0. rewrite Hp0.
    rewrite Nat.iter_succ_r in Hadf.
    destruct (IH {| current_data := np_diff (current_data st);
                    is_stationary := is_stationary st;
                    diff_order := S (diff_order st) |} p
                (out ++ [Print_adf_p_value (diff_order st) p0]
                     ++ [Print_applying_difference (S (diff_order st))])
                fuel)
      as (st' & out' & E & Hst' & Hcur); cbn [is_stationary diff_order
        current_data]; auto; try lia.
    + intros j Hj. destruct (Hearly (S j) ltac:(lia)) as (pj & Hpj & Hle).
      rewrite Nat.iter_succ_r in Hpj. eauto.
    + rewrite <- app_assoc. exists st', out'.
      rewrite E, Nat.iter_succ_r. auto.
Qed.

Lemma prepare_ticker_accepts data t sd out series current :
  dict_get data t = Some series ->
  accepted series current ->
  exists out',
    prepare_ticker data t sd out = (Returned (dict_set sd t current), out').
Proof.
  intros Hget (k & p & Hk & Hcur & Hadf & Hp & Hearly). subst current.
  destruct (loop_accepts k
              {| current_data := series; is_stationary := false;
                 diff_order := 0 |} p (out ++ [Print_preparing t]) 3)
    as (st' & out' & E & Hst' & Hcur'); cbn [is_stationary diff_order
      current_data]; auto; try lia.
  exists out'.
  unfold DataPreparation.prepare_ticker.
  unfold bind at 1. unfold emit at 1.
  unfold bind at 1. unfold dict_item. rewrite Hget. unfold ret at 1.
  unfold bind at 1. unfold DataPreparation.differencing_loop. rewrite E.
  rewrite Hst'. cbn [negb]. unfold bind, ret.
  cbn [current_data] in Hcur'. now rewrite Hcur'.
Qed.

(** X20.  [prepare_stationary_data] returns whenever every ticker is a
    key of [data] and its series passes the ADF test (p < 0.05) as it
    is or after one or two differences, the test having returned a
    p-value of at least 0.05 at the orders before. *)
Theorem prepare_stationary_data_returns data tickers out :
  (forall t, In t tickers ->
     exists series k p,
       dict_get data t = Some series
       /\ (k <= 2)%nat
       /\ adfuller (values (Nat.iter k np_diff series)) = inr p
       /\ (p < alpha)%Q
       /\ forall j, (j < k)%nat ->
            exists pj,
              adfuller (values (Nat.iter j np_diff series)) = inr pj
              /\ (alpha <= pj)%Q) ->
  exists result out',
    prepare_stationary_data data tickers out = (Returned result, out')
    /\ forall t, In t tickers -> dict_get result t <> None.
Proof.
  intros Hall.
  assert (Hrun : forall sd out0,
            exists result out',
              for_each tickers (prepare_ticker data) sd out0
              = (Returned result, out')).
  { induction tickers as [|t ts IH]; intros sd out0; cbn [for_each].
    - do 2 eexists. reflexivity.
    - destruct (Hall t ltac:(now left))
        as (series & k & p & Hget & Hk & Hadf & Hp & Hearly).
      destruct (prepare_ticker_accepts data t sd out0 series
                  (Nat.iter k np_diff series) Hget) as (out1 & E1).
      { exists k, p. auto. }
      unfold bind at 1. rewrite E1. apply IH.
      intros t' Ht'. apply Hall. now right. }
  destruct (Hrun [] out) as (result & out' & E).
  exists result, out'. split; [exact E|].
  intros t Ht. unfold DataPreparation.prepare_stationary_data in E.
  apply prepare_loop_keeps in E as [Hkeep _].
  destruct (Hkeep t Ht) as (series & current & _ & Hres & _). congruence.
Qed.

End Prepare.

Lemma prepare_stationary_data_returns_witness :
  exists result out',
    prepare_stationary_data adf_by_length closing_prices
      ["Alphabet"%string] []
    = (Returned result, out')
    /\ forall t, In t ["Alphabet"%string] -> dict_get result t <> None.
Proof.
  apply (prepare_stationary_data_returns adf_by_length closing_prices
           ["Alphabet"%string] []).
  intros t [<-|[]].
  exists (Series prices), 1%nat, (1 # 100)%Q.
  split; [reflexivity|]. split; [lia|]. split; [reflexivity|].
  split; [reflexivity|].
  intros [|j] Hj; [|lia]. exists 1%Q. split; [reflexivity | discriminate].
Defined.

(** The closing prices of [closing_prices] are accepted after one
    difference. *)
Lemma prepare_stationary_data_returns_stationary_witness :
  prepare_stationary_data adf_by_length closing_prices ["Alphabet"%string] []
  = (Returned [("Alphabet"%string, Ndarray (diff prices))],
     [Print_preparing "Alphabet";
      Print_adf_p_value 0 1; Print_applying_difference 1;
      Print_adf_p_value 1 (1 # 100); Print_stationary_after 1])
  /\ exists series current k p,
       dict_get closing_prices "Alphabet" = Some series
       /\ dict_get [("Alphabet"%string, Ndarray (diff prices))] "Alphabet"
          = Some current
       /\ (k <= 2)%nat
       /\ current = Nat.iter k np_diff series
       /\ adf_by_length (values current) = inr p
       /\ (p < alpha)%Q.
Proof.
  split; [reflexivity|].
  destruct (prepare_stationary_data_returns_stationary adf_by_length
              closing_prices ["Alphabet"%string] [] _ _ eq_refl
              "Alphabet"%string (or_introl eq_refl))
    as (series & current & k & p & H1 & H2 & H3 & H4 & H5 & H6 & _).
  exists series, current, k, p. repeat split; assumption.
Defined.

(** After "Alphabet", the unknown ticker "Tesla" raises [KeyError]. *)
Lemma prepare_stationary_data_aborts_witness :
  prepare_stationary_data adf_by_length closing_prices
    ["Alphabet"; "Tesla"; "Apple"]%string []
  = (Raised (KeyError "Tesla"),
     [Print_preparing "Alphabet";
      Print_adf_p_value 0 1; Print_applying_difference 1;
      Print_adf_p_value 1 (1 # 100); Print_stationary_after 1;
      Print_preparing "Tesla"]).
Proof.
  apply (proj1 (prepare_stationary_data_aborts adf_by_length closing_prices
                  ["Alphabet"%string] "Tesla" ["Apple"%string] [] _ _
                  eq_refl)).
  reflexivity.
Defined.

End PrepareFacts.

(** ** When the grid search yields a model *)

Module SelectorCoverage.

Import ArimaSelector FloatFacts Examples MoreExamples.

Lemma flt_below_inf (a b : float) : flt a b = true -> flt a PInf = true.
Proof. destruct a, b; simpl; try discriminate; auto. Qed.

Section Coverage.

Variable series : Type.
Variable model_fit : Type.
Variable aic : model_fit -> float.
Variable ARIMA_fit : series -> order -> exn + model_fit.
Variable s : series.

Local Abbreviation fit_candidate := (fit_candidate aic ARIMA_fit).
Local Abbreviation fit_arima := (fit_arima aic ARIMA_fit).

(** A candidate that can be selected: its fit returned and its AIC is
    below the initial [float('inf')]. *)
Let selectable (pq : nat * nat) (m : model_fit) : Prop :=
  ARIMA_fit s (fst pq, 0%nat, snd pq) = inr m /\ flt (aic m) PInf = true.

Let seen (done : list (nat * nat)) (st : search model_fit) : Prop :=
  match best_model st with
  | None =>
      best_aic st = PInf
      /\ forall pq m, In pq done -> ~ selectable pq m
  | Some m =>
      (exists pq, In pq done /\ selectable pq m)
      /\ best_aic st = aic m
      /\ exists pq, best_order st = Some (fst pq, 0%nat, snd pq)
  end.

Lemma fit_candidate_seen done st p q out :
  seen done st ->
  exists st',
    fit_candidate s p q st out = (Returned st', out ++ [call_of (p, q)])
    /\ seen (done ++ [(p, q)]) st'.
Proof.
  intros H.
  unfold ArimaSelector.fit_candidate, try_except, bind, emit, lift, call_of.
  cbn [fst snd].
  destruct (ARIMA_fit s (p, 0%nat, q)) as [e|c] eqn:Hfit;
    cbn [raise ret].
  - exists st. split; [reflexivity|]. unfold seen in *.
    destruct (best_model st) as [m|].
    + destruct H as ((pq & Hin & Hsel) & Ha & Ho).
      split; [|auto]. exists pq. split; [apply in_or_app; now left | exact Hsel].
    + destruct H as (Ha & Hnone). split; [exact Ha|].
      intros pq m Hin Hsel. apply in_app_or in Hin as [Hin|[<-|[]]].
      * exact (Hnone pq m Hin Hsel).
      * destruct Hsel as [Hm _]. cbn [fst snd] in Hm. congruence.
  - destruct (flt (aic c) (best_aic st)) eqn:Hlt.
    + eexists. split; [reflexivity|]. unfold seen. cbn [best_model best_aic best_order].
      split; [|split; [reflexivity | exists (p, q); reflexivity]].
      exists (p, q). split; [apply in_or_app; right; now left|].
      split; [exact Hfit | exact (flt_below_inf _ _ Hlt)].
    + exists st. split; [reflexivity|]. unfold seen in *.
      destruct (best_model st) as [m|].
      * destruct H as ((pq & Hin & Hsel) & Ha & Ho).
        split; [|auto].
        exists pq. split; [apply in_or_app; now left | exact Hsel].
      * destruct H as (Ha & Hnone). split; [exact Ha|].
        intros pq m Hin Hsel. apply in_app_or in Hin as [Hin|[<-|[]]].
        -- exact (Hnone pq m Hin Hsel).
        -- destruct Hsel as [Hm Hinf]. cbn [fst snd] in Hm.
           rewrite Hfit in Hm. inversion Hm; subst m.
           rewrite Ha in Hlt. congruence.
Qed.

Lemma inner_loop_seen p qs : forall done st out,
  seen done st ->
  exists st',
    for_each qs (fun q st => fit_candidate s p q st) st out
    = (Returned st', out ++ map call_of (map (pair p) qs))
    /\ seen (done ++ map (pair p) qs) st'.
Proof.
  induction qs as [|q qs IH]; intros done st out H; cbn [for_each map].
  - exists st. now rewrite !app_nil_r.
  - destruct (fit_candidate_seen done st p q out H) as (st1 & E1 & H1).
    unfold bind at 1. rewrite E1.
    destruct (IH _ st1 (out ++ [call_of (p, q)]) H1) as (st2 & E2 & H2).
    exists st2. rewrite E2. rewrite <- !app_assoc in *. auto.
Qed.

Lemma outer_loop_seen qs ps : forall done st out,
  seen done st ->
  exists st',
    for_each ps
      (fun p st => for_each qs (fun q st => fit_candidate s p q st) st) st out
    = (Returned st', out ++ map call_of (list_prod ps qs))
    /\ seen (done ++ list_prod ps qs) st'.
Proof.
  induction ps as [|p ps IH]; intros done st out H;
    cbn [for_each list_prod].
  - exists st. now rewrite !app_nil_r.
  - destruct (inner_loop_seen p qs done st out H) as (st1 & E1 & H1).
    unfold bind at 1. rewrite E1.
    destruct (IH _ st1 (out ++ map call_of (map (pair p) qs)) H1)
      as (st2 & E2 & H2).
    exists st2. rewrite E2. rewrite map_app, <- !app_assoc in *. auto.
Qed.

(** X4.  [fit_arima] yields a model exactly when the fit of some
    candidate of the grid returned with an AIC below [float('inf')]: the
    model is then one of these candidates.  A candidate whose AIC is
    [+inf] or [nan] is never selected, so that with no other candidate
    the result is (None, None, None) although fits returned. *)
Theorem fit_arima_yields_model_iff out :
  ((exists p q m,
      In (p, q) scan_order
      /\ ARIMA_fit s (p, 0%nat, q) = inr m
      /\ flt (aic m) PInf = true) ->
   exists p q m,
     In (p, q) scan_order
     /\ ARIMA_fit s (p, 0%nat, q) = inr m
     /\ flt (aic m) PInf = true
     /\ exists o,
          fit_arima s out
          = (Returned (Some m, Some o, Some m),
             out ++ map call_of scan_order
                 ++ [Print_best_parameters (Some o); Print_aic (aic m)]))
  /\ ((forall p q m,
         In (p, q) scan_order ->
         ARIMA_fit s (p, 0%nat, q) = inr m ->
         flt (aic m) PInf = false) ->
      fit_arima s out
      = (Returned (None, None, None),
         out ++ map call_of scan_order ++ [Print_could_not_find])).
Proof.
  destruct (outer_loop_seen q_range p_range [] search_init out) as (st & E & H).
  { unfold seen. cbn [best_model best_aic search_init]. split; [reflexivity|].
    intros pq m []. }
  cbn [app] in H. fold scan_order in E, H.
  assert (Hrun : fit_arima s out
    = match best_model st with
      | None =>
          (Returned (None, None, None),
           out ++ map call_of scan_order ++ [Print_could_not_find])
      | Some _ =>
          (Returned (best_model st, best_order st, best_model st),
           out ++ map call_of scan_order
               ++ [Print_best_parameters (best_order st);
                   Print_aic (best_aic st)])
      end).
  { unfold ArimaSelector.fit_arima, try_except. unfold bind at 1.
    unfold p_range, q_range in *. rewrite E.
    destruct (best_model st); unfold bind, emit, ret; cbn;
      rewrite <- !app_assoc; reflexivity. }
  unfold seen in H. split.
  - intros (p & q & m & Hin & Hfit & Hinf).
    destruct (best_model st) as [m0|] eqn:Hm0.
    + destruct H as (((p0, q0) & Hin0 & Hfit0 & Hinf0) & Ha & (pq & Ho)).
      cbn [fst snd] in Hfit0.
      exists p0, q0, m0. repeat split; auto.
      eexists. rewrite Hrun, Ho, Ha. reflexivity.
    + destruct H as (_ & Hnone). exfalso.
      apply (Hnone (p, q) m Hin). split; assumption.
  - intros Hnone. rewrite Hrun.
    destruct (best_model st) as [m0|]; [|reflexivity].
    destruct H as (((p0, q0) & Hin0 & Hfit0 & Hinf0) & _).
    cbn [fst snd] in Hfit0.
    rewrite (Hnone p0 q0 m0 Hin0 Hfit0) in Hinf0. discriminate.
Qed.

End Coverage.

(** Every candidate of [fit_degenerate] returns, with an AIC of [+inf]
    or [nan]: no model is found. *)
Lemma fit_arima_yields_model_iff_witness :
  fit_degenerate tt (0, 0, 0)%nat = inr PInf
  /\ fit_degenerate tt (1, 0, 0)%nat = inr NaN
  /\ fit_arima (fun a : float => a) fit_degenerate tt []
     = (Returned (None, None, None),
        map call_of scan_order ++ [Print_could_not_find]).
Proof.
  split; [reflexivity|]. split; [reflexivity|].
  apply (proj2 (fit_arima_yields_model_iff unit float (fun a => a)
                  fit_degenerate tt [])).
  intros [|p] q m _ Hfit; cbn in Hfit; inversion Hfit; reflexivity.
Defined.

End SelectorCoverage.

(** ** Threshold weighting: mismatched scores, extreme thresholds, range *)

Module ThresholdCoverage.

Import ThresholdWeighting ThresholdWeightingFacts Examples.

Local Open Scope Q_scope.

Lemma select_every_row (rs : list (list Q)) :
  map (fun i => nth i rs []) (seq 0 (length rs)) = rs.
Proof.
  induction rs as [|r rs IH]; [reflexivity|].
  cbn [length seq map nth]. f_equal.
  rewrite <- seq_shift, map_map. exact IH.
Qed.

Lemma existsb_all_pass (threshold : Q) (weights : list Q) :
  weights <> [] ->
  (forall w, In w weights -> threshold <= w) ->
  existsb (fun w => Qle_bool threshold w) weights = true.
Proof.
  intros Hne Hall. destruct weights as [|w ws]; [congruence|].
  cbn [existsb]. apply orb_true_iff. left.
  apply Qle_bool_iff, Hall. now left.
Qed.

Lemma existsb_none_pass (threshold : Q) (weights : list Q) :
  (forall w, In w weights -> w < threshold) ->
  existsb (fun w => Qle_bool threshold w) weights = false.
Proof.
  intros Hnone. destruct (existsb _ weights) eqn:E; [|reflexivity].
  apply existsb_exists in E as (w & Hw & Hle).
  apply Qle_bool_iff in Hle. specialize (Hnone w Hw).
  exfalso. apply (Qlt_not_le _ _ Hnone Hle).
Qed.

Lemma filter_every_index (threshold : Q) (weights : list Q) (n : nat) :
  length weights = n ->
  (forall w, In w weights -> threshold <= w) ->
  filter (fun i => Qle_bool threshold (nth i weights 0)) (seq 0 n) = seq 0 n.
Proof.
  intros Hlen Hall. apply forallb_filter_id. apply forallb_forall.
  intros i Hi. apply in_seq in Hi. apply Qle_bool_iff, Hall, nth_In. lia.
Qed.

(** What the function returns, whatever the scores: the column means of
    the rows at a non-empty list of valid indices (when there is a row
    at all). *)
Lemma calculate_returns paths weights threshold out :
  length weights = length (rows paths) ->
  exists idx out',
    calculate_threshold_weighted_forecast paths weights threshold out
    = (Returned
         (average_axis0
            {| rows := map (fun i => nth i (rows paths) []) idx;
               ncols := ncols paths |}),
       out')
    /\ (forall i, In i idx -> (i < length (rows paths))%nat)
    /\ ((0 < length (rows paths))%nat -> idx <> []).
Proof.
  intros Hlen.
  destruct (existsb (fun w => Qle_bool threshold w) weights) eqn:Hany.
  - eexists. eexists. split; [apply (calculate_some_pass _ _ _ _ Hlen Hany)|].
    split.
    + intros i Hi. apply filter_In in Hi as [Hi _]. apply in_seq in Hi. lia.
    + intros _ Hnil. apply existsb_exists in Hany as (w & Hw & Hle).
      destruct (In_nth _ _ 0 Hw) as (i & Hi & Hnth).
      assert (Hin : In i (filter
                 (fun i => Qle_bool threshold (nth i weights 0))
                 (seq 0 (length (rows paths))))).
      { apply filter_In. split; [apply in_seq; lia | now rewrite Hnth]. }
      rewrite Hnil in Hin. destruct Hin.
  - eexists. eexists. split; [apply (calculate_none_pass _ _ _ _ Hlen Hany)|].
    split.
    + intros i Hi. apply in_seq in Hi. lia.
    + intros Hpos Hnil. apply (f_equal (@length nat)) in Hnil.
      rewrite length_seq in Hnil. cbn in Hnil. lia.
Qed.

(** A non-empty mask whose length is not the number of rows is refused
    by the indexing, in either branch of the function. *)
Lemma calculate_mismatch paths weights threshold out :
  weights <> [] ->
  length weights <> length (rows paths) ->
  calculate_threshold_weighted_forecast paths weights threshold out
  = (Raised IndexError,
     if existsb (fun w => Qle_bool threshold w) weights then out
     else out ++ [Print_warning_no_paths threshold]).
Proof.
  intros Hne Hlen. apply Nat.eqb_neq in Hlen.
  assert (Hz : Nat.eqb (length weights) 0 = false)
    by (destruct weights; [congruence | reflexivity]).
  unfold calculate_threshold_weighted_forecast.
  rewrite existsb_mask.
  destruct (existsb _ weights); cbn [negb].
  - unfold bind at 1. unfold ret at 1. unfold bind at 1.
    unfold boolean_index. now rewrite length_map, Hz, Hlen.
  - unfold bind at 1. unfold bind at 1. unfold emit at 1. unfold ret at 1.
    unfold bind at 1. unfold boolean_index. now rewrite length_map, Hz, Hlen.
Qed.

(** Without any score the mask is empty: it is accepted, no path is
    selected and every entry of the forecast is [nan]. *)
Lemma calculate_no_scores paths threshold out :
  calculate_threshold_weighted_forecast paths [] threshold out
  = (Returned (map (fun _ => NaN) (seq 0 (ncols paths))),
     out ++ [Print_warning_no_paths threshold]).
Proof.
  unfold calculate_threshold_weighted_forecast, bind, emit, ret.
  cbn [map existsb negb]. unfold boolean_index. cbn [length Nat.eqb orb].
  replace (select (rows paths) []) with (@nil (list Q))
    by (destruct (rows paths); reflexivity).
  reflexivity.
Qed.

(** X5.  When the number of scores differs from the number of paths and
    there is at least one score, the boolean-mask indexing raises
    IndexError: nothing is returned, whatever the threshold, and the
    fallback warning has been printed before when no score meets the
    threshold.  Without any score nothing is raised, whatever the number
    of paths: the warning is printed and the forecast returned has one
    [nan] per step. *)
Theorem mismatched_scores_raise_IndexError paths weights threshold out :
  length weights <> length (rows paths) ->
  (weights <> [] ->
   exists out',
     calculate_threshold_weighted_forecast paths weights threshold out
     = (Raised IndexError, out')
     /\ ((exists w, In w weights /\ threshold <= w) -> out' = out)
     /\ ((forall w, In w weights -> w < threshold) ->
         out' = out ++ [Print_warning_no_paths threshold]))
  /\ (weights = [] ->
      exists forecast,
        calculate_threshold_weighted_forecast paths weights threshold out
        = (Returned forecast, out ++ [Print_warning_no_paths threshold])
        /\ length forecast = ncols paths
        /\ forall x, In x forecast -> x = NaN).
Proof.
  intros Hlen. split.
  - intros Hne. eexists.
    split; [apply (calculate_mismatch _ _ _ _ Hne Hlen)|].
    split.
    + intros (w & Hw & Hle).
      replace (existsb (fun w => Qle_bool threshold w) weights) with true;
        [reflexivity|].
      symmetry. apply existsb_exists. exists w. split; [exact Hw|].
      now apply Qle_bool_iff.
    + intros Hnone. now rewrite (existsb_none_pass _ _ Hnone).
  - intros ->. eexists. split; [apply calculate_no_scores|].
    split; [now rewrite length_map, length_seq|].
    intros x Hx. apply in_map_iff in Hx as (j & <- & _). reflexivity.
Qed.

Lemma mismatched_scores_raise_IndexError_witness :
  length [3; 5; 7] <> length (rows paths2)
  /\ calculate_threshold_weighted_forecast paths2 [3; 5; 7] 4 []
     = (Raised IndexError, [])
  /\ calculate_threshold_weighted_forecast paths2 [3; 5; 7] 8 []
     = (Raised IndexError, [Print_warning_no_paths 8])
  /\ calculate_threshold_weighted_forecast paths2 [] 4 []
     = (Returned [NaN], [Print_warning_no_paths 4]).
Proof.
  assert (H : length [3; 5; 7] <> length (rows paths2)) by (cbn; lia).
  split; [exact H|]. split; [|split].
  - destruct (mismatched_scores_raise_IndexError paths2 [3; 5; 7] 4 [] H)
      as [Hraise _].
    destruct (Hraise ltac:(discriminate)) as (out' & E & Hsome & _).
    rewrite E. f_equal. apply Hsome. exists 5. split; [cbn; auto|].
    discriminate.
  - destruct (mismatched_scores_raise_IndexError paths2 [3; 5; 7] 8 [] H)
      as [Hraise _].
    destruct (Hraise ltac:(discriminate)) as (out' & E & _ & Hnone).
    rewrite E. f_equal. apply Hnone.
    intros w [<-|[<-|[<-|[]]]]; reflexivity.
  - reflexivity.
Defined.

(** X6.  At both extremes the threshold plays no part: when every score
    meets it, and when none does, the forecast is the plain mean of all
    paths, [np.average(simulated_paths, axis=0)]; the two cases differ
    by the printed warning only.  The array has at least one path and
    one step. *)
Theorem extreme_threshold_gives_plain_mean paths weights threshold out :
  length weights = length (rows paths) ->
  (0 < length (rows paths))%nat ->
  (0 < ncols paths)%nat ->
  ((forall w, In w weights -> threshold <= w) ->
   calculate_threshold_weighted_forecast paths weights threshold out
   = (Returned (average_axis0 paths), out))
  /\ ((forall w, In w weights -> w < threshold) ->
      calculate_threshold_weighted_forecast paths weights threshold out
      = (Returned (average_axis0 paths),
         out ++ [Print_warning_no_paths threshold])).
Proof.
  intros Hlen Hpos _.
  assert (Hfull : average_axis0
            {| rows := map (fun i => nth i (rows paths) [])
                         (seq 0 (length (rows paths)));
               ncols := ncols paths |}
          = average_axis0 paths).
  { rewrite select_every_row. now destruct paths. }
  split; intros H.
  - rewrite (calculate_some_pass _ _ _ _ Hlen).
    + now rewrite (filter_every_index _ _ _ Hlen H), Hfull.
    + apply existsb_all_pass; [|exact H].
      intros ->. cbn in Hlen. lia.
  - rewrite (calculate_none_pass _ _ _ _ Hlen (existsb_none_pass _ _ H)).
    now rewrite Hfull.
Qed.

Lemma extreme_threshold_gives_plain_mean_witness :
  calculate_threshold_weighted_forecast paths3 [3; 5; 7] 2 []
  = (Returned (average_axis0 paths3), [])
  /\ calculate_threshold_weighted_forecast paths3 [3; 5; 7] 8 []
     = (Returned (average_axis0 paths3), [Print_warning_no_paths 8]).
Proof.
  split.
  - apply (proj1 (extreme_threshold_gives_plain_mean paths3 [3; 5; 7] 2 []
                    eq_refl ltac:(cbn; lia) ltac:(cbn; lia))).
    intros w [<-|[<-|[<-|[]]]]; discriminate.
  - apply (proj2 (extreme_threshold_gives_plain_mean paths3 [3; 5; 7] 8 []
                    eq_refl ltac:(cbn; lia) ltac:(cbn; lia))).
    intros w [<-|[<-|[<-|[]]]]; reflexivity.
Defined.

End ThresholdCoverage.

(** ** fix_forecasts.py: what the recalculation changes, and when it
    changes nothing *)

Module RecalculateCoverage.

Import ThresholdWeighting ThresholdWeightingFacts ThresholdCoverage Examples.
Import Parts.

Local Open Scope Q_scope.

Lemma update_entries_nth_error tw cw es : forall k i,
  nth_error (update_entries k es tw cw) i
  = option_map
      (fun e =>
         {| entry_date := entry_date e;
            entry_arima_forecast := entry_arima_forecast e;
            entry_threshold_weighted_forecast :=
              match nth_error tw (k + i) with
              | Some x => Some x
              | None => entry_threshold_weighted_forecast e
              end;
            entry_chatgpt_weighted_forecast :=
              match nth_error cw (k + i) with
              | Some x => Some x
              | None => entry_chatgpt_weighted_forecast e
              end |})
      (nth_error es i).
Proof.
  induction es as [|e es IH]; intros k [|i]; cbn [update_entries nth_error
    option_map]; try reflexivity.
  - now rewrite Nat.add_0_r.
  - rewrite IH. now rewrite Nat.add_succ_r.
Qed.

Lemma update_entries_length tw cw es : forall k,
  length (update_entries k es tw cw) = length es.
Proof. induction es; intros k; cbn; [reflexivity | now rewrite IHes]. Qed.

Lemma calculate_returns_steps paths weights threshold out :
  length weights = length (rows paths) ->
  exists forecast out',
    calculate_threshold_weighted_forecast paths weights threshold out
    = (Returned forecast, out')
    /\ length forecast = ncols paths.
Proof.
  intros Hlen.
  destruct (calculate_returns paths weights threshold out Hlen)
    as (idx & out' & E & _).
  eexists. exists out'. split; [exact E|].
  unfold average_axis0. now rewrite length_map, length_seq.
Qed.

Lemma rows_nonempty (a : ndarray2) :
  rows a <> [] -> Nat.eqb (length (rows a)) 0 = false.
Proof. destruct (rows a); [congruence | reflexivity]. Qed.

(** X8.  [recalculate_weighted_forecasts] hands the data back unchanged,
    after one message, in three cases: no simulated path is stored; no
    analysis is available; there are probabilities, but not as many as
    paths, where the IndexError of the first computation is caught and
    reported.  (An empty list of probabilities is not such a case: the
    empty mask is accepted and the recalculation goes through.) *)
Theorem recalculation_leaves_data_unchanged data analyses out :
  (rows (stored_paths data) = [] ->
   recalculate_weighted_forecasts data analyses out
   = (Returned data, out ++ [Print_no_simulated_paths]))
  /\ (rows (stored_paths data) <> [] ->
      analyses = None ->
      recalculate_weighted_forecasts data analyses out
      = (Returned data, out ++ [Print_no_analysis_data]))
  /\ (forall probabilities,
        rows (stored_paths data) <> [] ->
        analyses = Some probabilities ->
        probabilities <> [] ->
        length probabilities <> length (rows (stored_paths data)) ->
        recalculate_weighted_forecasts data analyses out
        = (Returned data,
           (if existsb (fun w => Qle_bool 4 w) probabilities then out
            else out ++ [Print_warning_no_paths 4])
           ++ [Print_error_recalculating IndexError])).
Proof.
  unfold recalculate_weighted_forecasts, try_except.
  fold (stored_paths data). repeat split.
  - intros ->. reflexivity.
  - intros Hne ->. now rewrite (rows_nonempty _ Hne).
  - intros probabilities Hne -> Hsome Hlen. rewrite (rows_nonempty _ Hne).
    unfold bind at 1.
    now rewrite (calculate_mismatch _ _ _ _ Hsome Hlen).
Qed.

Lemma recalculation_leaves_data_unchanged_witness :
  recalculate_weighted_forecasts no_forecasts (Some [3; 5]) []
  = (Returned no_forecasts, [Print_no_simulated_paths])
  /\ recalculate_weighted_forecasts stored_forecasts None []
     = (Returned stored_forecasts, [Print_no_analysis_data])
  /\ recalculate_weighted_forecasts stored_forecasts (Some [3; 5; 7]) []
     = (Returned stored_forecasts, [Print_error_recalculating IndexError]).
Proof.
  destruct (recalculation_leaves_data_unchanged no_forecasts (Some [3; 5]) [])
    as (H1 & _).
  destruct (recalculation_leaves_data_unchanged stored_forecasts None [])
    as (_ & H2 & _).
  destruct (recalculation_leaves_data_unchanged stored_forecasts
              (Some [3; 5; 7]) []) as (_ & _ & H3).
  split; [apply H1; reflexivity|].
  split; [apply H2; [discriminate | reflexivity]|].
  apply (H3 [3; 5; 7]); [discriminate | reflexivity | discriminate | cbn; lia].
Defined.

(** X9.  With at least one stored path (of at least one step) and one
    probability per path, the recalculation returns, keeps the number
    of entries, their dates and their ARIMA values, the stored paths and
    the stored threshold, and leaves the entries in step with the two
    top-level arrays it stores: entry [i] carries element [i] of each
    array, and an entry beyond the forecast horizon keeps its old
    fields. *)
Theorem recalculation_keeps_entries_in_step data probabilities out :
  rows (stored_paths data) <> [] ->
  (0 < ncols (stored_paths data))%nat ->
  length probabilities = length (rows (stored_paths data)) ->
  exists result out' tw cw,
    recalculate_weighted_forecasts data (Some probabilities) out
    = (Returned result, out')
    /\ threshold_weighted_forecast result = Some tw
    /\ chatgpt_weighted_forecast result = Some cw
    /\ length tw = ncols (stored_paths data)
    /\ length cw = ncols (stored_paths data)
    /\ simulated_paths result = simulated_paths data
    /\ chatgpt_threshold result = chatgpt_threshold data
    /\ length (arima_forecast result) = length (arima_forecast data)
    /\ forall i e,
         nth_error (arima_forecast data) i = Some e ->
         exists e',
           nth_error (arima_forecast result) i = Some e'
           /\ entry_date e' = entry_date e
           /\ entry_arima_forecast e' = entry_arima_forecast e
           /\ ((i < ncols (stored_paths data))%nat ->
               entry_threshold_weighted_forecast e' = nth_error tw i
               /\ entry_chatgpt_weighted_forecast e' = nth_error cw i)
           /\ ((ncols (stored_paths data) <= i)%nat ->
               entry_threshold_weighted_forecast e'
               = entry_threshold_weighted_forecast e
               /\ entry_chatgpt_weighted_forecast e'
                  = entry_chatgpt_weighted_forecast e).
Proof.
  intros Hne _ Hlen.
  destruct (calculate_returns_steps (stored_paths data) probabilities 4 out
              Hlen) as (tw & out1 & E1 & Htw).
  destruct (calculate_returns_steps (stored_paths data) probabilities
              (stored_threshold data) out1 Hlen) as (cw & out2 & E2 & Hcw).
  eexists. eexists. exists tw, cw. split.
  { unfold recalculate_weighted_forecasts, try_except.
    fold (stored_paths data). fold (stored_threshold data).
    rewrite (rows_nonempty _ Hne).
    unfold bind at 1. rewrite E1.
    unfold bind at 1. rewrite E2.
    unfold bind, emit, ret. reflexivity. }
  cbn [threshold_weighted_forecast chatgpt_weighted_forecast simulated_paths
       chatgpt_threshold arima_forecast].
  repeat (split; [reflexivity || assumption|]).
  split; [apply update_entries_length|].
  intros i e He. rewrite update_entries_nth_error, He. cbn [option_map].
  eexists. split; [reflexivity|]. cbn [entry_date entry_arima_forecast
    entry_threshold_weighted_forecast entry_chatgpt_weighted_forecast
    Nat.add].
  split; [reflexivity|]. split; [reflexivity|]. split.
  - intros Hi.
    destruct (nth_error tw i) eqn:Et;
      [|apply nth_error_None in Et; lia].
    destruct (nth_error cw i) eqn:Ec;
      [|apply nth_error_None in Ec; lia].
    split; reflexivity.
  - intros Hi.
    destruct (nth_error tw i) eqn:Et;
      [assert (nth_error tw i <> None) as Hn by congruence;
       apply nth_error_Some in Hn; lia|].
    destruct (nth_error cw i) eqn:Ec;
      [assert (nth_error cw i <> None) as Hn by congruence;
       apply nth_error_Some in Hn; lia|].
    split; reflexivity.
Qed.

Lemma recalculation_keeps_entries_in_step_witness :
  exists result out',
    recalculate_weighted_forecasts stored_forecasts (Some [3; 5]) []
    = (Returned result, out')
    /\ threshold_weighted_forecast result = Some [Fin 20]
    /\ length (arima_forecast result) = 1%nat.
Proof.
  destruct (recalculation_keeps_entries_in_step stored_forecasts [3; 5] [])
    as (result & out' & tw & cw & E & Htw & _ & _ & _ & _ & _ & Hn & _).
  - discriminate.
  - cbn. lia.
  - reflexivity.
  - exists result, out'. split; [exact E|]. split; [|exact Hn].
    vm_compute in E. injection E as <- _. reflexivity.
Defined.

End RecalculateCoverage.

(** ** Business days, the holiday window and the forecast dates *)

Module BusinessDayFacts.

Import Calendar CalendarFacts ScaleRestorer ScaleRestorerFacts Parts.

Local Open Scope Z_scope.

Lemma add_BDay_weeks (d q r : Z) :
  0 <= q -> 0 <= r < 5 -> 1 <= 5 * q + r ->
  add_BDay d (5 * q + r) = d + (7 * q + adjust_ndays (weekday d) r).
Proof.
  intros Hq Hr Hn. unfold add_BDay, adjust_ndays.
  assert (Hdiv : (5 * q + r) / 5 = q)
    by (symmetry; apply (Z.div_unique _ 5 q r); lia).
  rewrite Hdiv.
  replace (5 * q + r <=? 0) with false by (symmetry; apply Z.leb_gt; lia).
  cbn [andb]. replace (5 * q + r - 5 * q) with r by lia. reflexivity.
Qed.

Lemma add_BDay_one (c : date) :
  add_BDay c 1 = c + adjust_ndays (weekday c) 1.
Proof.
  change 1 with (5 * 0 + 1) at 1.
  rewrite add_BDay_weeks by lia. lia.
Qed.

Lemma weekday_add_weeks (d q k : Z) :
  weekday (d + (7 * q + k)) = (weekday d + k) mod 7.
Proof.
  rewrite weekday_add.
  replace (weekday d + (7 * q + k)) with (weekday d + k + q * 7) by lia.
  apply Z.mod_add. lia.
Qed.

Ltac eval_adjust :=
  repeat match goal with
  | |- context [adjust_ndays ?w ?r] =>
      let v := eval vm_compute in (adjust_ndays w r) in
      change (adjust_ndays w r) with v
  | |- context [?a mod 7] =>
      let v := eval vm_compute in (a mod 7) in
      change (a mod 7) with v
  end.

(** [BDay(n + 1)] is [BDay(1)] after [BDay(n)]. *)
Lemma add_BDay_succ (d : date) (n : Z) :
  1 <= n -> add_BDay d (n + 1) = add_BDay (add_BDay d n) 1.
Proof.
  intros Hn.
  pose proof (Z.div_mod n 5 ltac:(lia)) as Hqr.
  pose proof (Z.mod_pos_bound n 5 ltac:(lia)) as Hr.
  assert (Hq : 0 <= n / 5) by (apply Z.div_pos; lia).
  set (q := n / 5) in *. set (r := n mod 5) in *.
  pose proof (weekday_range d) as Hw.
  rewrite Hqr at 2. rewrite (add_BDay_weeks d q r) by lia.
  rewrite add_BDay_one, weekday_add_weeks.
  assert (Hcases : r = 0 \/ r = 1 \/ r = 2 \/ r = 3 \/ r = 4) by lia.
  assert (Hwd : weekday d = 0 \/ weekday d = 1 \/ weekday d = 2
                \/ weekday d = 3 \/ weekday d = 4 \/ weekday d = 5
                \/ weekday d = 6) by lia.
  clearbody q r.
  destruct Hcases as [->|[->|[->|[->| ->]]]].
  1-4: match type of Hqr with
       | _ = 5 * _ + ?r0 =>
           replace (n + 1) with (5 * q + (r0 + 1)) by lia;
           rewrite (add_BDay_weeks d q (r0 + 1)) by lia
       end;
       destruct Hwd as [Hd|[Hd|[Hd|[Hd|[Hd|[Hd|Hd]]]]]]; rewrite Hd;
       eval_adjust; lia.
  replace (n + 1) with (5 * (q + 1) + 0) by lia.
  rewrite (add_BDay_weeks d (q + 1) 0) by lia.
  destruct Hwd as [Hd|[Hd|[Hd|[Hd|[Hd|[Hd|Hd]]]]]]; rewrite Hd;
    eval_adjust; lia.
Qed.

(** [BDay(n)] for [n >= 1] moves forward, and the weekdays after [d] up
    to [d + BDay(n)] are [n]. *)
Lemma filter_range_last (f : date -> bool) (a b : date) :
  a <= b ->
  (forall x, a <= x < b -> f x = false) ->
  f b = true ->
  filter f (date_range a b) = [b].
Proof.
  intros Hab Hbefore Hb.
  rewrite (date_range_app a (b - 1) b) by lia.
  rewrite filter_app, (filter_none f (date_range a (b - 1))).
  - replace (b - 1 + 1) with b by lia.
    unfold date_range. replace (b - b + 1) with 1 by lia.
    change (Z.to_nat 1) with 1%nat. cbn [seq map filter Z.of_nat].
    rewrite Z.add_0_r, Hb. reflexivity.
  - intros x Hx. apply date_range_bounds in Hx. apply Hbefore. lia.
Qed.

Lemma weekdays_up_to_BDay (d : date) (n : nat) :
  d < add_BDay d (Z.of_nat (S n))
  /\ length (filter (fun x => weekday x <? 5)
               (date_range (d + 1) (add_BDay d (Z.of_nat (S n)))))
     = S n.
Proof.
  induction n as [|n [IHlt IHlen]].
  - change (Z.of_nat 1) with 1. destruct (add_BDay_1 d) as [Hlt Hwd].
    split; [exact Hlt|].
    rewrite filter_range_last; [reflexivity | lia | |].
    + intros x Hx. apply Z.ltb_ge.
      apply (add_BDay_1_skips_weekend d x). lia.
    + apply Z.ltb_lt. lia.
  - replace (Z.of_nat (S (S n))) with (Z.of_nat (S n) + 1) by lia.
    rewrite add_BDay_succ by lia.
    set (c := add_BDay d (Z.of_nat (S n))) in *.
    destruct (add_BDay_1 c) as [Hlt Hwd].
    split; [lia|].
    rewrite (date_range_app (d + 1) c (add_BDay c 1)) by lia.
    rewrite filter_app, length_app, IHlen.
    rewrite filter_range_last; [cbn [length]; lia | lia | |].
    + intros x Hx. apply Z.ltb_ge.
      apply (add_BDay_1_skips_weekend c x). lia.
    + apply Z.ltb_lt. lia.
Qed.

Lemma filter_filter_length {A} (f g : A -> bool) (l : list A) :
  (length (filter f (filter g l)) <= length (filter f l))%nat.
Proof.
  induction l as [|x l IH]; [reflexivity|].
  cbn [filter]. destruct (g x), (f x) eqn:Ef; cbn [filter length];
    rewrite ?Ef; cbn [length]; lia.
Qed.

Lemma filter_andb {A} (f g : A -> bool) (l : list A) :
  filter (fun x => f x && g x) l = filter g (filter f l).
Proof.
  induction l as [|x l IH]; [reflexivity|].
  cbn [filter]. destruct (f x); cbn [andb filter]; [|exact IH].
  destruct (g x); now rewrite IH.
Qed.

(** Inside the window of the holiday index the loop's test is the test
    for a business day. *)
Lemma is_trading_day_inside_window (start stop d : date) :
  start <= d <= stop ->
  is_trading_day (holidays_between start stop) d = is_business_day d.
Proof.
  intros Hd. unfold is_trading_day, is_business_day.
  now rewrite contains_inside_window.
Qed.

(** When the window holds at most ten holidays, it holds at least
    [steps] business days. *)
Lemma business_days_in_window (steps : nat) (last_date : date) :
  let stop := add_BDay last_date (Z.of_nat steps + 10) in
  (length (holidays_between last_date stop) <= 10)%nat ->
  last_date < stop
  /\ (steps <= length (filter is_business_day
                         (date_range (last_date + 1)%Z stop)))%nat.
Proof.
  intros stop Hhol.
  assert (Hstop : add_BDay last_date (Z.of_nat (S (steps + 9))) = stop)
    by (unfold stop; f_equal; lia).
  destruct (weekdays_up_to_BDay last_date (steps + 9)) as [Hlt Hlen].
  rewrite Hstop in Hlt, Hlen. split; [exact Hlt|].
  unfold holidays_between in Hhol.
  rewrite (date_range_cons last_date stop) in Hhol by lia.
  set (R := date_range (last_date + 1) stop) in *.
  assert (Hh : (length (filter is_us_federal_holiday R) <= 10)%nat).
  { cbn [filter] in Hhol.
    destruct (is_us_federal_holiday last_date); cbn [length] in Hhol; lia. }
  unfold is_business_day. rewrite filter_andb.
  pose proof (filter_length is_us_federal_holiday
                (filter (fun x => weekday x <? 5) R)) as Hsplit.
  pose proof (filter_filter_length is_us_federal_holiday
                (fun x => weekday x <? 5) R) as Hle.
  lia.
Qed.

(** With at most ten holidays in the window, the forecast dates are the
    business days of a range that starts the day after [last_date] and
    ends inside the window. *)
Lemma forecast_dates_with_buffer steps last_date out :
  let stop := add_BDay last_date (Z.of_nat steps + 10) in
  (length (holidays_between last_date stop) <= 10)%nat ->
  exists dates final,
    generate_forecast_dates steps last_date out = (Returned dates, out)
    /\ length dates = steps
    /\ final <= stop
    /\ dates = filter is_business_day (date_range (last_date + 1) final).
Proof.
  intros stop Hhol.
  destruct (business_days_in_window steps last_date Hhol) as [Hlt Hcount].
  fold stop in Hlt, Hcount.
  pose proof (generate_forecast_dates_spec steps last_date out) as Hspec.
  cbv zeta in Hspec. fold stop in Hspec.
  destruct Hspec as (dates & final & E & Hfinal & Hdates & Hlen).
  set (holidays := holidays_between last_date stop) in *.
  assert (Hinside : forall b, b <= stop ->
            filter (is_trading_day holidays) (date_range (last_date + 1) b)
            = filter is_business_day (date_range (last_date + 1) b)).
  { intros b Hb. apply filter_ext_in. intros x Hx.
    apply date_range_bounds in Hx.
    apply is_trading_day_inside_window. lia. }
  exists dates.
  destruct (Z_le_gt_dec (final - 1) stop) as [Hin|Hout].
  - exists (final - 1). repeat split; auto.
    now rewrite <- Hinside.
  - exists stop. repeat split; auto; [lia|].
    rewrite (date_range_app (last_date + 1) stop (final - 1)) in Hdates
      by lia.
    rewrite filter_app, Hinside in Hdates by lia.
    assert (Hrest : filter (is_trading_day holidays)
                      (date_range (stop + 1) (final - 1)) = []).
    { apply (f_equal (@length date)) in Hdates.
      rewrite length_app, Hlen in Hdates.
      destruct (filter _ (date_range (stop + 1) (final - 1)));
        [reflexivity | cbn [length] in Hdates; lia]. }
    now rewrite Hrest, app_nil_r in Hdates.
Qed.

End BusinessDayFacts.

(** ** [transform_to_original_scale]: its dates *)

Module RestoreCoverage.

Import Calendar CalendarFacts ScaleRestorer ScaleRestorerFacts Parts.
Import BusinessDayFacts Examples.

Local Open Scope Z_scope.

(** X10.  When the window of the holiday index (from [last_date] to
    [last_date + BDay(steps + 10)]) holds at most ten holidays, the
    dates returned by [transform_to_original_scale] are exactly the
    first [steps] business days after [last_date]: all the weekdays that
    are not US federal holidays of a range starting the day after
    [last_date], in increasing order, one per forecast value. *)
Theorem forecast_dates_are_business_days forecast paths anchor last_date out :
  (length (holidays_between last_date
             (add_BDay last_date (Z.of_nat (length forecast) + 10)))
   <= 10)%nat ->
  exists restored restored_paths dates final,
    transform_to_original_scale forecast paths anchor last_date out
    = (Returned (restored, restored_paths, dates), out)
    /\ length dates = length forecast
    /\ dates = filter is_business_day (date_range (last_date + 1) final)
    /\ forall d, In d dates ->
         last_date < d /\ weekday d <= 4 /\ is_us_federal_holiday d = false.
Proof.
  intros Hhol.
  destruct (forecast_dates_with_buffer (length forecast) last_date out Hhol)
    as (dates & final & E & Hlen & _ & Hdates).
  do 2 eexists. exists dates, final. split.
  { unfold transform_to_original_scale, bind. rewrite E. reflexivity. }
  split; [exact Hlen|]. split; [exact Hdates|].
  intros d Hd. rewrite Hdates in Hd. apply filter_In in Hd as [Hrange Hb].
  apply date_range_bounds in Hrange.
  unfold is_business_day in Hb. apply andb_true_iff in Hb as [Hwd Hh].
  apply Z.ltb_lt in Hwd. apply negb_true_iff in Hh.
  repeat split; [lia | lia | exact Hh].
Qed.

(** Three steps after Friday 2024-08-30: Monday 2024-09-02 is Labor
    Day. *)
Lemma forecast_dates_are_business_days_witness :
  (length (holidays_between (ymd2ord 2024 8 30)
             (add_BDay (ymd2ord 2024 8 30) (Z.of_nat 3 + 10))) <= 10)%nat
  /\ exists restored restored_paths final,
       transform_to_original_scale [1; 2; 3]%Q
         {| rows := []; ncols := 3 |} 100%Q (ymd2ord 2024 8 30) []
       = (Returned
            (restored, restored_paths,
             [ymd2ord 2024 9 3; ymd2ord 2024 9 4; ymd2ord 2024 9 5]), [])
       /\ [ymd2ord 2024 9 3; ymd2ord 2024 9 4; ymd2ord 2024 9 5]
          = filter is_business_day
              (date_range (ymd2ord 2024 8 30 + 1) final).
Proof.
  assert (H : (length (holidays_between (ymd2ord 2024 8 30)
                 (add_BDay (ymd2ord 2024 8 30) (Z.of_nat 3 + 10)))
               <= 10)%nat) by (vm_compute; lia).
  split; [exact H|].
  destruct (forecast_dates_are_business_days [1; 2; 3]%Q
              {| rows := []; ncols := 3 |} 100%Q (ymd2ord 2024 8 30) [] H)
    as (restored & restored_paths & dates & final & E & _ & Hdates & _).
  exists restored, restored_paths, final.
  assert (Hd : dates
               = [ymd2ord 2024 9 3; ymd2ord 2024 9 4; ymd2ord 2024 9 5]).
  { vm_compute in E. injection E as _ _ <-. reflexivity. }
  rewrite <- Hd. split; [exact E | exact Hdates].
Defined.

(** X11.  The default one-step forecast anchored on a Friday is dated
    the following Monday, or the Tuesday when that Monday is a federal
    holiday; its value is the anchor plus the forecast difference. *)
Theorem one_step_forecast_after_friday f paths anchor last_date out :
  weekday last_date = 4 ->
  is_us_federal_holiday (last_date + 3) = false
  \/ is_us_federal_holiday (last_date + 4) = false ->
  exists restored_paths,
    transform_to_original_scale [f] paths anchor last_date out
    = (Returned
         ([(0 + f + anchor)%Q], restored_paths,
          [if is_us_federal_holiday (last_date + 3)
           then last_date + 4 else last_date + 3]),
       out)
    /\ rows restored_paths
       = map (fun r => add_scalar (cumsum r) anchor) (rows paths).
Proof.
  intros Hfri Hhol.
  exists (add_scalar2 (cumsum_axis1 paths) anchor). split.
  - unfold transform_to_original_scale, bind. cbn [length].
    rewrite (friday_anchor_one_step last_date out Hfri Hhol). reflexivity.
  - unfold add_scalar2, cumsum_axis1. cbn [rows]. now rewrite map_map.
Qed.

Lemma one_step_forecast_after_friday_witness :
  weekday (ymd2ord 2024 8 30) = 4
  /\ is_us_federal_holiday (ymd2ord 2024 8 30 + 3) = true
  /\ exists restored_paths,
       transform_to_original_scale [5 # 2]%Q paths2 100%Q
         (ymd2ord 2024 8 30) []
       = (Returned
            ([(0 + (5 # 2) + 100)%Q], restored_paths, [ymd2ord 2024 9 3]),
          []).
Proof.
  split; [reflexivity|]. split; [reflexivity|].
  destruct (one_step_forecast_after_friday (5 # 2)%Q paths2 100%Q
              (ymd2ord 2024 8 30) [] eq_refl (or_intror eq_refl))
    as (restored_paths & E & _).
  exists restored_paths. exact E.
Defined.

End RestoreCoverage.

(** ** fix_forecasts.py: the corrections and their composition *)

Module FixForecastsFacts.

Import ThresholdWeighting ThresholdWeightingFacts ThresholdCoverage.
Import RecalculateCoverage FixForecasts Parts Examples MoreExamples.

Local Open Scope Q_scope.

(** The mean of step [i] over all paths. *)
Local Abbreviation mean_of_step a i :=
  (sum (column (rows a) i) / inject_Z (Z.of_nat (length (rows a)))).

Lemma average_of_paths_length a : length (average_of_paths a) = ncols a.
Proof. unfold average_of_paths. now rewrite length_map, length_seq. Qed.

Lemma average_of_paths_nth_error a i :
  (i < ncols a)%nat ->
  nth_error (average_of_paths a) i = Some (mean_of_step a i).
Proof.
  intros Hi. unfold average_of_paths.
  rewrite nth_error_map, nth_error_nth' with (d := 0%nat)
    by (now rewrite length_seq).
  now rewrite seq_nth.
Qed.

Lemma average_axis0_nth_error a i :
  rows a <> [] ->
  (i < ncols a)%nat ->
  nth_error (average_axis0 a) i = Some (Fin (mean_of_step a i)).
Proof.
  intros Hne Hi. unfold average_axis0.
  rewrite nth_error_map, nth_error_nth' with (d := 0%nat)
    by (now rewrite length_seq).
  rewrite seq_nth by exact Hi. cbn [option_map Nat.add].
  destruct (rows a) eqn:E; [congruence | reflexivity].
Qed.

(** The loop of lines 105-106 when the average has a value for every
    entry. *)
Lemma replace_arima_forecast_returns average entries : forall i out,
  (i + length entries <= length average)%nat ->
  exists entries',
    replace_arima_forecast i entries average out = (Returned entries', out)
    /\ length entries' = length entries
    /\ forall k e,
         nth_error entries k = Some e ->
         exists x,
           nth_error average (i + k) = Some x
           /\ nth_error entries' k
              = Some {| entry_date := entry_date e;
                        entry_arima_forecast := x;
                        entry_threshold_weighted_forecast :=
                          entry_threshold_weighted_forecast e;
                        entry_chatgpt_weighted_forecast :=
                          entry_chatgpt_weighted_forecast e |}.
Proof.
  induction entries as [|e entries IH]; intros i out Hlen.
  - exists []. repeat split. intros [|k] e H; discriminate.
  - cbn [length] in Hlen. cbn [replace_arima_forecast].
    destruct (nth_error average i) as [x|] eqn:Ex;
      [|apply nth_error_None in Ex; lia].
    destruct (IH (S i) out ltac:(lia)) as (rest & E & Hl & Hrest).
    eexists. unfold bindF. rewrite E. split; [reflexivity|].
    split; [cbn [length]; now rewrite Hl|].
    intros [|k] e0 He0; cbn [nth_error] in *.
    + injection He0 as <-. exists x. now rewrite Nat.add_0_r.
    + destruct (Hrest k e0 He0) as (y & Hy & Hk).
      exists y. now rewrite Nat.add_succ_r.
Qed.

(** The loop of lines 105-106 when there are more entries than values. *)
Lemma replace_arima_forecast_raises average entries : forall i out,
  (i <= length average)%nat ->
  (length average < i + length entries)%nat ->
  replace_arima_forecast i entries average out = (Raised IndexError, out).
Proof.
  induction entries as [|e entries IH]; intros i out Hi Hlen.
  - cbn [length] in Hlen. lia.
  - cbn [length] in Hlen. cbn [replace_arima_forecast].
    destruct (nth_error average i) as [x|] eqn:Ex; [|reflexivity].
    assert (i < length average)%nat
      by (apply nth_error_Some; congruence).
    unfold bindF. now rewrite IH by lia.
Qed.

(** What the recalculation returns when it goes through. *)
Lemma recalculate_returns data a probabilities out :
  simulated_paths data = Some a ->
  rows a <> [] ->
  length probabilities = length (rows a) ->
  exists tw cw out1 out2,
    calculate_threshold_weighted_forecast a probabilities 4 out
    = (Returned tw, out1)
    /\ calculate_threshold_weighted_forecast a probabilities
         (stored_threshold data) out1
       = (Returned cw, out2)
    /\ length tw = ncols a
    /\ length cw = ncols a
    /\ recalculate_weighted_forecasts data (Some probabilities) out
       = (Returned
            {| arima_forecast :=
                 update_entries 0 (arima_forecast data) tw cw;
               simulated_paths := simulated_paths data;
               weighted_forecast := weighted_forecast data;
               threshold_weighted_forecast := Some tw;
               chatgpt_weighted_forecast := Some cw;
               chatgpt_threshold := chatgpt_threshold data |},
          out2 ++ [Print_recalculated (length tw) (stored_threshold data)
                     (length cw)]).
Proof.
  intros Ha Hne Hlen.
  destruct (calculate_returns_steps a probabilities 4 out Hlen)
    as (tw & out1 & E1 & Htw).
  destruct (calculate_returns_steps a probabilities (stored_threshold data)
              out1 Hlen) as (cw & out2 & E2 & Hcw).
  exists tw, cw, out1, out2. repeat (split; [assumption|]).
  unfold recalculate_weighted_forecasts, try_except.
  fold (stored_paths data). fold (stored_threshold data).
  unfold stored_paths at 1 2 3. rewrite Ha.
  rewrite (rows_nonempty _ Hne).
  unfold bind at 1. rewrite E1.
  unfold bind at 1. rewrite E2.
  unfold bind, emit, ret. reflexivity.
Qed.

(** At either extreme of the threshold the function returns the plain
    mean of all paths. *)
Lemma calculate_extreme a probabilities threshold out :
  length probabilities = length (rows a) ->
  rows a <> [] ->
  (forall w, In w probabilities -> threshold <= w)
  \/ (forall w, In w probabilities -> w < threshold) ->
  exists out',
    calculate_threshold_weighted_forecast a probabilities threshold out
    = (Returned (average_axis0 a), out').
Proof.
  intros Hlen Hne Hex.
  assert (Hfull : average_axis0
            {| rows := map (fun i => nth i (rows a) [])
                         (seq 0 (length (rows a)));
               ncols := ncols a |}
          = average_axis0 a).
  { rewrite select_every_row. now destruct a. }
  destruct Hex as [Hall|Hnone].
  - exists out. rewrite (calculate_some_pass _ _ _ _ Hlen).
    + now rewrite (filter_every_index _ _ _ Hlen Hall), Hfull.
    + apply existsb_all_pass; [|exact Hall].
      intros ->. destruct (rows a); [congruence | discriminate].
  - eexists.
    rewrite (calculate_none_pass _ _ _ _ Hlen (existsb_none_pass _ _ Hnone)).
    now rewrite Hfull.
Qed.

(** The three corrections in a row, when each goes through. *)
Lemma apply_corrections_returns data a probabilities out :
  simulated_paths data = Some a ->
  rows a <> [] ->
  (length (arima_forecast data) <= ncols a)%nat ->
  length probabilities = length (rows a) ->
  let new_threshold :=
    match chatgpt_threshold data with
    | Some t => t + 1
    | None => 6
    end in
  exists entries tw cw out1 out2 out',
    replace_arima_forecast 0 (arima_forecast data) (average_of_paths a) out
    = (Returned entries, out)
    /\ calculate_threshold_weighted_forecast a probabilities 4 []
       = (Returned tw, out1)
    /\ calculate_threshold_weighted_forecast a probabilities new_threshold
         out1
       = (Returned cw, out2)
    /\ length tw = ncols a
    /\ length cw = ncols a
    /\ apply_corrections data (Some probabilities) out
       = (Returned
            {| arima_forecast := update_entries 0 entries tw cw;
               simulated_paths := Some a;
               weighted_forecast := weighted_forecast data;
               threshold_weighted_forecast := Some tw;
               chatgpt_weighted_forecast := Some cw;
               chatgpt_threshold :=
                 match chatgpt_threshold data with
                 | Some t => Some (t + 1)
                 | None => None
                 end |},
          out').
Proof.
  intros Ha Hne Hentries Hlen new_threshold.
  destruct (replace_arima_forecast_returns (average_of_paths a)
              (arima_forecast data) 0 out) as (entries & E & _).
  { rewrite average_of_paths_length. cbn [Nat.add]. exact Hentries. }
  set (data0 :=
         {| arima_forecast := entries;
            simulated_paths := Some a;
            weighted_forecast := weighted_forecast data;
            threshold_weighted_forecast := threshold_weighted_forecast data;
            chatgpt_weighted_forecast := chatgpt_weighted_forecast data;
            chatgpt_threshold := chatgpt_threshold data |}).
  set (data1 :=
         {| arima_forecast := entries;
            simulated_paths := Some a;
            weighted_forecast := weighted_forecast data;
            threshold_weighted_forecast := threshold_weighted_forecast data;
            chatgpt_weighted_forecast := chatgpt_weighted_forecast data;
            chatgpt_threshold :=
              match chatgpt_threshold data with
              | Some t => Some (t + 1)
              | None => None
              end |}).
  assert (E0 : fix_arima_forecast_with_simulated_average data out
               = (Returned data0, out ++ [Print_updated_arima_forecast])).
  { unfold fix_arima_forecast_with_simulated_average. rewrite Ha.
    destruct (rows a) as [|r rs] eqn:Hrows; [congruence|].
    unfold bindF at 1. rewrite E. reflexivity. }
  assert (Eadj : exists out0,
            adjust_thresholds data0 (out ++ [Print_updated_arima_forecast])
            = (Returned data1, out0)).
  { unfold adjust_thresholds, data0, data1. cbn [chatgpt_threshold].
    destruct (chatgpt_threshold data); eexists; reflexivity. }
  destruct Eadj as (out0 & Eadj).
  destruct (recalculate_returns data1 a probabilities [] eq_refl Hne Hlen)
    as (tw & cw & out1 & out2 & E1 & E2 & Htw & Hcw & Er).
  assert (Hthr : stored_threshold data1 = new_threshold).
  { unfold stored_threshold, data1, new_threshold.
    cbn [chatgpt_threshold]. now destruct (chatgpt_threshold data). }
  rewrite Hthr in E2.
  exists entries, tw, cw, out1, out2. eexists.
  repeat (split; [assumption|]).
  unfold apply_corrections.
  unfold bindF at 1. rewrite E0.
  unfold bindF at 1. rewrite Eadj.
  unfold call. rewrite Er. reflexivity.
Qed.

(** X13.  With stored paths of at least one step and no more entries
    than steps, [fix_arima_forecast_with_simulated_average] replaces the
    ARIMA value of entry [i] by the mean of step [i] over all simulated
    paths - the value the threshold weighting falls back to - and keeps
    the dates, the weighted values, the paths and the threshold. *)
Theorem simulated_average_replaces_arima_forecast data a out :
  simulated_paths data = Some a ->
  rows a <> [] ->
  (0 < ncols a)%nat ->
  (length (arima_forecast data) <= ncols a)%nat ->
  exists result,
    fix_arima_forecast_with_simulated_average data out
    = (Returned result, out ++ [Print_updated_arima_forecast])
    /\ simulated_paths result = simulated_paths data
    /\ chatgpt_threshold result = chatgpt_threshold data
    /\ threshold_weighted_forecast result = threshold_weighted_forecast data
    /\ chatgpt_weighted_forecast result = chatgpt_weighted_forecast data
    /\ length (arima_forecast result) = length (arima_forecast data)
    /\ forall i e,
         nth_error (arima_forecast data) i = Some e ->
         exists e',
           nth_error (arima_forecast result) i = Some e'
           /\ entry_date e' = entry_date e
           /\ entry_arima_forecast e' = mean_of_step a i
           /\ nth_error (average_axis0 a) i
              = Some (Fin (entry_arima_forecast e'))
           /\ entry_threshold_weighted_forecast e'
              = entry_threshold_weighted_forecast e
           /\ entry_chatgpt_weighted_forecast e'
              = entry_chatgpt_weighted_forecast e.
Proof.
  intros Ha Hne _ Hentries.
  destruct (replace_arima_forecast_returns (average_of_paths a)
              (arima_forecast data) 0 out)
    as (entries & E & Hl & Hnth).
  { rewrite average_of_paths_length. cbn [Nat.add]. exact Hentries. }
  eexists. split.
  { unfold fix_arima_forecast_with_simulated_average. rewrite Ha.
    destruct (rows a) as [|r rs] eqn:Hrows; [congruence|].
    unfold bindF at 1. rewrite E. reflexivity. }
  cbn [simulated_paths chatgpt_threshold threshold_weighted_forecast
       chatgpt_weighted_forecast arima_forecast].
  split; [now rewrite Ha|]. do 3 (split; [reflexivity|]).
  split; [exact Hl|].
  intros i e He. destruct (Hnth i e He) as (x & Hx & He').
  cbn [Nat.add] in Hx.
  assert (Hi : (i < ncols a)%nat).
  { rewrite <- average_of_paths_length. apply nth_error_Some. congruence. }
  rewrite average_of_paths_nth_error in Hx by exact Hi.
  injection Hx as <-.
  eexists. split; [exact He'|]. cbn [entry_date entry_arima_forecast
    entry_threshold_weighted_forecast entry_chatgpt_weighted_forecast].
  repeat split. now apply average_axis0_nth_error.
Qed.

Lemma simulated_average_replaces_arima_forecast_witness :
  exists result,
    fix_arima_forecast_with_simulated_average stored_forecasts []
    = (Returned result, [Print_updated_arima_forecast])
    /\ map entry_arima_forecast (arima_forecast result) = [(10 + (20 + 0)) / 2].
Proof.
  destruct (simulated_average_replaces_arima_forecast stored_forecasts paths2
              [] eq_refl ltac:(discriminate) ltac:(cbn; lia)
              ltac:(cbn; lia))
    as (result & E & _).
  exists result. split; [exact E|].
  vm_compute in E. injection E as <-. reflexivity.
Defined.

(** X14.  With more entries than forecast steps in the stored paths,
    the replacement of the ARIMA values raises IndexError, and so do the
    corrections as a whole: the threshold is not adjusted, nothing is
    recalculated and nothing is printed. *)
Theorem more_entries_than_steps_abort data a analyses out :
  simulated_paths data = Some a ->
  rows a <> [] ->
  (ncols a < length (arima_forecast data))%nat ->
  fix_arima_forecast_with_simulated_average data out
  = (Raised IndexError, out)
  /\ apply_corrections data analyses out = (Raised IndexError, out).
Proof.
  intros Ha Hne Hentries.
  assert (E : fix_arima_forecast_with_simulated_average data out
              = (Raised IndexError, out)).
  { unfold fix_arima_forecast_with_simulated_average. rewrite Ha.
    destruct (rows a) as [|r rs] eqn:Hrows; [congruence|].
    unfold bindF at 1.
    rewrite replace_arima_forecast_raises; [reflexivity | lia |].
    rewrite average_of_paths_length. cbn [Nat.add]. exact Hentries. }
  split; [exact E|].
  unfold apply_corrections. unfold bindF at 1. now rewrite E.
Qed.

Lemma more_entries_than_steps_abort_witness :
  simulated_paths overlong_forecasts = Some paths2
  /\ (ncols paths2 < length (arima_forecast overlong_forecasts))%nat
  /\ apply_corrections overlong_forecasts (Some [3; 5]) []
     = (Raised IndexError, []).
Proof.
  split; [reflexivity|]. split; [cbn; lia|].
  apply (more_entries_than_steps_abort overlong_forecasts paths2
           (Some [3; 5]) []); [reflexivity | discriminate | cbn; lia].
Defined.

(** X15.  The corrections as a whole, for stored paths of at least one
    step, no more entries than steps and one probability per path:
    they return; the stored threshold is raised by one, and the ChatGPT
    weighted forecast is the threshold weighting at this raised
    threshold, or at 6 when no threshold is stored (none is stored
    then); the threshold weighted forecast is the weighting at 4. *)
Theorem corrections_use_raised_threshold data a probabilities out :
  simulated_paths data = Some a ->
  rows a <> [] ->
  (0 < ncols a)%nat ->
  (length (arima_forecast data) <= ncols a)%nat ->
  length probabilities = length (rows a) ->
  exists result out' tw cw out1 out2,
    apply_corrections data (Some probabilities) out = (Returned result, out')
    /\ chatgpt_threshold result
       = match chatgpt_threshold data with
         | Some t => Some (t + 1)
         | None => None
         end
    /\ calculate_threshold_weighted_forecast a probabilities 4 []
       = (Returned tw, out1)
    /\ calculate_threshold_weighted_forecast a probabilities
         match chatgpt_threshold data with
         | Some t => t + 1
         | None => 6
         end out1
       = (Returned cw, out2)
    /\ threshold_weighted_forecast result = Some tw
    /\ chatgpt_weighted_forecast result = Some cw
    /\ simulated_paths result = Some a
    /\ length (arima_forecast result) = length (arima_forecast data).
Proof.
  intros Ha Hne _ Hentries Hlen.
  pose proof (apply_corrections_returns data a probabilities out Ha Hne
                Hentries Hlen) as H.
  cbv zeta in H.
  destruct H as (entries & tw & cw & out1 & out2 & out' & E & E1 & E2 & _
                 & _ & Eall).
  destruct (replace_arima_forecast_returns (average_of_paths a)
              (arima_forecast data) 0 out) as (entries' & E' & Hl & _).
  { rewrite average_of_paths_length. cbn [Nat.add]. exact Hentries. }
  rewrite E in E'. injection E' as <-.
  eexists. exists out', tw, cw, out1, out2.
  split; [exact Eall|].
  cbn [chatgpt_threshold threshold_weighted_forecast
       chatgpt_weighted_forecast simulated_paths arima_forecast].
  repeat (split; [reflexivity || assumption|]).
  now rewrite update_entries_length.
Qed.

Lemma corrections_use_raised_threshold_witness :
  exists result out',
    apply_corrections stored_forecasts (Some [3; 5]) []
    = (Returned result, out')
    /\ chatgpt_threshold result = None
    /\ chatgpt_weighted_forecast result = Some [Fin ((10 + (20 + 0)) / 2)].
Proof.
  destruct (corrections_use_raised_threshold stored_forecasts paths2 [3; 5]
              [] eq_refl ltac:(discriminate) ltac:(cbn; lia)
              ltac:(cbn; lia) eq_refl)
    as (result & out' & tw & cw & out1 & out2 & E & Ht & E1 & E2 & _ & Hcw
        & _).
  exists result, out'. split; [exact E|]. split; [exact Ht|].
  rewrite Hcw. f_equal.
  vm_compute in E1. injection E1 as _ <-.
  vm_compute in E2. injection E2 as <- _. reflexivity.
Defined.

(** X16.  After the corrections, when every probability reaches 4 or
    none does, each entry's threshold weighted forecast is its ARIMA
    forecast: both are the mean of the step over all simulated paths. *)
Theorem corrected_threshold_forecast_is_arima_forecast
    data a probabilities out :
  simulated_paths data = Some a ->
  rows a <> [] ->
  (0 < ncols a)%nat ->
  (length (arima_forecast data) <= ncols a)%nat ->
  length probabilities = length (rows a) ->
  (forall w, In w probabilities -> 4 <= w)
  \/ (forall w, In w probabilities -> w < 4) ->
  exists result out',
    apply_corrections data (Some probabilities) out = (Returned result, out')
    /\ length (arima_forecast result) = length (arima_forecast data)
    /\ forall e,
         In e (arima_forecast result) ->
         entry_threshold_weighted_forecast e
         = Some (Fin (entry_arima_forecast e)).
Proof.
  intros Ha Hne _ Hentries Hlen Hextreme.
  pose proof (apply_corrections_returns data a probabilities out Ha Hne
                Hentries Hlen) as H.
  cbv zeta in H.
  destruct H as (entries & tw & cw & out1 & out2 & out' & E & E1 & _ & _
                 & _ & Eall).
  destruct (replace_arima_forecast_returns (average_of_paths a)
              (arima_forecast data) 0 out) as (entries' & E' & Hl & Hnth).
  { rewrite average_of_paths_length. cbn [Nat.add]. exact Hentries. }
  rewrite E in E'. injection E' as <-.
  destruct (calculate_extreme a probabilities 4 [] Hlen Hne Hextreme)
    as (out1' & Eplain).
  rewrite E1 in Eplain. injection Eplain as -> _.
  eexists. exists out'. split; [exact Eall|]. cbn [arima_forecast].
  split; [now rewrite update_entries_length|].
  intros e' He'. apply In_nth_error in He' as (k & Hk).
  rewrite update_entries_nth_error in Hk. cbn [Nat.add] in Hk.
  destruct (nth_error entries k) as [e1|] eqn:Ee1; [|discriminate].
  cbn [option_map] in Hk. injection Hk as <-.
  cbn [entry_threshold_weighted_forecast entry_arima_forecast].
  assert (Hkl : (k < length (arima_forecast data))%nat).
  { rewrite <- Hl. apply nth_error_Some. congruence. }
  destruct (nth_error (arima_forecast data) k) as [e0|] eqn:Ee0;
    [|apply nth_error_None in Ee0; lia].
  destruct (Hnth k e0 Ee0) as (x & Hx & Hek). cbn [Nat.add] in Hx.
  rewrite average_of_paths_nth_error in Hx by lia. injection Hx as <-.
  rewrite Ee1 in Hek. injection Hek as ->.
  cbn [entry_arima_forecast].
  now rewrite average_axis0_nth_error by (assumption || lia).
Qed.

Lemma corrected_threshold_forecast_is_arima_forecast_witness :
  exists result out',
    apply_corrections stored_forecasts (Some [3; 3]) []
    = (Returned result, out')
    /\ length (arima_forecast result) = 1%nat
    /\ forall e,
         In e (arima_forecast result) ->
         entry_threshold_weighted_forecast e
         = Some (Fin (entry_arima_forecast e)).
Proof.
  apply (corrected_threshold_forecast_is_arima_forecast stored_forecasts
           paths2 [3; 3] []).
  - reflexivity.
  - discriminate.
  - cbn. lia.
  - cbn. lia.
  - reflexivity.
  - right. intros w [<-|[<-|[]]]; reflexivity.
Defined.

End FixForecastsFacts.

(** ** The dates of the plots and the dates of the restoration *)

Module PlotDatesFacts.

Import Calendar CalendarFacts ScaleRestorer ScaleRestorerFacts Parts.
Import BusinessDayFacts PlotDates PyFacts.

Local Open Scope Z_scope.

Lemma date_range_empty (a b : date) : b < a -> date_range a b = [].
Proof.
  intros H. unfold date_range.
  replace (Z.to_nat (b - a + 1)) with 0%nat by lia. reflexivity.
Qed.

Lemma date_range_prefix (a b c : date) :
  b <= c -> exists rest, date_range a c = date_range a b ++ rest.
Proof.
  intros Hbc. destruct (Z_lt_le_dec b (a - 1)) as [Hlt|Hle].
  - exists (date_range a c). now rewrite (date_range_empty a b) by lia.
  - exists (date_range (b + 1) c). apply date_range_app; lia.
Qed.

(** Two prefixes of the same length of the filtered days from [a] on are
    the same list. *)
Lemma filtered_prefix_unique (f : date -> bool) (a b c : date) (n : nat) :
  length (filter f (date_range a b)) = n ->
  (n <= length (filter f (date_range a c)))%nat ->
  firstn n (filter f (date_range a c)) = filter f (date_range a b).
Proof.
  intros Hb Hc. destruct (Z_le_gt_dec b c) as [Hle|Hgt].
  - destruct (date_range_prefix a b c Hle) as (rest & ->).
    rewrite filter_app, firstn_app, Hb, Nat.sub_diag.
    cbn [firstn]. rewrite app_nil_r. rewrite <- Hb. apply firstn_all.
  - destruct (date_range_prefix a c b ltac:(lia)) as (rest & E).
    rewrite E, filter_app in Hb |- *. rewrite length_app in Hb.
    assert (Hrest : filter f rest = [])
      by (destruct (filter f rest); [reflexivity | cbn in Hb; lia]).
    rewrite Hrest, app_nil_r in *. cbn [length] in Hb.
    rewrite Nat.add_0_r in Hb. rewrite <- Hb. apply firstn_all.
Qed.

Section DailyLoop.

Variable steps : nat.
Variable holidays : list date.
Variable B : date.

Local Abbreviation trading := (is_trading_day holidays).

(** The loop collects the first trading days from [current_date] on,
    until it has [steps] dates. *)
Lemma daily_loop_collects fuel : forall acc cur out,
  (length acc <= steps)%nat ->
  (steps - length acc <= length (filter trading (date_range cur B)))%nat ->
  ((length acc < steps)%nat -> (Z.to_nat (B - cur + 1) <= fuel)%nat) ->
  exists final,
    while_loop fuel (date_cond steps) (day_body holidays)
      {| forecast_dates := acc; current_date := cur |} out
    = (Returned
         {| forecast_dates :=
              acc ++ firstn (steps - length acc)
                       (filter trading (date_range cur B));
            current_date := final |},
       out).
Proof.
  induction fuel as [|fuel IH]; intros acc cur out Hacc Hcount Hfuel.
  - destruct (Nat.ltb (length acc) steps) eqn:Ec.
    + apply Nat.ltb_lt in Ec. specialize (Hfuel Ec).
      assert (Hempty : date_range cur B = [])
        by (apply date_range_empty; lia).
      rewrite Hempty in Hcount. cbn in Hcount. lia.
    + apply Nat.ltb_ge in Ec. exists cur.
      rewrite while_loop_done
        by (unfold date_cond; cbn [forecast_dates]; now apply Nat.ltb_ge).
      replace (steps - length acc)%nat with 0%nat by lia.
      cbn [firstn]. now rewrite app_nil_r.
  - destruct (Nat.ltb (length acc) steps) eqn:Ec.
    + apply Nat.ltb_lt in Ec.
      assert (HcurB : cur <= B).
      { destruct (Z_le_gt_dec cur B) as [H|H]; [exact H|].
        rewrite date_range_empty in Hcount by lia. cbn in Hcount. lia. }
      rewrite while_loop_step
        by (unfold date_cond; cbn [forecast_dates]; now apply Nat.ltb_lt).
      unfold bind at 1. unfold day_body at 1, ret at 1.
      cbn [current_date forecast_dates].
      rewrite (date_range_cons cur B HcurB) in Hcount |- *.
      cbn [filter] in Hcount |- *.
      destruct (is_trading_day holidays cur) eqn:Et.
      * destruct (IH (acc ++ [cur]) (cur + 1) out) as (final & E).
        { rewrite length_app. cbn [length]. lia. }
        { rewrite length_app. cbn [length] in *. lia. }
        { intros _. specialize (Hfuel Ec). lia. }
        exists final. rewrite E. rewrite length_app. cbn [length].
        replace (steps - length acc)%nat
          with (S (steps - (length acc + 1)))%nat by lia.
        cbn [firstn]. now rewrite <- app_assoc.
      * destruct (IH acc (cur + 1) out Hacc Hcount) as (final & E).
        { intros _. specialize (Hfuel Ec). lia. }
        exists final. exact E.
    + apply Nat.ltb_ge in Ec. exists cur.
      rewrite while_loop_done
        by (unfold date_cond; cbn [forecast_dates]; now apply Nat.ltb_ge).
      replace (steps - length acc)%nat with 0%nat by lia.
      cbn [firstn]. now rewrite app_nil_r.
Qed.

End DailyLoop.

(** Past the window of the holiday index only the weekday is tested. *)
Lemma is_trading_day_past_window (start stop d : date) :
  stop < d ->
  is_trading_day (holidays_between start stop) d = (weekday d <? 5).
Proof.
  intros Hd. unfold is_trading_day.
  destruct (contains (holidays_between start stop) d) eqn:Ec.
  - apply contains_holidays_between in Ec. lia.
  - cbn [negb]. apply andb_true_r.
Qed.

Lemma In_firstn {A} (n : nat) (l : list A) (x : A) :
  In x (firstn n l) -> In x l.
Proof.
  intros H. rewrite <- (firstn_skipn n l). apply in_or_app. now left.
Qed.

(** The budget is never exhausted: the loop of the plots returns, for
    every window and every first date up to the day after its end. *)
Lemma daily_dates_return (steps : nat) (start first : date) out :
  let end_date := start + Z.of_nat steps * 4 in
  first <= end_date + 1 ->
  exists st,
    while_loop (day_budget steps first end_date) (date_cond steps)
      (day_body (holidays_between start end_date))
      {| forecast_dates := []; current_date := first |} out
    = (Returned st, out)
    /\ length (forecast_dates st) = steps
    /\ forall x, In x (forecast_dates st) -> first <= x /\ weekday x <= 4.
Proof.
  intros end_date Hfirst. destruct steps as [|n].
  - eexists. rewrite while_loop_done by reflexivity.
    split; [reflexivity|]. split; [reflexivity|]. intros x [].
  - set (steps := S n) in *.
    set (B := add_BDay end_date (Z.of_nat steps)).
    destruct (weekdays_up_to_BDay end_date n) as [HB Hweek].
    fold steps in HB, Hweek. fold B in HB, Hweek.
    assert (Hcount : (steps <= length
              (filter (is_trading_day (holidays_between start end_date))
                 (date_range first B)))%nat).
    { rewrite (date_range_app first end_date B) by lia.
      rewrite filter_app, length_app.
      rewrite (filter_ext_in _ (fun x => weekday x <? 5)
                 (date_range (end_date + 1) B)).
      - rewrite Hweek. lia.
      - intros x Hx. apply date_range_bounds in Hx.
        apply is_trading_day_past_window. lia. }
    destruct (daily_loop_collects steps (holidays_between start end_date) B
                (day_budget steps first end_date) [] first out)
      as (final & E).
    + cbn [length]. lia.
    + cbn [length]. rewrite Nat.sub_0_r. exact Hcount.
    + intros _. unfold day_budget. fold B. lia.
    + eexists. split; [exact E|]. cbn [forecast_dates app length].
      rewrite Nat.sub_0_r. split; [apply firstn_length_le; exact Hcount|].
      intros x Hx. apply In_firstn, filter_In in Hx as [Hrange Ht].
      apply date_range_bounds in Hrange.
      unfold is_trading_day in Ht. apply andb_true_iff in Ht as [Hw _].
      apply Z.ltb_lt in Hw. lia.
Qed.

(** When the window holds [steps] business days from [first] on, the
    loop of the plots returns the first [steps] of them. *)
Lemma daily_dates_inside_window (steps : nat) (start first : date) out :
  let end_date := start + Z.of_nat steps * 4 in
  start <= first ->
  (steps <= length (filter is_business_day (date_range first end_date)))%nat ->
  exists final,
    while_loop (day_budget steps first end_date) (date_cond steps)
      (day_body (holidays_between start end_date))
      {| forecast_dates := []; current_date := first |} out
    = (Returned
         {| forecast_dates :=
              firstn steps (filter is_business_day
                              (date_range first end_date));
            current_date := final |},
       out).
Proof.
  intros end_date Hstart Hcount. destruct steps as [|n].
  - eexists. rewrite while_loop_done by reflexivity. reflexivity.
  - set (steps := S n) in *.
    set (B := add_BDay end_date (Z.of_nat steps)).
    destruct (weekdays_up_to_BDay end_date n) as [HB _].
    fold steps in HB. fold B in HB.
    assert (Hfirst : first <= end_date).
    { destruct (Z_le_gt_dec first end_date) as [H|H]; [exact H|].
      rewrite date_range_empty in Hcount by lia. cbn in Hcount. lia. }
    assert (Hsplit :
      filter (is_trading_day (holidays_between start end_date))
        (date_range first B)
      = filter is_business_day (date_range first end_date)
        ++ filter (is_trading_day (holidays_between start end_date))
             (date_range (end_date + 1) B)).
    { rewrite (date_range_app first end_date B) by lia.
      rewrite filter_app. f_equal. apply filter_ext_in.
      intros x Hx. apply date_range_bounds in Hx.
      apply is_trading_day_inside_window. lia. }
    destruct (daily_loop_collects steps (holidays_between start end_date) B
                (day_budget steps first end_date) [] first out)
      as (final & E).
    + cbn [length]. lia.
    + cbn [length]. rewrite Nat.sub_0_r, Hsplit, length_app. lia.
    + intros _. unfold day_budget. fold B. lia.
    + exists final. rewrite E. cbn [app length].
      rewrite Nat.sub_0_r, Hsplit, firstn_app.
      replace (steps - length (filter is_business_day
                                 (date_range first end_date)))%nat
        with 0%nat by lia.
      cbn [firstn]. now rewrite app_nil_r.
Qed.

(** The head of the filtered days of a range is the first day of the
    range that passes: the range can start there. *)
Lemma filter_range_from_head (f : date -> bool) (a b d : date) l :
  filter f (date_range a b) = d :: l ->
  a <= d <= b /\ filter f (date_range d b) = d :: l.
Proof.
  intros H.
  assert (Hin : In d (filter f (date_range a b))) by (rewrite H; now left).
  apply filter_In in Hin as [Hrange Hf]. apply date_range_bounds in Hrange.
  split; [exact Hrange|].
  rewrite (date_range_app a (d - 1) b) in H by lia.
  replace (d - 1 + 1) with d in H by lia. rewrite filter_app in H.
  destruct (filter f (date_range a (d - 1))) as [|x xs] eqn:E;
    [exact H|].
  cbn [app] in H. injection H as -> _.
  assert (Hx : In d (filter f (date_range a (d - 1))))
    by (rewrite E; now left).
  apply filter_In in Hx as [Hx _]. apply date_range_bounds in Hx. lia.
Qed.

(** X17.  The dates of the plot, which are the dates written to the
    forecast file, are the dates [transform_to_original_scale] returns,
    when the holiday window of the restoration holds at most ten
    holidays and the window of the plot (four days per step) holds a
    business day for every step. *)
Theorem plot_dates_are_restoration_dates forecast paths anchor last_date out :
  (length (holidays_between last_date
             (add_BDay last_date (Z.of_nat (length forecast) + 10)))
   <= 10)%nat ->
  (length forecast
   <= length (filter is_business_day
                (date_range (last_date + 1)%Z
                   (last_date + Z.of_nat (length forecast) * 4)%Z)))%nat ->
  exists restored restored_paths dates,
    transform_to_original_scale forecast paths anchor last_date out
    = (Returned (restored, restored_paths, dates), out)
    /\ plot_forecast_dates (length forecast) last_date out
       = (Returned dates, out)
    /\ length dates = length forecast.
Proof.
  intros Hhol Hplot.
  destruct (forecast_dates_with_buffer (length forecast) last_date out Hhol)
    as (dates & final & E & Hlen & _ & Hdates).
  destruct (daily_dates_inside_window (length forecast) last_date
              (last_date + 1) out ltac:(lia) Hplot) as (final' & Eplot).
  do 2 eexists. exists dates. split.
  { unfold transform_to_original_scale, bind. rewrite E. reflexivity. }
  split; [|exact Hlen].
  unfold plot_forecast_dates, bind. rewrite Eplot.
  cbn [forecast_dates]. unfold ret. f_equal. f_equal.
  rewrite Hdates. apply filtered_prefix_unique; [|exact Hplot].
  now rewrite <- Hdates.
Qed.

Lemma plot_dates_are_restoration_dates_witness :
  exists restored restored_paths,
    transform_to_original_scale [1; 2; 3]%Q {| rows := []; ncols := 3 |}
      100%Q (ymd2ord 2024 8 30) []
    = (Returned
         (restored, restored_paths,
          [ymd2ord 2024 9 3; ymd2ord 2024 9 4; ymd2ord 2024 9 5]), [])
    /\ plot_forecast_dates 3 (ymd2ord 2024 8 30) []
       = (Returned
            [ymd2ord 2024 9 3; ymd2ord 2024 9 4; ymd2ord 2024 9 5], []).
Proof.
  destruct (plot_dates_are_restoration_dates [1; 2; 3]%Q
              {| rows := []; ncols := 3 |} 100%Q (ymd2ord 2024 8 30) [])
    as (restored & restored_paths & dates & E & Eplot & _).
  - vm_compute. lia.
  - vm_compute. lia.
  - exists restored, restored_paths.
    assert (Hd : dates
                 = [ymd2ord 2024 9 3; ymd2ord 2024 9 4; ymd2ord 2024 9 5]).
    { vm_compute in E. injection E as _ _ <-. reflexivity. }
    rewrite <- Hd. split; [exact E | exact Eplot].
Defined.

(** X18.  Regenerating the dates from the stored start date, as
    fix_forecasts.py does for its plots, gives the dates of the original
    plot again, when the window of the original plot holds a business
    day for every step. *)
Theorem regenerated_dates_are_plot_dates steps last_date out :
  (steps
   <= length (filter is_business_day
                (date_range (last_date + 1)%Z
                   (last_date + Z.of_nat steps * 4)%Z)))%nat ->
  exists dates,
    plot_forecast_dates steps last_date out = (Returned dates, out)
    /\ length dates = steps
    /\ forall forecast_start_date out',
         hd_error dates = Some forecast_start_date ->
         regenerate_forecast_dates steps forecast_start_date out'
         = (Returned dates, out').
Proof.
  intros Hplot.
  destruct (daily_dates_inside_window steps last_date (last_date + 1) out
              ltac:(lia) Hplot) as (final & Eplot).
  set (E1 := last_date + Z.of_nat steps * 4) in *.
  set (L := filter is_business_day (date_range (last_date + 1) E1)) in *.
  exists (firstn steps L). split.
  { unfold plot_forecast_dates, bind. fold E1. rewrite Eplot. reflexivity. }
  split; [now apply firstn_length_le|].
  intros start out' Hhd.
  destruct L as [|d l] eqn:EL; [destruct steps; discriminate|].
  destruct steps as [|n]; [discriminate|].
  cbn [firstn hd_error] in Hhd. injection Hhd as ->.
  apply filter_range_from_head in EL as [Hrange EL].
  set (E2 := start + Z.of_nat (S n) * 4).
  destruct (date_range_prefix start E1 E2 ltac:(lia)) as (rest & Erest).
  assert (Hcount : (S n <= length (filter is_business_day
                                     (date_range start E2)))%nat).
  { rewrite Erest, filter_app, length_app, EL. lia. }
  destruct (daily_dates_inside_window (S n) start start out' ltac:(lia)
              Hcount) as (final' & Eregen).
  unfold regenerate_forecast_dates, bind. fold E2. fold E2 in Eregen.
  rewrite Eregen. cbn [forecast_dates]. unfold ret. f_equal. f_equal.
  rewrite Erest, filter_app, EL, firstn_app.
  replace (S n - length (start :: l))%nat with 0%nat by lia.
  cbn [firstn]. now rewrite app_nil_r.
Qed.

(** X19.  Both date loops of the plots return for every number of
    steps and every start, without exhausting their iteration budget:
    they give one date per step, each a weekday, after the last
    historical date for the plot and from the stored start date on for
    the regenerated plot. *)
Theorem plot_date_loops_return steps d out :
  (exists dates,
     plot_forecast_dates steps d out = (Returned dates, out)
     /\ length dates = steps
     /\ forall x, In x dates -> d < x /\ weekday x <= 4)
  /\ (exists dates,
        regenerate_forecast_dates steps d out = (Returned dates, out)
        /\ length dates = steps
        /\ forall x, In x dates -> d <= x /\ weekday x <= 4).
Proof.
  split.
  - destruct (daily_dates_return steps d (d + 1) out ltac:(cbv zeta; lia))
      as (st & E & Hlen & Hin).
    exists (forecast_dates st). split.
    { unfold plot_forecast_dates, bind. rewrite E. reflexivity. }
    split; [exact Hlen|]. intros x Hx. specialize (Hin x Hx). lia.
  - destruct (daily_dates_return steps d d out ltac:(cbv zeta; lia))
      as (st & E & Hlen & Hin).
    exists (forecast_dates st). split.
    { unfold regenerate_forecast_dates, bind. rewrite E. reflexivity. }
    split; [exact Hlen|]. exact Hin.
Qed.

Lemma regenerated_dates_are_plot_dates_witness :
  plot_forecast_dates 3 (ymd2ord 2024 8 30) []
  = (Returned [ymd2ord 2024 9 3; ymd2ord 2024 9 4; ymd2ord 2024 9 5], [])
  /\ regenerate_forecast_dates 3 (ymd2ord 2024 9 3) []
     = (Returned [ymd2ord 2024 9 3; ymd2ord 2024 9 4; ymd2ord 2024 9 5], []).
Proof.
  destruct (regenerated_dates_are_plot_dates 3 (ymd2ord 2024 8 30) [])
    as (dates & E & _ & Hregen).
  - vm_compute. lia.
  - assert (Hd : dates
                 = [ymd2ord 2024 9 3; ymd2ord 2024 9 4; ymd2ord 2024 9 5]).
    { vm_compute in E. injection E as <-. reflexivity. }
    split; [now rewrite <- Hd|].
    rewrite <- Hd. apply Hregen. now rewrite Hd.
Defined.

End PlotDatesFacts.
